(** * A shallow embedding of the GRIB2 decoder and raster renderer

    The radar pipeline reads a GRIB2 message (grib2Parser.js), unpacks the
    reflectivity field and paints it through the NWS colour scale
    (radarRenderer.js).  This file embeds the functions of those two
    modules, the legend and the server that calls them, and proves
    properties of them.

    Conventions of the embedding.
    - A Node [Buffer] is a [list byte]; reading [buffer[k]] gives
      [Some b] inside the buffer and [None] (JavaScript's [undefined])
      outside of it.
    - The operators [<<], [>>], [|] and [&] are JavaScript's: their
      operands are converted with ToInt32 and their result is a signed
      32-bit integer.  They are written out over [Z].
    - A JavaScript number that need not be an integer is an exact
      rational, an infinity or NaN ([jsnum]); the rounding of binary64 and
      of binary32, overflow and the sign of zero are not modelled.
    - A typed array is the list of its elements; memory limits are not
      modelled, so that an allocation fails on a negative length only.
    - [throw] is an error result; a loop whose termination depends on the
      input runs on fuel. *)

From Stdlib Require Import ZArith List Lia QArith Qround Lqa Bool.
From Stdlib Require Import Strings.Byte Strings.Ascii Strings.String.
From stdpp Require Import base list.
From coqutil Require Import Z.bitblast.
Import ListNotations.
Local Open Scope Z_scope.

(** ** JavaScript integer operators *)

Module JS.

(** ToInt32 of an integral number: reduction modulo 2^32 into
    [-2^31, 2^31). *)
Definition ToInt32 (x : Z) : Z := (x + 2 ^ 31) mod 2 ^ 32 - 2 ^ 31.

(** [x << k]: the shift count is taken modulo 32. *)
Definition shl (x k : Z) : Z := ToInt32 (Z.shiftl (ToInt32 x) (k mod 32)).

(** [x >> k], the sign-propagating right shift. *)
Definition shr (x k : Z) : Z := Z.shiftr (ToInt32 x) (k mod 32).

(** [x | y] and [x & y]. *)
Definition or (x y : Z) : Z := Z.lor (ToInt32 x) (ToInt32 y).
Definition and (x y : Z) : Z := Z.land (ToInt32 x) (ToInt32 y).

(** An operand that may be [undefined]: ToInt32(undefined) is 0. *)
Definition int_of (v : option Z) : Z := default 0 v.

End JS.

(** ** Buffers *)

Definition byte_val (b : byte) : Z := Z.of_N (Byte.to_N b).

(** [buffer[k]] *)
Definition buffer_at (buffer : list byte) (k : Z) : option Z :=
  if k <? 0 then None else byte_val <$> buffer !! Z.to_nat k.

(** [buffer.length] *)
Definition buffer_length (buffer : list byte) : Z := Z.of_nat (length buffer).

(** [buffer.slice(start, end)]: a negative index counts from the end, and
    both indices are clamped to the buffer. *)
Definition slice_index (len k : Z) : Z :=
  if k <? 0 then Z.max (len + k) 0 else Z.min k len.

Definition buffer_slice (buffer : list byte) (start stop : Z) : list byte :=
  let len := buffer_length buffer in
  let start := slice_index len start in
  let stop := slice_index len stop in
  take (Z.to_nat (stop - start)) (drop (Z.to_nat start) buffer).

(** [buffer.toString("ascii")]: Node clears the top bit of every byte
    before it decodes the bytes as characters. *)
Definition toString_ascii (buffer : list byte) : string :=
  string_of_list_ascii
    (map (fun b => Ascii.ascii_of_N (N.land (Byte.to_N b) 127)) buffer).

(** ** Byte reader *)

(** One turn of the loop of [readUint]: [value = (value << 8) | buffer[offset + i]]. *)
Definition readUint_step (buffer : list byte) (offset : Z) (value : Z) (i : nat) : Z :=
  JS.or (JS.shl value 8) (JS.int_of (buffer_at buffer (offset + Z.of_nat i))).

Definition readUint (buffer : list byte) (offset : Z) (bytes : nat) : Z :=
  fold_left (readUint_step buffer offset) (seq 0 bytes) 0.

Definition readInt (buffer : list byte) (offset : Z) (bytes : nat) : Z :=
  let value := readUint buffer offset bytes in
  let signBit := JS.shl 1 (Z.of_nat bytes * 8 - 1) in
  if negb (JS.and value signBit =? 0)
  then - JS.and value (signBit - 1)
  else value.

(** ** Reference readings of a byte string

    These follow the words of the specification, not the code: the
    unsigned integer whose big-endian encoding a byte string is, and the
    GRIB2 sign-magnitude reading of it. *)

Definition be_value (bs : list Z) : Z :=
  fold_left (fun acc b => acc * 256 + b) bs 0.

(** The [n] bytes at [offset], as the bitwise operators see them. *)
Definition octets (buffer : list byte) (offset : Z) (n : nat) : list Z :=
  map (fun i => JS.int_of (buffer_at buffer (offset + Z.of_nat i))) (seq 0 n).

Definition sign_magnitude (bs : list Z) : Z :=
  let u := be_value bs in
  let n := Z.of_nat (length bs) in
  if hd 0 bs <? 128 then u else - Z.land u (2 ^ (8 * n - 1) - 1).

(** ** JavaScript numbers

    A number is an exact rational, an infinity or NaN.  The arithmetic is
    exact: the rounding and the overflow of binary64, and the rounding of
    a store into a [Float32Array], are not modelled, and there is one
    zero. *)

Inductive jsnum : Type :=
  | Num (q : Q)
  | Inf (negative : bool)
  | NaN.

Module Num.

Definition of_Z (z : Z) : jsnum := Num (inject_Z z).

(** ToNumber of a value that may be [undefined]. *)
Definition of_undef (v : option Z) : jsnum :=
  match v with Some z => of_Z z | None => NaN end.

Definition is_neg (q : Q) : bool := negb (Qle_bool 0 q).

Definition neg (a : jsnum) : jsnum :=
  match a with
  | Num x => Num (- x)
  | Inf s => Inf (negb s)
  | NaN => NaN
  end.

Definition add (a b : jsnum) : jsnum :=
  match a, b with
  | Num x, Num y => Num (x + y)
  | Num _, Inf s | Inf s, Num _ => Inf s
  | Inf s, Inf s' => if Bool.eqb s s' then Inf s else NaN
  | _, _ => NaN
  end.

Definition sub (a b : jsnum) : jsnum := add a (neg b).

Definition mul (a b : jsnum) : jsnum :=
  match a, b with
  | Num x, Num y => Num (x * y)
  | Num x, Inf s | Inf s, Num x =>
      if Qeq_bool x 0 then NaN else Inf (xorb s (is_neg x))
  | Inf s, Inf s' => Inf (xorb s s')
  | _, _ => NaN
  end.

Definition div (a b : jsnum) : jsnum :=
  match a, b with
  | Num x, Num y =>
      if Qeq_bool y 0
      then (if Qeq_bool x 0 then NaN else Inf (is_neg x))
      else Num (x / y)
  | Num _, Inf _ => Num 0
  | Inf s, Num y => Inf (xorb s (is_neg y))
  | _, _ => NaN
  end.

(** [a < b]; every comparison with NaN is false. *)
Definition lt (a b : jsnum) : bool :=
  match a, b with
  | Num x, Num y => negb (Qle_bool y x)
  | Num _, Inf s => negb s
  | Inf s, Num _ => s
  | Inf s, Inf s' => s && negb s'
  | _, _ => false
  end.

(** [a <= b] *)
Definition le (a b : jsnum) : bool :=
  match a, b with
  | Num x, Num y => Qle_bool x y
  | Num _, Inf s => negb s
  | Inf s, Num _ => s
  | Inf s, Inf s' => s || negb s'
  | _, _ => false
  end.

Definition gt (a b : jsnum) : bool := lt b a.
Definition ge (a b : jsnum) : bool := le b a.

(** [a === b] on numbers. *)
Definition eqb (a b : jsnum) : bool :=
  match a, b with
  | Num x, Num y => Qeq_bool x y
  | Inf s, Inf s' => Bool.eqb s s'
  | _, _ => false
  end.

Definition isNaN (a : jsnum) : bool :=
  match a with NaN => true | _ => false end.

(** A number is falsy when it is zero or NaN. *)
Definition truthy (a : jsnum) : bool :=
  match a with
  | Num x => negb (Qeq_bool x 0)
  | Inf _ => true
  | NaN => false
  end.

(** [Math.round]: the nearest integer, a tie going up. *)
Definition round (a : jsnum) : jsnum :=
  match a with
  | Num x => of_Z (Qfloor (x + (1 # 2)))
  | _ => a
  end.

(** [Math.pow(base, e)] for an integral base at least 2 and an integral
    exponent; an [undefined] exponent gives NaN. *)
Definition pow (base : Z) (e : option Z) : jsnum :=
  match e with
  | Some e => Num (Qpower (inject_Z base) e)
  | None => NaN
  end.

(** Equality of numbers as values (NaN is related to itself here). *)
Definition eq (a b : jsnum) : Prop :=
  match a, b with
  | Num x, Num y => (x == y)%Q
  | Inf s, Inf s' => s = s'
  | NaN, NaN => True
  | _, _ => False
  end.

End Num.

(** Two fields hold the same numbers. *)
Definition field_eq (u v : list jsnum) : Prop := Forall2 Num.eq u v.

(** ** Results of a call

    A call returns, throws, or keeps running ([OutOfFuel]: the fuel given
    to a loop was used up). *)

Inductive error : Type :=
  | InvalidFormat
      (* "Invalid GRIB2 file: missing GRIB magic number" *)
  | UnsupportedEdition (edition : option Z)
      (* "Unsupported GRIB edition: ..." *)
  | ExpectedSection (expected : Z) (got : option Z)
      (* "Expected section n, got section m" *)
  | MissingSection (n : Z)
      (* "Could not find Section n (...)" *)
  | UnsupportedPacking (templateNum : Z)
      (* "Unsupported data representation template: ..." *)
  | RangeError.
      (* thrown by the runtime: a read outside of a buffer, an invalid
         array length, an invalid date *)

Inductive result (A : Type) : Type :=
  | Ok (a : A)
  | Throw (e : error)
  | OutOfFuel.
Arguments Ok {A} a.
Arguments Throw {A} e.
Arguments OutOfFuel {A}.

#[export] Instance result_ret : MRet result := fun A a => Ok a.
#[export] Instance result_bind : MBind result :=
  fun A B f m =>
    match m with
    | Ok a => f a
    | Throw e => Throw e
    | OutOfFuel => OutOfFuel
    end.

(** [new Float32Array(n)] and [new Uint8Array(n)] for an integral [n]:
    zeros, or a RangeError for a negative length. *)
Definition Float32Array_new (n : Z) : result (list jsnum) :=
  if n <? 0 then Throw RangeError else Ok (replicate (Z.to_nat n) (Num.of_Z 0)).

Definition Uint8Array_new (n : Z) : result (list Z) :=
  if n <? 0 then Throw RangeError else Ok (replicate (Z.to_nat n) 0).

(** ** Section 5: packing parameters

    The object built by [parseSection5].  The fields after [templateNum]
    are present for templates 0, 40 and 41 only, and [bitsPerValue] is
    [undefined] when it lies outside the buffer. *)

Record section5 : Type := {
  s5_length : Z;
  numDataPoints : Z;
  s5_templateNum : Z;
  referenceValue : option jsnum;
  binaryScaleFactor : option Z;
  decimalScaleFactor : option Z;
  bitsPerValue : option Z
}.

(** ToNumber of [referenceValue]. *)
Definition reference (s5 : section5) : jsnum :=
  default NaN (referenceValue s5).

Definition binaryFactor (s5 : section5) : jsnum :=
  Num.pow 2 (binaryScaleFactor s5).

Definition decimalFactor (s5 : section5) : jsnum :=
  Num.pow 10 (Z.opp <$> decimalScaleFactor s5).

(** [(referenceValue + x * binaryFactor) * decimalFactor] *)
Definition scale (s5 : section5) (x : jsnum) : jsnum :=
  Num.mul (Num.add (reference s5) (Num.mul x (binaryFactor s5))) (decimalFactor s5).

(** ** Template 0: simple packing *)

Record bit_state : Type := {
  packedValue : Z;
  bitsRemaining : Z;
  currentByte : Z;
  currentBitPos : Z
}.

(** The body of the [while (bitsRemaining > 0)] loop. *)
Definition readBits_step (dataBuffer : list byte) (s : bit_state) : bit_state :=
  let bitsToRead := Z.min (bitsRemaining s) (8 - currentBitPos s) in
  let mask := JS.shl 1 bitsToRead - 1 in
  let shift := 8 - currentBitPos s - bitsToRead in
  let packedValue' :=
    if currentByte s <? buffer_length dataBuffer then
      let bits :=
        JS.and (JS.shr (JS.int_of (buffer_at dataBuffer (currentByte s))) shift) mask in
      JS.or (JS.shl (packedValue s) bitsToRead) bits
    else packedValue s in
  let bitsRemaining' := bitsRemaining s - bitsToRead in
  let currentBitPos' := currentBitPos s + bitsToRead in
  if currentBitPos' >=? 8
  then {| packedValue := packedValue'; bitsRemaining := bitsRemaining';
          currentByte := currentByte s + 1; currentBitPos := 0 |}
  else {| packedValue := packedValue'; bitsRemaining := bitsRemaining';
          currentByte := currentByte s; currentBitPos := currentBitPos' |}.

Fixpoint readBits_loop (fuel : nat) (dataBuffer : list byte) (s : bit_state) : bit_state :=
  match fuel with
  | O => s
  | S fuel =>
      if bitsRemaining s >? 0
      then readBits_loop fuel dataBuffer (readBits_step dataBuffer s)
      else s
  end.

(** The packed value read at [bitOffset]: every turn of the loop takes at
    least one bit, so [bitsPerValue] turns are enough. *)
Definition readPacked (dataBuffer : list byte) (bitsPerValue bitOffset : Z) : Z :=
  packedValue
    (readBits_loop (Z.to_nat bitsPerValue) dataBuffer
       {| packedValue := 0; bitsRemaining := bitsPerValue;
          currentByte := bitOffset / 8; currentBitPos := Z.rem bitOffset 8 |}).

(** One turn of the loop over the cells; the state is the array and
    [bitOffset]. *)
Definition unpackSimple_step (dataBuffer : list byte) (s5 : section5) (bits : Z)
    (st : list jsnum * Z) (i : nat) : list jsnum * Z :=
  let '(values, bitOffset) := st in
  let packed := readPacked dataBuffer bits bitOffset in
  (<[i := scale s5 (Num.of_Z packed)]> values, bitOffset + bits).

Definition unpackSimple (dataBuffer : list byte) (s5 : section5) (numPoints : Z)
    : result (list jsnum) :=
  values ← Float32Array_new numPoints;
  match bitsPerValue s5 with
  | Some 0 =>
      Ok (replicate (length values) (Num.mul (reference s5) (decimalFactor s5)))
  | Some bits =>
      Ok (fst (fold_left (unpackSimple_step dataBuffer s5 bits)
                 (seq 0 (length values)) (values, 0)))
  | None =>
      (* [undefined > 0] is false: no bit is read and every cell gets the
         packed value 0 *)
      Ok (replicate (length values) (scale s5 (Num.of_Z 0)))
  end.

(** ** Template 40: JPEG 2000 fallback *)

Definition unpackJpeg2000Fallback (dataBuffer : list byte) (s5 : section5)
    (numPoints : Z) : result (list jsnum) :=
  values ← Float32Array_new numPoints;
  Ok (fold_left
        (fun values i =>
           if Z.of_nat i <? buffer_length dataBuffer
           then <[i := scale s5 (Num.of_undef (buffer_at dataBuffer (Z.of_nat i)))]> values
           else <[i := Num.of_Z (-999)]> values)
        (seq 0 (length values)) values).

(** ** Template 200: run-length packing *)

(** [value === 0 ? -999 : value * 0.5 - 33] *)
Definition runLength_dbz (value : Z) : jsnum :=
  if value =? 0 then Num.of_Z (-999)
  else Num.sub (Num.mul (Num.of_Z value) (Num (1 # 2))) (Num.of_Z 33).

(** The inner [for] loop: [count] copies at most, while [i < numPoints]. *)
Fixpoint runLength_fill (count : nat) (dbz : jsnum) (numPoints : Z)
    (values : list jsnum) (i : Z) : list jsnum * Z :=
  match count with
  | O => (values, i)
  | S count =>
      if i <? numPoints
      then runLength_fill count dbz numPoints (<[Z.to_nat i := dbz]> values) (i + 1)
      else (values, i)
  end.

(** The [while] loop; [pos] grows by two every turn. *)
Fixpoint runLength_loop (fuel : nat) (dataBuffer : list byte) (numPoints : Z)
    (values : list jsnum) (i pos : Z) : list jsnum :=
  match fuel with
  | O => values
  | S fuel =>
      if (pos <? buffer_length dataBuffer - 1) && (i <? numPoints) then
        let value := JS.int_of (buffer_at dataBuffer pos) in
        let count := JS.int_of (buffer_at dataBuffer (pos + 1)) in
        let dbz := runLength_dbz value in
        let '(values, i) := runLength_fill (Z.to_nat count) dbz numPoints values i in
        runLength_loop fuel dataBuffer numPoints values i (pos + 2)
      else values
  end.

Definition unpackRunLength (dataBuffer : list byte) (numPoints : Z)
    : result (list jsnum) :=
  values ← Float32Array_new numPoints;
  let values := replicate (length values) (Num.of_Z (-999)) in
  Ok (runLength_loop (length dataBuffer) dataBuffer numPoints values 0 0).

(** ** Template 41: PNG packing

    The PNG decoder (sharp) is outside of the repository: it is a function
    from the data section to the raw pixel bytes and the number of
    channels, or nothing when decoding throws. *)

Record raw_image : Type := {
  data : list byte;
  channels : positive
}.

Definition unpackPngFallback (dataBuffer : list byte) (s5 : section5)
    (numPoints : Z) : result (list jsnum) :=
  values ← Float32Array_new numPoints;
  let headerSize := 8 in
  Ok (fold_left
        (fun values i =>
           let byteIndex := headerSize + Z.of_nat i in
           if byteIndex <? buffer_length dataBuffer
           then <[i := scale s5 (Num.of_undef (buffer_at dataBuffer byteIndex))]> values
           else <[i := Num.of_Z (-999)]> values)
        (seq 0 (length values)) values).

(** [data.length / channels] *)
Definition pixel_count (img : raw_image) : jsnum :=
  Num.div (Num.of_Z (buffer_length (data img))) (Num.of_Z (Zpos (channels img))).

(** The packed value of pixel [i]; [undefined <= 8] is false. *)
Definition png_packedValue (img : raw_image) (bitsPerValue : option Z) (i : Z)
    : option Z :=
  let channels := Zpos (channels img) in
  let le n := match bitsPerValue with Some b => b <=? n | None => false end in
  if le 8 then buffer_at (data img) (i * channels)
  else if le 16 && (channels >=? 2) then
    Some (JS.or (JS.shl (JS.int_of (buffer_at (data img) (i * channels))) 8)
                (JS.int_of (buffer_at (data img) (i * channels + 1))))
  else buffer_at (data img) (i * channels).

(** The value stored for a packed value. *)
Definition png_cell (s5 : section5) (packedValue : option Z) : jsnum :=
  let rawValue := scale s5 (Num.of_undef packedValue) in
  if Num.lt rawValue (Num.of_Z (-30)) || bool_decide (packedValue = Some 0)
  then Num.of_Z (-999)
  else rawValue.

(** The loop over the pixels, [i < numPoints && i < data.length / channels]. *)
Fixpoint png_loop (fuel : nat) (img : raw_image) (s5 : section5) (numPoints : Z)
    (values : list jsnum) (i : Z) : list jsnum :=
  match fuel with
  | O => values
  | S fuel =>
      if (i <? numPoints) && Num.lt (Num.of_Z i) (pixel_count img) then
        let cell := png_cell s5 (png_packedValue img (bitsPerValue s5) i) in
        png_loop fuel img s5 numPoints (<[Z.to_nat i := cell]> values) (i + 1)
      else values
  end.

(** The loop that marks the cells past the image as missing.  It starts at
    [data.length / channels]: when that is not an integer, none of its
    indices is an index of the array and the stores are ignored. *)
Definition png_rest (img : raw_image) (numPoints : Z) (values : list jsnum)
    : list jsnum :=
  let len := buffer_length (data img) in
  let channels := Zpos (channels img) in
  if Z.rem len channels =? 0 then
    let start := Z.to_nat (len / channels) in
    fold_left (fun values i => <[i := Num.of_Z (-999)]> values)
      (seq start (Z.to_nat numPoints - start)) values
  else values.

Definition unpackPng (sharp : list byte -> option raw_image)
    (dataBuffer : list byte) (s5 : section5) (numPoints : Z)
    : result (list jsnum) :=
  match sharp dataBuffer with
  | Some img =>
      match Float32Array_new numPoints with
      | Ok values =>
          let values := png_loop (Z.to_nat numPoints) img s5 numPoints values 0 in
          Ok (png_rest img numPoints values)
      | _ => (* the error is caught *) unpackPngFallback dataBuffer s5 numPoints
      end
  | None => unpackPngFallback dataBuffer s5 numPoints
  end.

(** ** Colour scale *)

Record rgba : Type := RGBA { red : jsnum; green : jsnum; blue : jsnum; alpha : jsnum }.

Record color_stop : Type := { dbz : jsnum; color : rgba }.

Definition stop (d r g b a : Z) : color_stop :=
  {| dbz := Num.of_Z d;
     color := RGBA (Num.of_Z r) (Num.of_Z g) (Num.of_Z b) (Num.of_Z a) |}.

Definition COLOR_SCALE : list color_stop := [
  stop (-30) 0 0 0 0;
  stop 0 0 0 0 0;
  stop 5 4 68 94 160;
  stop 10 0 160 180 200;
  stop 15 0 200 160 220;
  stop 20 0 230 0 240;
  stop 25 0 200 0 250;
  stop 30 0 144 0 255;
  stop 35 255 255 0 255;
  stop 40 255 192 0 255;
  stop 45 255 128 0 255;
  stop 50 255 0 0 255;
  stop 55 200 0 0 255;
  stop 60 255 0 200 255;
  stop 65 160 0 255 255;
  stop 70 255 255 255 255;
  stop 75 200 200 255 255
].

#[export] Instance color_stop_inhabited : Inhabited color_stop :=
  populate (stop 0 0 0 0 0).

(** The loop that looks for the two stops around [dbz], over the indices
    that are left; [found] holds [lower] and [upper]. *)
Fixpoint find_stops (scale : list color_stop) (d : jsnum) (indices : list nat)
    (found : color_stop * color_stop) : color_stop * color_stop :=
  match indices with
  | [] => found
  | i :: indices =>
      if Num.ge d (dbz (scale !!! i)) && Num.lt d (dbz (scale !!! S i))
      then (scale !!! i, scale !!! S i)
      else find_stops scale d indices found
  end.

(** [Math.round(lower + t * (upper - lower))] *)
Definition interpolate (t lower upper : jsnum) : jsnum :=
  Num.round (Num.add lower (Num.mul t (Num.sub upper lower))).

Definition getColorForDbz (d : jsnum) : rgba :=
  if Num.lt d (Num.of_Z (-900)) || Num.isNaN d then
    RGBA (Num.of_Z 0) (Num.of_Z 0) (Num.of_Z 0) (Num.of_Z 0)
  else
    let first := COLOR_SCALE !!! 0%nat in
    let last := COLOR_SCALE !!! (length COLOR_SCALE - 1)%nat in
    let '(lower, upper) :=
      find_stops COLOR_SCALE d (seq 0 (length COLOR_SCALE - 1)) (first, last) in
    if Num.lt d (dbz first) then color first
    else if Num.ge d (dbz last) then color last
    else
      let range := Num.sub (dbz upper) (dbz lower) in
      let t :=
        if Num.eqb range (Num.of_Z 0) then Num.of_Z 0
        else Num.div (Num.sub d (dbz lower)) range in
      RGBA (interpolate t (red (color lower)) (red (color upper)))
           (interpolate t (green (color lower)) (green (color upper)))
           (interpolate t (blue (color lower)) (blue (color upper)))
           (interpolate t (alpha (color lower)) (alpha (color upper))).

(** ** Raster renderer *)

(** The conversion of a store into a [Uint8Array]: the integer part modulo
    256, and 0 for an infinity or NaN. *)
Definition ToUint8 (a : jsnum) : Z :=
  match a with
  | Num x => Z.quot (Qnum x) (Zpos (Qden x)) mod 256
  | _ => 0
  end.

(** [values[k]] *)
Definition values_at (values : list jsnum) (k : Z) : option jsnum :=
  if k <? 0 then None else values !! Z.to_nat k.

(** [values[srcIdx] || -999] *)
Definition or_missing (v : option jsnum) : jsnum :=
  match v with
  | Some a => if Num.truthy a then a else Num.of_Z (-999)
  | None => Num.of_Z (-999)
  end.

(** [srcIdx] for the output pixel [(i, j)]. *)
Definition srcIdx (width height : Z) (scanningMode : option Z) (i j : Z) : Z :=
  let scanWestToEast := JS.and (JS.int_of scanningMode) 128 =? 0 in
  let scanNorthToSouth := JS.and (JS.int_of scanningMode) 64 =? 0 in
  let srcY := if scanNorthToSouth then j else height - 1 - j in
  let srcX := if scanWestToEast then i else width - 1 - i in
  srcY * width + srcX.

(** The body of the two loops: the four stores of pixel [(i, j)]. *)
Definition render_pixel (values : list jsnum) (width height : Z)
    (scanningMode : option Z) (j : nat) (pixels : list Z) (i : nat) : list Z :=
  let dstIdx := Z.to_nat ((Z.of_nat j * width + Z.of_nat i) * 4) in
  let d := or_missing (values_at values (srcIdx width height scanningMode (Z.of_nat i) (Z.of_nat j))) in
  let c := getColorForDbz d in
  <[(dstIdx + 3)%nat := ToUint8 (alpha c)]>
    (<[(dstIdx + 2)%nat := ToUint8 (blue c)]>
       (<[(dstIdx + 1)%nat := ToUint8 (green c)]>
          (<[dstIdx := ToUint8 (red c)]> pixels))).

Definition render_row (values : list jsnum) (width height : Z)
    (scanningMode : option Z) (pixels : list Z) (j : nat) : list Z :=
  fold_left (render_pixel values width height scanningMode j)
    (seq 0 (Z.to_nat width)) pixels.

(** The RGBA buffer that [renderRadarPng] hands to the PNG encoder. *)
Definition radar_pixels (values : list jsnum) (width height : Z)
    (scanningMode : option Z) : result (list Z) :=
  pixels ← Uint8Array_new (width * height * 4);
  Ok (fold_left (render_row values width height scanningMode)
        (seq 0 (Z.to_nat height)) pixels).

(** ** Sections of a message *)

(** [readFloat32]: the binary32 number in four bytes.  The [DataView] is
    taken over the buffer itself; a read outside of it throws. *)
Definition decode_binary32 (b0 b1 b2 b3 : Z) : jsnum :=
  let negative := b0 / 128 =? 1 in
  let exponent := (b0 mod 128) * 2 + b1 / 128 in
  let mantissa := ((b1 mod 128) * 256 + b2) * 256 + b3 in
  if exponent =? 255 then
    if mantissa =? 0 then Inf negative else NaN
  else
    let magnitude :=
      if exponent =? 0 then (inject_Z mantissa * Qpower 2 (-149))%Q
      else (inject_Z (2 ^ 23 + mantissa) * Qpower 2 (exponent - 150))%Q in
    Num (Qred (if negative then (- magnitude)%Q else magnitude)).

Definition readFloat32 (buffer : list byte) (offset : Z) : result jsnum :=
  if (offset <? 0) || (buffer_length buffer <? offset + 4) then Throw RangeError
  else
    let b k := JS.int_of (buffer_at buffer (offset + k)) in
    Ok (decode_binary32 (b 0) (b 1) (b 2) (b 3)).

Record section0 : Type := {
  discipline : option Z;
  edition : option Z;
  totalLength : Z
}.

Definition parseSection0 (buffer : list byte) : result section0 :=
  let magic := toString_ascii (buffer_slice buffer 0 4) in
  if negb (String.eqb magic "GRIB") then Throw InvalidFormat
  else
    let discipline := buffer_at buffer 6 in
    let edition := buffer_at buffer 7 in
    if negb (bool_decide (edition = Some 2)) then Throw (UnsupportedEdition edition)
    else
      (* [buffer.readBigUInt64BE(8)] *)
      if buffer_length buffer <? 16 then Throw RangeError
      else
        Ok {| discipline := discipline; edition := edition;
              totalLength := be_value (octets buffer 8 8) |}.

(** The arguments of [Date.UTC]; the date is invalid when one of them is
    [undefined]. *)
Record datetime : Type := {
  year : Z; month : Z; day : Z; hour : Z; minute : Z; second : Z
}.

Record section1 : Type := {
  s1_length : Z;
  centerId : Z;
  subCenterId : Z;
  timestamp : option datetime
}.

Definition parseSection1 (buffer : list byte) (offset : Z) : result section1 :=
  let length := readUint buffer offset 4 in
  let sectionNum := buffer_at buffer (offset + 4) in
  if negb (bool_decide (sectionNum = Some 1)) then Throw (ExpectedSection 1 sectionNum)
  else
    let centerId := readUint buffer (offset + 5) 2 in
    let subCenterId := readUint buffer (offset + 7) 2 in
    let year := readUint buffer (offset + 12) 2 in
    let timestamp :=
      month ← buffer_at buffer (offset + 14);
      day ← buffer_at buffer (offset + 15);
      hour ← buffer_at buffer (offset + 16);
      minute ← buffer_at buffer (offset + 17);
      second ← buffer_at buffer (offset + 18);
      Some {| year := year; month := month - 1; day := day; hour := hour;
              minute := minute; second := second |} in
    Ok {| s1_length := length; centerId := centerId; subCenterId := subCenterId;
          timestamp := timestamp |}.

Record bounds : Type := {
  west : jsnum; east : jsnum; south : jsnum; north : jsnum
}.

(** The grid description; the fields that a template does not set are
    [undefined]. *)
Record gridInfo : Type := {
  numPoints : Z;
  templateNum : Z;
  width : option Z;
  height : option Z;
  lat1 : option jsnum;
  lon1 : option jsnum;
  lat2 : option jsnum;
  lon2 : option jsnum;
  dx : option jsnum;
  dy : option jsnum;
  scanningMode : option Z;
  grid_bounds : option bounds
}.

(** [Math.min] and [Math.max] of two numbers. *)
Definition Math_min (a b : jsnum) : jsnum :=
  if Num.isNaN a || Num.isNaN b then NaN else if Num.lt b a then b else a.

Definition Math_max (a b : jsnum) : jsnum :=
  if Num.isNaN a || Num.isNaN b then NaN else if Num.lt a b then b else a.

(** [if (lon > 180) lon -= 360] *)
Definition normalize_lon (lon : jsnum) : jsnum :=
  if Num.gt lon (Num.of_Z 180) then Num.sub lon (Num.of_Z 360) else lon.

Definition angleDivisor (basicAngle subdivisions : Z) : Z :=
  if (basicAngle =? 0) || (subdivisions =? 0) then 1000000
  else basicAngle * subdivisions.

Definition parseGridTemplate0 (buffer : list byte) (offset : Z) (numPoints : Z)
    : gridInfo :=
  let nx := readUint buffer (offset + 16) 4 in
  let ny := readUint buffer (offset + 20) 4 in
  let basicAngle := readUint buffer (offset + 24) 4 in
  let subdivisions := readUint buffer (offset + 28) 4 in
  let angleDivisor := Num.of_Z (angleDivisor basicAngle subdivisions) in
  let lat1 := Num.div (Num.of_Z (readInt buffer (offset + 32) 4)) angleDivisor in
  let lon1 := Num.div (Num.of_Z (readInt buffer (offset + 36) 4)) angleDivisor in
  let lat2 := Num.div (Num.of_Z (readInt buffer (offset + 41) 4)) angleDivisor in
  let lon2 := Num.div (Num.of_Z (readInt buffer (offset + 45) 4)) angleDivisor in
  let dx := Num.div (Num.of_Z (readUint buffer (offset + 49) 4)) angleDivisor in
  let dy := Num.div (Num.of_Z (readUint buffer (offset + 53) 4)) angleDivisor in
  let scanningMode := buffer_at buffer (offset + 57) in
  let lon1 := normalize_lon lon1 in
  let lon2 := normalize_lon lon2 in
  {| numPoints := numPoints;
     templateNum := 0;
     width := Some nx;
     height := Some ny;
     lat1 := Some lat1; lon1 := Some lon1;
     lat2 := Some lat2; lon2 := Some lon2;
     dx := Some dx; dy := Some dy;
     scanningMode := scanningMode;
     grid_bounds := Some {| west := Math_min lon1 lon2;
                            east := Math_max lon1 lon2;
                            south := Math_min lat1 lat2;
                            north := Math_max lat1 lat2 |} |}.

Definition parseGridTemplate30 (buffer : list byte) (offset : Z) (numPoints : Z)
    : gridInfo :=
  let nx := readUint buffer (offset + 16) 4 in
  let ny := readUint buffer (offset + 20) 4 in
  let lat1 := Num.div (Num.of_Z (readInt buffer (offset + 24) 4)) (Num.of_Z 1000000) in
  let lon1 := Num.div (Num.of_Z (readInt buffer (offset + 28) 4)) (Num.of_Z 1000000) in
  let lon1 := normalize_lon lon1 in
  {| numPoints := numPoints;
     templateNum := 30;
     width := Some nx;
     height := Some ny;
     lat1 := Some lat1; lon1 := Some lon1;
     lat2 := None; lon2 := None; dx := None; dy := None;
     scanningMode := None;
     grid_bounds := Some {| west := Num.of_Z (-130); east := Num.of_Z (-60);
                            south := Num.of_Z 20; north := Num.of_Z 55 |} |}.

Record section3 : Type := {
  s3_length : Z;
  grid : gridInfo
}.

Definition parseSection3 (buffer : list byte) (offset : Z) : result section3 :=
  let length := readUint buffer offset 4 in
  let sectionNum := buffer_at buffer (offset + 4) in
  if negb (bool_decide (sectionNum = Some 3)) then Throw (ExpectedSection 3 sectionNum)
  else
    let numPoints := readUint buffer (offset + 6) 4 in
    let templateNum := readUint buffer (offset + 12) 2 in
    let gridInfo :=
      if templateNum =? 0 then parseGridTemplate0 buffer (offset + 14) numPoints
      else if templateNum =? 30 then parseGridTemplate30 buffer (offset + 14) numPoints
      else {| numPoints := numPoints; templateNum := templateNum;
              width := None; height := None; lat1 := None; lon1 := None;
              lat2 := None; lon2 := None; dx := None; dy := None;
              scanningMode := None; grid_bounds := None |} in
    Ok {| s3_length := length; grid := gridInfo |}.

Definition parseSection5 (buffer : list byte) (offset : Z) : result section5 :=
  let length := readUint buffer offset 4 in
  let sectionNum := buffer_at buffer (offset + 4) in
  if negb (bool_decide (sectionNum = Some 5)) then Throw (ExpectedSection 5 sectionNum)
  else
    let numDataPoints := readUint buffer (offset + 5) 4 in
    let templateNum := readUint buffer (offset + 9) 2 in
    if (templateNum =? 0) || (templateNum =? 40) || (templateNum =? 41) then
      referenceValue ← readFloat32 buffer (offset + 11);
      Ok {| s5_length := length; numDataPoints := numDataPoints;
            s5_templateNum := templateNum;
            referenceValue := Some referenceValue;
            binaryScaleFactor := Some (readInt buffer (offset + 15) 2);
            decimalScaleFactor := Some (readInt buffer (offset + 17) 2);
            bitsPerValue := buffer_at buffer (offset + 19) |}
    else
      Ok {| s5_length := length; numDataPoints := numDataPoints;
            s5_templateNum := templateNum;
            referenceValue := None; binaryScaleFactor := None;
            decimalScaleFactor := None; bitsPerValue := None |}.

Record section7 : Type := {
  s7_length : Z;
  s7_values : list jsnum
}.

Definition parseSection7 (sharp : list byte -> option raw_image)
    (buffer : list byte) (offset : Z) (s5 : section5) (gridInfo : gridInfo)
    : result section7 :=
  let length := readUint buffer offset 4 in
  let sectionNum := buffer_at buffer (offset + 4) in
  if negb (bool_decide (sectionNum = Some 7)) then Throw (ExpectedSection 7 sectionNum)
  else
    let dataOffset := offset + 5 in
    let dataLength := length - 5 in
    let dataBuffer := buffer_slice buffer dataOffset (dataOffset + dataLength) in
    values ←
      (if s5_templateNum s5 =? 0 then unpackSimple dataBuffer s5 (numPoints gridInfo)
       else if s5_templateNum s5 =? 40 then
         unpackJpeg2000Fallback dataBuffer s5 (numPoints gridInfo)
       else if s5_templateNum s5 =? 41 then
         unpackPng sharp dataBuffer s5 (numPoints gridInfo)
       else if s5_templateNum s5 =? 200 then unpackRunLength dataBuffer (numPoints gridInfo)
       else Throw (UnsupportedPacking (s5_templateNum s5)));
    Ok {| s7_length := length; s7_values := values |}.

(** [findSection]: the scan for a section number.  The result is the
    offset of the section, or -1.  The offset moves by the length that is
    read, which the input chooses: the loop runs on fuel. *)
Fixpoint findSection (fuel : nat) (buffer : list byte) (offset : Z)
    (sectionNum : Z) : result Z :=
  match fuel with
  | O => OutOfFuel
  | S fuel =>
      if offset <? buffer_length buffer - 4 then
        let length := readUint buffer offset 4 in
        let section := buffer_at buffer (offset + 4) in
        if bool_decide (section = Some sectionNum) then Ok offset
        else if (length =? 0) || bool_decide (section = Some 8)
                || (match section with Some s => s >? 8 | None => false end)
        then Ok (-1)
        else findSection fuel buffer (offset + length) sectionNum
      else Ok (-1)
  end.

(** ** The parser *)

Record radarData : Type := {
  rd_timestamp : datetime;
  rd_width : option Z;
  rd_height : option Z;
  rd_bounds : option bounds;
  rd_scanningMode : option Z;
  rd_values : list jsnum
}.

Definition parseGrib2 (fuel : nat) (sharp : list byte -> option raw_image)
    (buffer : list byte) : result radarData :=
  section0 ← parseSection0 buffer;
  let offset := 16 in
  section1 ← parseSection1 buffer offset;
  (* [section1.timestamp.toISOString()] throws on an invalid date *)
  timestamp ← (match timestamp section1 with
               | Some t => Ok t
               | None => Throw RangeError
               end);
  let offset := offset + s1_length section1 in
  let offset :=
    if bool_decide (buffer_at buffer (offset + 4) = Some 2)
    then offset + readUint buffer offset 4
    else offset in
  section3Offset ← findSection fuel buffer offset 3;
  if section3Offset =? -1 then Throw (MissingSection 3)
  else
    section3 ← parseSection3 buffer section3Offset;
    section5Offset ← findSection fuel buffer (section3Offset + s3_length section3) 5;
    if section5Offset =? -1 then Throw (MissingSection 5)
    else
      section5 ← parseSection5 buffer section5Offset;
      section7Offset ← findSection fuel buffer (section5Offset + s5_length section5) 7;
      if section7Offset =? -1 then Throw (MissingSection 7)
      else
        section7 ← parseSection7 sharp buffer section7Offset section5 (grid section3);
        Ok {| rd_timestamp := timestamp;
              rd_width := width (grid section3);
              rd_height := height (grid section3);
              rd_bounds := grid_bounds (grid section3);
              rd_scanningMode := scanningMode (grid section3);
              rd_values := s7_values section7 |}.

(** ** Rendering and the pipeline *)

(** The PNG encoder (sharp) is outside of the repository: a function of
    the raw pixels and of the dimensions it is given. *)
Definition png_encoder : Type := list Z -> option Z -> option Z -> result (list byte).

Definition renderRadarPng (encode : png_encoder) (radarData : radarData)
    : result (list byte) :=
  (* an [undefined] dimension makes the length NaN, which gives an empty
     array, and makes the loop over it run no turn *)
  let w := default 0 (rd_width radarData) in
  let h := default 0 (rd_height radarData) in
  pixels ← radar_pixels (rd_values radarData) w h (rd_scanningMode radarData);
  encode pixels (rd_width radarData) (rd_height radarData).

Record metadata : Type := {
  md_timestamp : datetime;
  md_bounds : option bounds;
  md_width : option Z;
  md_height : option Z
}.

(** [getRadarData] once the upstream file is fetched. *)
Definition getRadarData (fuel : nat) (sharp : list byte -> option raw_image)
    (encode : png_encoder) (gribBuffer : list byte)
    : result (list byte * metadata) :=
  parsedData ← parseGrib2 fuel sharp gribBuffer;
  pngBuffer ← renderRadarPng encode parsedData;
  Ok (pngBuffer,
      {| md_timestamp := rd_timestamp parsedData;
         md_bounds := rd_bounds parsedData;
         md_width := rd_width parsedData;
         md_height := rd_height parsedData |}).

(** ** Reference decoding of the run-length packing

    This follows the words of the specification: the buffer is a sequence
    of (value, count) pairs, a pair stands for [count] copies of its dBZ,
    and the field is filled from the left, what is not reached staying
    missing. *)

Fixpoint runLength_pairs (dataBuffer : list byte) : list (Z * Z) :=
  match dataBuffer with
  | value :: count :: rest => (byte_val value, byte_val count) :: runLength_pairs rest
  | _ => []
  end.

Definition runLength_expand (dataBuffer : list byte) : list jsnum :=
  flat_map (fun '(value, count) => replicate (Z.to_nat count) (runLength_dbz value))
    (runLength_pairs dataBuffer).

Definition runLength_field (dataBuffer : list byte) (numPoints : nat) : list jsnum :=
  take numPoints
    (runLength_expand dataBuffer ++ replicate numPoints (Num.of_Z (-999))).

(** ** Reference interpolation between two stops

    This follows the words of the specification: every channel is
    interpolated linearly between the two stops and rounded to the
    nearest integer. *)

Definition channel_interpolate (lo hi : color_stop) (d : jsnum)
    (channel : rgba -> jsnum) : jsnum :=
  let t := Num.div (Num.sub d (dbz lo)) (Num.sub (dbz hi) (dbz lo)) in
  Num.round
    (Num.add (channel (color lo))
       (Num.mul t (Num.sub (channel (color hi)) (channel (color lo))))).

Definition stop_interpolate (lo hi : color_stop) (d : jsnum) : rgba :=
  RGBA (channel_interpolate lo hi d red) (channel_interpolate lo hi d green)
       (channel_interpolate lo hi d blue) (channel_interpolate lo hi d alpha).

Definition transparent : rgba :=
  RGBA (Num.of_Z 0) (Num.of_Z 0) (Num.of_Z 0) (Num.of_Z 0).

(** The four bytes stored for a pixel whose source cell reads [v]. *)
Definition cell_pixel (v : option jsnum) : list Z :=
  let c := getColorForDbz (or_missing v) in
  [ToUint8 (red c); ToUint8 (green c); ToUint8 (blue c); ToUint8 (alpha c)].

(** ** Reference reading of a bit field

    This follows the words of the specification: the bits of the data
    section are numbered from the most significant bit of its first byte,
    and the field of [bit_width] bits at [bit_offset] is the unsigned
    integer that they spell, most significant bit first. *)

Definition bit_field (dataBuffer : list byte) (bit_offset bit_width : Z) : Z :=
  let total := 8 * buffer_length dataBuffer in
  (be_value (map byte_val dataBuffer) / 2 ^ (total - bit_offset - bit_width))
    mod 2 ^ bit_width.

(** The test of the loop of [getColorForDbz] at index [j]. *)
Definition stop_test (scale : list color_stop) (d : jsnum) (j : nat) : bool :=
  Num.ge d (dbz (scale !!! j)) && Num.lt d (dbz (scale !!! S j)).

(** ** Fixtures *)

(** Packing parameters with R = 0, E = 0, D = 0 and the given width. *)
Definition packing_unit (templateNum bits : Z) : section5 :=
  {| s5_length := 21; numDataPoints := 0; s5_templateNum := templateNum;
     referenceValue := Some (Num.of_Z 0);
     binaryScaleFactor := Some 0; decimalScaleFactor := Some 0;
     bitsPerValue := Some bits |}.

(** A decoder that reads every data section as the 2x1 grayscale image
    with the pixels 100 and 200. *)
Definition sharp_gray_100_200 : list byte -> option raw_image :=
  fun _ => Some {| data := [x64; xc8]; channels := 1 |}.

(** The sections of a message with a 1x1 grid at (40, 260), simple
    packing with R = 0, E = 0, D = 0 and 8 bits, and the data byte 30. *)
Definition message_section0 : list byte :=
  [x47; x52; x49; x42; x00; x00; x00; x02;
   x00; x00; x00; x00; x00; x00; x00; x00].

Definition message_section1 : list byte :=
  [x00; x00; x00; x15; x01; x00; x07; x00; x00; x02; x01; x01;
   x07; xe8; x01; x0f; x12; x2a; x00; x00; x00].

Definition message_section3 : list byte :=
  [x00; x00; x00; x48; x03; x00; x00; x00; x00; x01; x00; x00; x00; x00]
  ++ [x06] ++ replicate 15 x00
  ++ [x00; x00; x00; x01; x00; x00; x00; x01]
  ++ replicate 8 x00
  ++ [x02; x62; x5a; x00; x0f; x7f; x49; x00; x30;
      x02; x62; x5a; x00; x0f; x7f; x49; x00;
      x00; x00; x27; x10; x00; x00; x27; x10; x00].

Definition message_section5 : list byte :=
  [x00; x00; x00; x15; x05; x00; x00; x00; x01; x00; x00;
   x00; x00; x00; x00; x00; x00; x00; x00; x08; x00].

Definition message_section7 : list byte := [x00; x00; x00; x06; x07; x1e].

Definition message_section8 : list byte := [x37; x37; x37; x37].

(** The whole message. *)
Definition message_1x1 : list byte :=
  message_section0 ++ message_section1 ++ message_section3
  ++ message_section5 ++ message_section7 ++ message_section8.

(** The message without its section 3. *)
Definition message_without_section3 : list byte :=
  message_section0 ++ message_section1 ++ message_section5
  ++ message_section7 ++ message_section8.

(** The whole message, its first byte with the top bit set: C7 52 49 42 is
    not "GRIB". *)
Definition message_top_bit_magic : list byte :=
  [xc7; x52; x49; x42] ++ drop 4 message_section0 ++ message_section1
  ++ message_section3 ++ message_section5 ++ message_section7
  ++ message_section8.

(** A decoder that fails and an encoder that returns no byte: neither is
    reached by a message with simple packing, or by one that is refused. *)
Definition sharp_fails : list byte -> option raw_image := fun _ => None.

Definition encode_nothing : png_encoder := fun _ _ _ => Ok [].

(** A header whose first longitude is 600 degrees (bytes 23 C3 46 00 in
    microdegrees): the eastern bound is 240, above 180. *)
Definition header_lon_600 : list byte :=
  replicate 36 x00 ++ [x23; xc3; x46; x00] ++ replicate 18 x00.

(** ** Invariants and predicates of the proofs *)

(** The state of the bit loop while it reads the field of [bits] bits at
    [off]: what it has read is the field of the bits read so far. *)
Definition bits_inv (dataBuffer : list byte) (off bits : Z) (s : bit_state) : Prop :=
  0 <= bitsRemaining s <= bits /\
  0 <= currentBitPos s < 8 /\
  0 <= currentByte s /\
  8 * currentByte s + currentBitPos s = off + (bits - bitsRemaining s) /\
  packedValue s = bit_field dataBuffer off (bits - bitsRemaining s).

(** A colour channel that is a byte. *)
Definition is_byte (a : jsnum) : Prop :=
  exists z, a = Num.of_Z z /\ 0 <= z <= 255.

Definition byte_color (c : rgba) : Prop :=
  is_byte (red c) /\ is_byte (green c) /\ is_byte (blue c) /\ is_byte (alpha c).

(** The errors that a stage after section 0 can raise. *)
Definition later_error (e : error) : Prop :=
  match e with
  | InvalidFormat | UnsupportedEdition _ => False
  | _ => True
  end.

(** A result that is not a [throw] of one of the two errors of section 0. *)
Definition throws_later {A} (r : result A) : Prop :=
  forall e, r = Throw e -> later_error e.

(** The magic that [parseSection0] accepts. *)
Definition magic_accepted (buffer : list byte) : Prop :=
  toString_ascii (buffer_slice buffer 0 4) = "GRIB"%string.

(** Where the scan for section 3 starts: after section 1, and after a
    section 2 when one follows. *)
Definition scan_start (buffer : list byte) (s1 : section1) : Z :=
  let offset := 16 + s1_length s1 in
  if bool_decide (buffer_at buffer (offset + 4) = Some 2)
  then offset + readUint buffer offset 4
  else offset.

(** ** Layout of sections

    The sections that a forward scan walks: section [num] of length [len]
    stands at [offset], inside the part of the buffer that the scan reads,
    and the next one stands [len] bytes further. *)
Fixpoint sections_at (buffer : list byte) (offset : Z) (sections : list (Z * Z))
    : Prop :=
  match sections with
  | [] => True
  | (num, len) :: rest =>
      offset < buffer_length buffer - 4 /\
      readUint buffer offset 4 = len /\
      buffer_at buffer (offset + 4) = Some num /\
      sections_at buffer (offset + len) rest
  end.

(** The sum of the lengths of sections. *)
Definition sections_length (sections : list (Z * Z)) : Z :=
  fold_right (fun s acc => snd s + acc) 0 sections.

(** A section that the scan for [sectionNum] steps over. *)
Definition stepped_over (sectionNum : Z) (s : Z * Z) : Prop :=
  fst s <> sectionNum /\ fst s < 8 /\ snd s <> 0.

(** A message whose sections 0 and 1 are followed by two sections of
    number 4 that lead to each other: the first has the length 6, the
    second the length -6 (FF FF FF FA read by [readUint]). *)
Definition message_with_cycle : list byte :=
  message_section0 ++ message_section1
  ++ [x00; x00; x00; x06; x04; x00]
  ++ [xff; xff; xff; xfa; x04; x00].

(** ** Outcomes of a parse *)

(** The packing templates that [parseSection7] decodes. *)
Definition supported_packing (templateNum : Z) : bool :=
  (templateNum =? 0) || (templateNum =? 40) || (templateNum =? 41)
  || (templateNum =? 200).

(** What an unpacker returns for [n] data points: a field of [n] cells,
    or a RangeError when [n] is negative. *)
Definition sized (n : Z) (r : result (list jsnum)) : Prop :=
  if n <? 0 then r = Throw RangeError
  else exists values, r = Ok values /\ length values = Z.to_nat n.

(** The errors that [parseGrib2] raises, each with what the message is
    like when it is raised. *)
Definition parse_error_cause (buffer : list byte) (e : error) : Prop :=
  match e with
  | InvalidFormat => ~ magic_accepted buffer
  | UnsupportedEdition edition =>
      edition = buffer_at buffer 7 /\ edition <> Some 2
  | ExpectedSection expected got =>
      expected = 1 /\ got = buffer_at buffer 20 /\ got <> Some 1
  | MissingSection n => n = 3 \/ n = 5 \/ n = 7
  | UnsupportedPacking templateNum => supported_packing templateNum = false
  | RangeError =>
      buffer_length buffer < 35 \/
      (exists o5, buffer_at buffer (o5 + 4) = Some 5 /\
                  buffer_length buffer < o5 + 15) \/
      (exists o3, buffer_at buffer (o3 + 4) = Some 3 /\
                  readUint buffer (o3 + 6) 4 < 0)
  end.

(** The course of a parse: it ends with an error and its cause, or it does
    not end, or every stage returns. *)
Inductive parse_course (sharp : list byte -> option raw_image)
    (buffer : list byte) : result radarData -> Prop :=
  | course_error e :
      parse_error_cause buffer e -> parse_course sharp buffer (Throw e)
  | course_fuel : parse_course sharp buffer OutOfFuel
  | course_done s1 t o3 s3 o5 s5 o7 s7 :
      magic_accepted buffer ->
      buffer_at buffer 7 = Some 2 ->
      35 <= buffer_length buffer ->
      parseSection1 buffer 16 = Ok s1 -> timestamp s1 = Some t ->
      buffer_at buffer (o3 + 4) = Some 3 -> parseSection3 buffer o3 = Ok s3 ->
      buffer_at buffer (o5 + 4) = Some 5 -> parseSection5 buffer o5 = Ok s5 ->
      buffer_at buffer (o7 + 4) = Some 7 ->
      parseSection7 sharp buffer o7 s5 (grid s3) = Ok s7 ->
      parse_course sharp buffer
        (Ok {| rd_timestamp := t;
               rd_width := width (grid s3);
               rd_height := height (grid s3);
               rd_bounds := grid_bounds (grid s3);
               rd_scanningMode := scanningMode (grid s3);
               rd_values := s7_values s7 |}).

(** ** More fixtures and predicates *)

(** A decoder that reads every data section as the 2x1 image of two
    channels with the pixels (1, 2) and (0, 0). *)
Definition sharp_two_channels : list byte -> option raw_image :=
  fun _ => Some {| data := [x01; x02; x00; x00]; channels := 2 |}.

(** A finite number between two bounds. *)
Definition between (lo hi : Q) (v : jsnum) : Prop :=
  exists q, v = Num q /\ (lo <= q <= hi)%Q.

(** A state with [d] more bits to read. *)
Definition more_bits (d : Z) (s : bit_state) : bit_state :=
  {| packedValue := packedValue s; bitsRemaining := bitsRemaining s + d;
     currentByte := currentByte s; currentBitPos := currentBitPos s |}.

(** ** The legend

    [renderLegend] paints a strip of 30 by 256 pixels: row [y] has the
    colour of the level [minDbz + (1 - y / legendHeight) * (maxDbz - minDbz)],
    at full opacity. *)

Definition legendWidth : Z := 30.
Definition legendHeight : Z := 256.
Definition minDbz : Z := 5.
Definition maxDbz : Z := 75.

(** [dbz] for the row [y]. *)
Definition legend_dbz (y : Z) : jsnum :=
  Num.add (Num.of_Z minDbz)
    (Num.mul
       (Num.sub (Num.of_Z 1) (Num.div (Num.of_Z y) (Num.of_Z legendHeight)))
       (Num.sub (Num.of_Z maxDbz) (Num.of_Z minDbz))).

(** The body of the inner loop: the four stores of pixel [(x, y)]. *)
Definition legend_pixel (y : nat) (color : rgba) (pixels : list Z) (x : nat) : list Z :=
  let idx := Z.to_nat ((Z.of_nat y * legendWidth + Z.of_nat x) * 4) in
  <[(idx + 3)%nat := ToUint8 (Num.of_Z 255)]>
    (<[(idx + 2)%nat := ToUint8 (blue color)]>
       (<[(idx + 1)%nat := ToUint8 (green color)]>
          (<[idx := ToUint8 (red color)]> pixels))).

(** The body of the outer loop. *)
Definition legend_row (pixels : list Z) (y : nat) : list Z :=
  let color := getColorForDbz (legend_dbz (Z.of_nat y)) in
  fold_left (legend_pixel y color) (seq 0 (Z.to_nat legendWidth)) pixels.

(** The RGBA buffer that [renderLegend] hands to the PNG encoder. *)
Definition legend_pixels : result (list Z) :=
  pixels ← Uint8Array_new (legendWidth * legendHeight * 4);
  Ok (fold_left legend_row (seq 0 (Z.to_nat legendHeight)) pixels).

Definition renderLegend (encode : png_encoder) : result (list byte) :=
  pixels ← legend_pixels;
  encode pixels (Some legendWidth) (Some legendHeight).

(** The four bytes of a pixel of the legend whose row has the colour
    [color]. *)
Definition legend_cell (color : rgba) : list Z :=
  [ToUint8 (red color); ToUint8 (green color); ToUint8 (blue color); 255].

(** ** The server

    The server keeps the last image for one minute.  The state is the
    cache; the clock ([Date.now()]), the reply of the upstream server and
    [gunzipSync] are given from outside.  A request is modelled from its
    start to its end, with no other request running in between. *)

Module Server.

(** What the upstream server gives to [fetch]. *)
Inductive upstream : Type :=
  | Rejected
      (* [fetch], or the reading of the body, rejects *)
  | Response (ok : bool) (status : Z) (statusText : string) (body : list byte).

Inductive failure : Type :=
  | FetchRejected
  | FetchFailed (status : Z) (statusText : string)
      (* "Failed to fetch MRMS data: status statusText" *)
  | GunzipFailed
      (* [gunzipSync] throws *)
  | PipelineFailed (e : error).
      (* [parseGrib2] or [renderRadarPng] throws *)

(** The end of an asynchronous call: it returns, it throws, or it does not
    end. *)
Inductive outcome (A : Type) : Type :=
  | Returned (a : A)
  | Thrown (f : failure)
  | Pending.
Arguments Returned {A} a.
Arguments Thrown {A} f.
Arguments Pending {A}.

(** [fetchLatestRadarData] *)
Definition fetchLatestRadarData (reply : upstream)
    (gunzipSync : list byte -> option (list byte)) : outcome (list byte) :=
  match reply with
  | Rejected => Thrown FetchRejected
  | Response ok status statusText body =>
      if negb ok then Thrown (FetchFailed status statusText)
      else
        match gunzipSync body with
        | Some decompressedBuffer => Returned decompressedBuffer
        | None => Thrown GunzipFailed
        end
  end.

(** [radarCache]; [null] is [None]. *)
Record radarCache : Type := {
  image : option (list byte);
  cached_metadata : option metadata;
  cached_timestamp : option datetime;
  fetchedAt : option Z
}.

Definition empty_cache : radarCache :=
  {| image := None; cached_metadata := None; cached_timestamp := None;
     fetchedAt := None |}.

Definition CACHE_DURATION : Z := 60 * 1000.

(** [isCacheValid] at the time [now]; [!radarCache.fetchedAt] holds for
    [null] and for 0. *)
Definition isCacheValid (now : Z) (cache : radarCache) : bool :=
  match fetchedAt cache with
  | None => false
  | Some t => if t =? 0 then false else now - t <? CACHE_DURATION
  end.

(** What a call of [getRadarData] gets from outside: the clock when the
    cache is checked and when it is filled, and the reply of the upstream
    server. *)
Record world : Type := {
  now_check : Z;
  now_store : Z;
  reply : upstream
}.

(** [getRadarData]: the result and the cache after the call. *)
Definition getRadarData (fuel : nat) (sharp : list byte -> option raw_image)
    (encode : png_encoder) (gunzipSync : list byte -> option (list byte))
    (w : world) (cache : radarCache) : outcome radarCache * radarCache :=
  if isCacheValid (now_check w) cache && bool_decide (is_Some (image cache))
  then (Returned cache, cache)
  else
    match fetchLatestRadarData (reply w) gunzipSync with
    | Returned gribBuffer =>
        match parseGrib2 fuel sharp gribBuffer with
        | Ok parsedData =>
            match renderRadarPng encode parsedData with
            | Ok pngBuffer =>
                let cache' :=
                  {| image := Some pngBuffer;
                     cached_metadata :=
                       Some {| md_timestamp := rd_timestamp parsedData;
                               md_bounds := rd_bounds parsedData;
                               md_width := rd_width parsedData;
                               md_height := rd_height parsedData |};
                     cached_timestamp := Some (rd_timestamp parsedData);
                     fetchedAt := Some (now_store w) |} in
                (Returned cache', cache')
            | Throw e => (Thrown (PipelineFailed e), cache)
            | OutOfFuel => (Pending, cache)
            end
        | Throw e => (Thrown (PipelineFailed e), cache)
        | OutOfFuel => (Pending, cache)
        end
    | Thrown f => (Thrown f, cache)
    | Pending => (Pending, cache)
    end.

(** What a handler sends. *)
Inductive http_reply : Type :=
  | SendImage (image : list byte)
      (* 200, Content-Type: image/png, Cache-Control: public, max-age=60 *)
  | SendMetadata (metadata : metadata)
      (* 200, the metadata as JSON *)
  | SendError (status : Z) (error : string)
  | NoReply.

(** GET /api/radar/latest *)
Definition get_latest (fuel : nat) (sharp : list byte -> option raw_image)
    (encode : png_encoder) (gunzipSync : list byte -> option (list byte))
    (w : world) (cache : radarCache) : http_reply * radarCache :=
  match getRadarData fuel sharp encode gunzipSync w cache with
  | (Returned data, cache') =>
      match image data with
      | None => (SendError 503 "Radar data not available", cache')
      | Some pngBuffer => (SendImage pngBuffer, cache')
      end
  | (Thrown _, cache') => (SendError 500 "Failed to fetch radar data", cache')
  | (Pending, cache') => (NoReply, cache')
  end.

(** GET /api/radar/metadata *)
Definition get_metadata (fuel : nat) (sharp : list byte -> option raw_image)
    (encode : png_encoder) (gunzipSync : list byte -> option (list byte))
    (w : world) (cache : radarCache) : http_reply * radarCache :=
  match getRadarData fuel sharp encode gunzipSync w cache with
  | (Returned data, cache') =>
      match cached_metadata data with
      | None => (SendError 503 "Radar data not available", cache')
      | Some m => (SendMetadata m, cache')
      end
  | (Thrown _, cache') => (SendError 500 "Failed to fetch radar metadata", cache')
  | (Pending, cache') => (NoReply, cache')
  end.

(** A cache that [getRadarData] has filled, or the empty cache. *)
Definition filled_or_empty (cache : radarCache) : Prop :=
  cache = empty_cache \/
  exists pngBuffer m t,
    cache = {| image := Some pngBuffer; cached_metadata := Some m;
               cached_timestamp := Some (md_timestamp m);
               fetchedAt := Some t |}.

End Server.

(** The upstream server answers with the 1x1 message, and [gunzipSync]
    takes a body as it is. *)
Definition upstream_1x1 : Server.upstream :=
  Server.Response true 200 "OK" message_1x1.

Definition gunzip_stored : list byte -> option (list byte) := Some.

(** A cache filled ten minutes before the time 700000. *)
Definition stale_cache : Server.radarCache :=
  {| Server.image := Some [x89];
     Server.cached_metadata :=
       Some {| md_timestamp := {| year := 2024; month := 0; day := 15; hour := 18;
                                  minute := 42; second := 0 |};
               md_bounds := None; md_width := Some 1; md_height := Some 1 |};
     Server.cached_timestamp :=
       Some {| year := 2024; month := 0; day := 15; hour := 18;
               minute := 42; second := 0 |};
     Server.fetchedAt := Some 100000 |}.

(** * Properties *)

(** ** Integer operators *)

Lemma byte_val_range b : 0 <= byte_val b < 256.
Proof.
  unfold byte_val. pose proof (Byte.to_N_bounded b). lia.
Qed.

(** Linear arithmetic with [mod] and [/] by constants. *)
Ltac zdiv :=
  change (2 ^ 31) with 2147483648 in *;
  change (2 ^ 32) with 4294967296 in *;
  Z.to_euclidean_division_equations; lia.

Lemma ToInt32_range x : - 2 ^ 31 <= JS.ToInt32 x < 2 ^ 31.
Proof. unfold JS.ToInt32. zdiv. Qed.

Lemma ToInt32_small x : - 2 ^ 31 <= x < 2 ^ 31 -> JS.ToInt32 x = x.
Proof. unfold JS.ToInt32. zdiv. Qed.

Lemma ToInt32_unique x r :
  - 2 ^ 31 <= r < 2 ^ 31 -> (x - r) mod 2 ^ 32 = 0 -> JS.ToInt32 x = r.
Proof. unfold JS.ToInt32. zdiv. Qed.

Lemma ToInt32_congr x : (x - JS.ToInt32 x) mod 2 ^ 32 = 0.
Proof. unfold JS.ToInt32. zdiv. Qed.

Lemma ToInt32_idem x : JS.ToInt32 (JS.ToInt32 x) = JS.ToInt32 x.
Proof. apply ToInt32_small, ToInt32_range. Qed.

Lemma lor_low_byte w b :
  w mod 256 = 0 -> 0 <= b < 256 -> Z.lor w b = w + b.
Proof.
  intros Hw Hb. rewrite <- (Z.add_lor_land w b).
  assert (Z.land w b = 0) as ->; [|lia].
  replace b with (b mod 2 ^ 8) by (apply Z.mod_small; lia).
  replace w with ((w / 256) * 2 ^ 8) by zdiv.
  Z.bitblast. rewrite Z.mul_pow2_bits_low by lia. reflexivity.
Qed.

Lemma or_shl_byte V b :
  0 <= b < 256 -> JS.or (JS.shl (JS.ToInt32 V) 8) b = JS.ToInt32 (V * 256 + b).
Proof.
  intros Hb. unfold JS.or, JS.shl.
  rewrite !ToInt32_idem, (ToInt32_small b) by lia.
  change (8 mod 32) with 8. rewrite Z.shiftl_mul_pow2 by lia.
  change (2 ^ 8) with 256.
  pose proof (ToInt32_range (JS.ToInt32 V * 256)) as Hr.
  pose proof (ToInt32_congr (JS.ToInt32 V * 256)) as Hc.
  pose proof (ToInt32_congr V) as Hv.
  set (W := JS.ToInt32 (JS.ToInt32 V * 256)) in *.
  set (v := JS.ToInt32 V) in *.
  assert (W mod 256 = 0) as HW by zdiv.
  rewrite lor_low_byte by lia.
  symmetry. apply ToInt32_unique; zdiv.
Qed.

Lemma land_mask a k : 0 <= k -> Z.land a (2 ^ k - 1) = a mod 2 ^ k.
Proof.
  intros Hk. rewrite <- Z.land_ones by lia. f_equal.
  rewrite Z.ones_equiv. lia.
Qed.

Lemma land_pow2 a k :
  0 <= k -> Z.land a (2 ^ k) = if Z.testbit a k then 2 ^ k else 0.
Proof.
  intros Hk. apply Z.bits_inj'. intros i Hi.
  rewrite Z.land_spec, Z.pow2_bits_eqb by lia.
  destruct (Z.eqb_spec k i) as [->|Hne].
  - rewrite andb_true_r. destruct (Z.testbit a i) eqn:E.
    + rewrite Z.pow2_bits_true; auto.
    + apply eq_sym, Z.bits_0.
  - rewrite andb_false_r. destruct (Z.testbit a k).
    + rewrite Z.pow2_bits_false; auto.
    + apply eq_sym, Z.bits_0.
Qed.

Lemma testbit_top a k :
  0 <= k -> 0 <= a < 2 ^ (k + 1) -> Z.testbit a k = negb (a <? 2 ^ k).
Proof.
  intros Hk Ha. rewrite Z.testbit_eqb by lia.
  replace (2 ^ (k + 1)) with (2 * 2 ^ k) in Ha by (rewrite Z.pow_add_r; lia).
  assert (0 < 2 ^ k) by (apply Z.pow_pos_nonneg; lia).
  destruct (Z.ltb_spec a (2 ^ k)); cbn.
  - rewrite Z.div_small by lia. reflexivity.
  - replace (a / 2 ^ k) with 1; [reflexivity|].
    apply Z.div_unique with (r := a - 2 ^ k); lia.
Qed.

Lemma land_sign_bit a k :
  0 <= k -> 0 <= a < 2 ^ (k + 1) ->
  (Z.land a (2 ^ k) =? 0) = (a <? 2 ^ k).
Proof.
  intros Hk Ha. rewrite land_pow2, (testbit_top a k) by lia.
  assert (0 < 2 ^ k) by (apply Z.pow_pos_nonneg; lia).
  destruct (a <? 2 ^ k); cbn; lia.
Qed.

Lemma land_int32_sign v :
  - 2 ^ 31 <= v < 2 ^ 31 -> (Z.land v (- 2 ^ 31) =? 0) = (0 <=? v).
Proof.
  intros Hv.
  assert (Z.land v (- 2 ^ 31) = (v / 2 ^ 31) * 2 ^ 31) as ->.
  { change (- 2 ^ 31) with (Z.lnot (Z.ones 31)).
    change (Z.land v (Z.lnot (Z.ones 31))) with (Z.ldiff v (Z.ones 31)).
    rewrite Z.ldiff_ones_r by lia.
    rewrite Z.shiftl_mul_pow2, Z.shiftr_div_pow2 by lia. reflexivity. }
  destruct (Z.leb_spec 0 v); [apply Z.eqb_eq | apply Z.eqb_neq]; zdiv.
Qed.

(** ** The byte reader *)

Lemma octet_range buffer k : 0 <= JS.int_of (buffer_at buffer k) < 256.
Proof.
  unfold buffer_at. destruct (k <? 0); cbn; [lia|].
  destruct (buffer !! Z.to_nat k) as [b|]; cbn; [apply byte_val_range | lia].
Qed.

Lemma readUint_fold buffer offset l V :
  fold_left (readUint_step buffer offset) l (JS.ToInt32 V) =
  JS.ToInt32
    (fold_left (fun acc b => acc * 256 + b)
       (map (fun i => JS.int_of (buffer_at buffer (offset + Z.of_nat i))) l) V).
Proof.
  revert V. induction l as [|i l IH]; intros V; cbn [fold_left map]; [reflexivity|].
  unfold readUint_step at 2. rewrite or_shl_byte by apply octet_range.
  apply IH.
Qed.

(** [readUint] returns the big-endian value of the bytes it reads, reduced
    to a signed 32-bit integer. *)
Lemma readUint_ToInt32 buffer offset n :
  readUint buffer offset n = JS.ToInt32 (be_value (octets buffer offset n)).
Proof.
  unfold readUint, be_value, octets.
  change 0 with (JS.ToInt32 0) at 1. apply readUint_fold.
Qed.

Lemma be_value_snoc bs b : be_value (bs ++ [b]) = be_value bs * 256 + b.
Proof. unfold be_value. rewrite fold_left_app. reflexivity. Qed.

Lemma be_value_range bs :
  Forall (fun b => 0 <= b < 256) bs ->
  0 <= be_value bs < 256 ^ Z.of_nat (length bs).
Proof.
  induction bs as [|b bs IH] using rev_ind; intros Hbs.
  - cbn. lia.
  - apply Forall_app in Hbs as [Hbs Hb]. apply Forall_cons_1 in Hb as [Hb _].
    specialize (IH Hbs). rewrite be_value_snoc, length_app, Nat2Z.inj_add.
    cbn [length]. rewrite Z.pow_add_r by lia. change (256 ^ Z.of_nat 1) with 256.
    nia.
Qed.

Lemma octets_range buffer offset n :
  Forall (fun b => 0 <= b < 256) (octets buffer offset n).
Proof.
  unfold octets. apply Forall_map, Forall_forall. intros i _. apply octet_range.
Qed.

Lemma octets_length buffer offset n : length (octets buffer offset n) = n.
Proof. unfold octets. rewrite length_map, length_seq. reflexivity. Qed.

(** Up to three bytes the result is the unsigned value itself. *)
Lemma readUint_unsigned buffer offset n :
  (n <= 3)%nat -> readUint buffer offset n = be_value (octets buffer offset n).
Proof.
  intros Hn. rewrite readUint_ToInt32. apply ToInt32_small.
  pose proof (be_value_range _ (octets_range buffer offset n)) as Hr.
  rewrite octets_length in Hr.
  assert (256 ^ Z.of_nat n <= 256 ^ 3) by (apply Z.pow_le_mono_r; lia).
  change (256 ^ 3) with 16777216 in *. change (2 ^ 31) with 2147483648. lia.
Qed.

(** With four bytes the result is the unsigned value only while the top bit
    of the first byte is clear; otherwise it is that value minus 2^32. *)
Lemma readUint_four buffer offset :
  let u := be_value (octets buffer offset 4) in
  readUint buffer offset 4 = if u <? 2 ^ 31 then u else u - 2 ^ 32.
Proof.
  intros u. rewrite readUint_ToInt32. fold u.
  pose proof (be_value_range _ (octets_range buffer offset 4)) as Hr.
  rewrite octets_length in Hr. fold u in Hr. change (256 ^ Z.of_nat 4) with (2 ^ 32) in Hr.
  destruct (Z.ltb_spec u (2 ^ 31)).
  - apply ToInt32_small. lia.
  - apply ToInt32_unique; [lia|]. replace (u - (u - 2 ^ 32)) with (2 ^ 32) by lia.
    apply Z.mod_same. lia.
Qed.

(** What [readUint] returns: the big-endian value of the bytes reduced to a
    signed 32-bit integer; so the unsigned value itself for a field of up
    to three bytes, and for four bytes the unsigned value or, from 2^31
    on, that value minus 2^32. *)
Theorem readUint_big_endian (buffer : list byte) (offset : Z) :
  (forall n, readUint buffer offset n
               = JS.ToInt32 (be_value (octets buffer offset n))) /\
  (forall n, (n <= 3)%nat ->
             readUint buffer offset n = be_value (octets buffer offset n)) /\
  (let u := be_value (octets buffer offset 4) in
   readUint buffer offset 4 = if u <? 2 ^ 31 then u else u - 2 ^ 32).
Proof.
  split; [intros n; apply readUint_ToInt32|].
  split; [intros n Hn; apply readUint_unsigned, Hn | apply readUint_four].
Qed.

(** C9, at a four-byte field whose first byte has its top bit set: the
    bytes 80 00 00 01 encode the unsigned integer 2147483649, and
    [readUint] returns -2147483647, a negative number. *)
Theorem readUint_top_bit_negative :
  readUint [x80; x00; x00; x01] 0 4 = -2147483647 /\
  be_value (octets [x80; x00; x00; x01] 0 4) = 2147483649.
Proof. split; vm_compute; reflexivity. Qed.

(** Give a name to the byte read at [offset + k]. *)
Ltac name_octet k b :=
  set (b := JS.int_of (buffer_at _ (_ + Z.of_nat k))) in *.

Lemma readInt_one buffer offset :
  readInt buffer offset 1 = sign_magnitude (octets buffer offset 1).
Proof.
  unfold readInt. rewrite readUint_unsigned by lia.
  unfold sign_magnitude. rewrite octets_length.
  pose proof (octets_range buffer offset 1) as Hr.
  cbn [octets seq map] in *. apply Forall_cons_1 in Hr as [H0 _].
  name_octet 0%nat b0. cbn [hd length].
  assert (be_value [b0] = b0) as -> by (unfold be_value; cbn; lia).
  change (JS.shl 1 (Z.of_nat 1 * 8 - 1)) with (2 ^ 7).
  unfold JS.and. rewrite (ToInt32_small b0), !ToInt32_small by (cbn; lia).
  rewrite (land_sign_bit b0 7) by (cbn; lia).
  change (2 ^ 7) with 128. destruct (b0 <? 128); reflexivity.
Qed.

Lemma readInt_two buffer offset :
  readInt buffer offset 2 = sign_magnitude (octets buffer offset 2).
Proof.
  unfold readInt. rewrite readUint_unsigned by lia.
  unfold sign_magnitude. rewrite octets_length.
  pose proof (octets_range buffer offset 2) as Hr.
  cbn [octets seq map] in *.
  apply Forall_cons_1 in Hr as [H0 Hr]. apply Forall_cons_1 in Hr as [H1 _].
  name_octet 0%nat b0. name_octet 1%nat b1. cbn [hd length].
  assert (be_value [b0; b1] = b0 * 256 + b1) as -> by (unfold be_value; cbn; lia).
  change (JS.shl 1 (Z.of_nat 2 * 8 - 1)) with (2 ^ 15).
  unfold JS.and. rewrite (ToInt32_small (b0 * 256 + b1)), !ToInt32_small by (cbn; lia).
  rewrite (land_sign_bit _ 15) by (cbn; lia).
  change (2 ^ 15) with 32768.
  destruct (Z.ltb_spec (b0 * 256 + b1) 32768), (Z.ltb_spec b0 128); cbn; try lia; reflexivity.
Qed.

Lemma readInt_four buffer offset :
  readInt buffer offset 4 = sign_magnitude (octets buffer offset 4).
Proof.
  unfold readInt. rewrite readUint_four.
  unfold sign_magnitude. rewrite octets_length.
  pose proof (be_value_range _ (octets_range buffer offset 4)) as Hu.
  rewrite octets_length in Hu. change (256 ^ Z.of_nat 4) with (2 ^ 32) in Hu.
  pose proof (octets_range buffer offset 4) as Hr.
  cbn [octets seq map] in *.
  apply Forall_cons_1 in Hr as [H0 Hr]. apply Forall_cons_1 in Hr as [H1 Hr].
  apply Forall_cons_1 in Hr as [H2 Hr]. apply Forall_cons_1 in Hr as [H3 _].
  name_octet 0%nat b0. name_octet 1%nat b1.
  name_octet 2%nat b2. name_octet 3%nat b3. cbn [hd].
  assert (be_value [b0; b1; b2; b3] = ((b0 * 256 + b1) * 256 + b2) * 256 + b3) as Hbe
    by (unfold be_value; cbn; lia).
  set (u := be_value _) in *.
  change (JS.shl 1 (Z.of_nat 4 * 8 - 1)) with (- 2 ^ 31).
  change (8 * Z.of_nat 4 - 1) with 31.
  unfold JS.and.
  change (JS.ToInt32 (- 2 ^ 31)) with (- 2 ^ 31).
  change (JS.ToInt32 (- 2 ^ 31 - 1)) with (2 ^ 31 - 1).
  assert ((u <? 2 ^ 31) = (b0 <? 128)) as Hsign.
  { change (2 ^ 31) with 2147483648.
    destruct (Z.ltb_spec u 2147483648), (Z.ltb_spec b0 128); lia. }
  rewrite <- Hsign. change (2 ^ 31) with 2147483648 in *.
  change (2 ^ 32) with 4294967296 in *.
  destruct (Z.ltb_spec u 2147483648) as [Hlt|Hge].
  - rewrite ToInt32_small by (change (2 ^ 31) with 2147483648; lia).
    rewrite land_int32_sign by (change (2 ^ 31) with 2147483648; lia).
    destruct (Z.leb_spec 0 u); [reflexivity | lia].
  - rewrite ToInt32_small by (change (2 ^ 31) with 2147483648; lia).
    rewrite land_int32_sign by (change (2 ^ 31) with 2147483648; lia).
    destruct (Z.leb_spec 0 (u - 4294967296)); [lia|]. cbn [negb].
    f_equal. change (2147483648 - 1) with (2 ^ 31 - 1).
    rewrite !land_mask by lia. zdiv.
Qed.

(** C2: for a field of one, two or four bytes [readInt] returns the GRIB2
    sign-magnitude reading of the bytes: the unsigned big-endian value when
    the top bit of the first byte is clear, and minus the value without
    its top bit when it is set.  In particular the bytes 80 00 00 01 read
    as -1. *)
Theorem readInt_sign_magnitude (buffer : list byte) (offset : Z) (n : nat)
    (Hn : n = 1%nat \/ n = 2%nat \/ n = 4%nat) :
  readInt buffer offset n = sign_magnitude (octets buffer offset n) /\
  readInt [x80; x00; x00; x01] 0 4 = -1.
Proof.
  split; [|vm_compute; reflexivity].
  destruct Hn as [->|[->| ->]];
    [apply readInt_one | apply readInt_two | apply readInt_four].
Qed.

Lemma readInt_sign_magnitude_witness :
  readInt [x01; x85; x00; x02] 1 2 = -1280 /\
  readInt [x80; x00; x00; x01] 0 4 = -1.
Proof.
  pose proof (readInt_sign_magnitude [x01; x85; x00; x02] 1 2
                (or_intror (or_introl eq_refl))) as [H1 H2].
  split; [rewrite H1; vm_compute; reflexivity | exact H2].
Defined.

(** ** Run-length packing *)

Section RunLength.

Let missing : jsnum := Num.of_Z (-999).

(** The array while [out] has been written: the cells after it are
    still missing. *)
Let written (n : nat) (out : list jsnum) : list jsnum :=
  out ++ replicate (n - length out) missing.

Lemma runLength_fill_spec count d (n : nat) out :
  (length out <= n)%nat ->
  let out' := out ++ replicate (Nat.min count (n - length out)) d in
  runLength_fill count d (Z.of_nat n) (written n out) (Z.of_nat (length out)) =
  (written n out', Z.of_nat (length out')).
Proof.
  revert out. induction count as [|count IH]; intros out Hlen out'.
  - subst out'. cbn. rewrite app_nil_r. reflexivity.
  - cbn [runLength_fill]. destruct (Z.ltb_spec (Z.of_nat (length out)) (Z.of_nat n)) as [Hlt|Hge].
    + rewrite Nat2Z.id.
      assert (<[length out := d]> (written n out) = written n (out ++ [d])) as ->.
      { unfold written. rewrite insert_app_r_alt by lia.
        rewrite Nat.sub_diag, length_app. cbn [length].
        destruct (n - length out)%nat as [|k] eqn:Hk; [lia|].
        replace (n - (length out + 1))%nat with k by lia.
        cbn. rewrite <- app_assoc. reflexivity. }
      replace (Z.of_nat (length out) + 1) with (Z.of_nat (length (out ++ [d])))
        by (rewrite length_app; cbn; lia).
      rewrite IH by (rewrite length_app; cbn; lia).
      subst out'. rewrite length_app. cbn [length].
      replace (Nat.min (S count) (n - length out))
        with (S (Nat.min count (n - (length out + 1)))) by lia.
      cbn [replicate]. rewrite <- !app_assoc. reflexivity.
    + subst out'. replace (Nat.min (S count) (n - length out)) with 0%nat by lia.
      cbn. rewrite app_nil_r. reflexivity.
Qed.

Lemma take_capped_run (n : nat) out count d (rest : list jsnum) :
  (length out <= n)%nat ->
  take n ((out ++ replicate (Nat.min count (n - length out)) d) ++ rest) =
  take n (out ++ replicate count d ++ rest).
Proof.
  intros Hlen. rewrite <- app_assoc, !(take_app out). f_equal.
  set (k := (n - length out)%nat).
  destruct (Nat.le_gt_cases count k).
  - rewrite Nat.min_l by lia. reflexivity.
  - rewrite Nat.min_r by lia.
    rewrite take_app_length' by (rewrite length_replicate; reflexivity).
    rewrite take_app_le by (rewrite length_replicate; lia).
    rewrite take_replicate, Nat.min_l by lia. reflexivity.
Qed.

Lemma runLength_pairs_short (l : list byte) :
  (length l <= 1)%nat -> runLength_pairs l = [].
Proof. destruct l as [|? [|? ?]]; cbn; intros; [reflexivity..|lia]. Qed.

Lemma buffer_at_drop (buffer : list byte) (pos : nat) b rest :
  drop pos buffer = b :: rest ->
  buffer_at buffer (Z.of_nat pos) = Some (byte_val b).
Proof.
  intros Hd. unfold buffer_at.
  destruct (Z.ltb_spec (Z.of_nat pos) 0); [lia|]. rewrite Nat2Z.id.
  assert (buffer !! pos = Some b) as ->; [|reflexivity].
  rewrite <- (Nat.add_0_r pos), <- lookup_drop, Hd. reflexivity.
Qed.

Lemma runLength_loop_spec fuel dataBuffer (n : nat) out (pos : nat) :
  (length out <= n)%nat ->
  (length (drop pos dataBuffer) <= fuel)%nat ->
  runLength_loop fuel dataBuffer (Z.of_nat n) (written n out)
    (Z.of_nat (length out)) (Z.of_nat pos) =
  take n (out ++ runLength_expand (drop pos dataBuffer) ++ replicate n missing).
Proof.
  revert out pos. induction fuel as [|fuel IH]; intros out pos Hlen Hfuel.
  - cbn. destruct (drop pos dataBuffer); [|cbn in Hfuel; lia].
    cbn. unfold written. rewrite take_app, take_ge, take_replicate by lia.
    rewrite Nat.min_l by lia. reflexivity.
  - cbn [runLength_loop]. unfold buffer_length.
    rewrite length_drop in Hfuel.
    destruct (Z.ltb_spec (Z.of_nat pos) (Z.of_nat (length dataBuffer) - 1)) as [Hpos|Hpos];
      cbn [andb].
    + destruct (Z.ltb_spec (Z.of_nat (length out)) (Z.of_nat n)) as [Hi|Hi].
      * destruct (drop pos dataBuffer) as [|value [|count rest]] eqn:Hd;
          try (apply (f_equal length) in Hd; rewrite length_drop in Hd; cbn in Hd; lia).
        pose proof (buffer_at_drop _ _ _ _ Hd) as Hv.
        assert (drop (S pos) dataBuffer = count :: rest) as Hd1.
        { replace (S pos) with (pos + 1)%nat by lia.
          rewrite <- (drop_drop dataBuffer 1 pos), Hd. reflexivity. }
        assert (drop (S (S pos)) dataBuffer = rest) as Hd2.
        { replace (S (S pos)) with (S pos + 1)%nat by lia.
          rewrite <- (drop_drop dataBuffer 1 (S pos)), Hd1. reflexivity. }
        pose proof (buffer_at_drop _ _ _ _ Hd1) as Hc.
        replace (Z.of_nat (S pos)) with (Z.of_nat pos + 1) in Hc by lia.
        rewrite Hv, Hc. cbn [JS.int_of default].
        rewrite runLength_fill_spec by lia.
        replace (Z.of_nat pos + 2) with (Z.of_nat (S (S pos))) by lia.
        rewrite IH.
        -- rewrite Hd2. unfold runLength_expand at 2. cbn [runLength_pairs flat_map].
           fold (runLength_expand rest).
           unfold id. rewrite take_capped_run by lia.
           rewrite <- !app_assoc. reflexivity.
        -- rewrite length_app, length_replicate. lia.
        -- apply (f_equal length) in Hd. rewrite length_drop in Hd. cbn in Hd.
           rewrite length_drop. lia.
      * assert (length out = n) as Hn by lia.
        unfold written. rewrite Hn, Nat.sub_diag, app_nil_r.
        rewrite take_app_length' by lia. reflexivity.
    + unfold runLength_expand. rewrite runLength_pairs_short by (rewrite length_drop; lia).
      cbn. unfold written. rewrite take_app, take_ge, take_replicate by lia.
      rewrite Nat.min_l by lia. reflexivity.
Qed.

End RunLength.

(** C1, with its example as the code decodes it: the field is the first
    [numPoints] numbers of the runs of the (value, count) pairs, a run
    being [count] copies of -999 for the value 0 and of
    [value * 0.5 - 33] otherwise, followed by -999 in the cells that the
    runs do not reach.  The bytes 00 02 80 02 decode to
    [-999, -999, 31, 31]: the byte 0x80 is 128. *)
Theorem unpackRunLength_field (dataBuffer : list byte) (numPoints : Z)
    (Hn : 0 <= numPoints) :
  unpackRunLength dataBuffer numPoints
    = Ok (runLength_field dataBuffer (Z.to_nat numPoints)) /\
  exists field,
    unpackRunLength [x00; x02; x80; x02] 4 = Ok field /\
    field_eq field [Num.of_Z (-999); Num.of_Z (-999); Num.of_Z 31; Num.of_Z 31].
Proof.
  split.
  - unfold unpackRunLength, Float32Array_new.
    destruct (Z.ltb_spec numPoints 0); [lia|]. cbn [mbind result_bind].
    rewrite length_replicate.
    pose proof (runLength_loop_spec (length dataBuffer) dataBuffer
                  (Z.to_nat numPoints) [] 0) as Hloop.
    cbn [length app] in Hloop. change (Z.of_nat 0) with 0 in Hloop.
    rewrite drop_0, Nat.sub_0_r, Z2Nat.id in Hloop by lia.
    rewrite Hloop by lia. reflexivity.
  - eexists. split; [vm_compute; reflexivity|].
    repeat constructor.
Qed.

Lemma unpackRunLength_field_witness :
  unpackRunLength [x05; x03; x00; x01] 2
    = Ok (runLength_field [x05; x03; x00; x01] 2).
Proof.
  apply (unpackRunLength_field [x05; x03; x00; x01] 2). lia.
Defined.

(** The example of C1 as the specification has it does not hold: the
    decoded field is not [-999, -999, -1, -1], its last two cells are 31. *)
Lemma unpackRunLength_example_not_minus_one :
  exists field,
    unpackRunLength [x00; x02; x80; x02] 4 = Ok field /\
    ~ field_eq field [Num.of_Z (-999); Num.of_Z (-999); Num.of_Z (-1); Num.of_Z (-1)].
Proof.
  eexists. split; [vm_compute; reflexivity|].
  intros Heq.
  inversion Heq as [|? ? ? ? _ H1]; subst.
  inversion H1 as [|? ? ? ? _ H2]; subst.
  inversion H2 as [|? ? ? ? H3 _]; subst.
  vm_compute in H3. discriminate H3.
Qed.

(** ** Colour scale *)

Lemma Qle_bool_false a b : Qle_bool a b = false <-> ~ (a <= b)%Q.
Proof.
  rewrite <- Qle_bool_iff. destruct (Qle_bool a b); split; congruence.
Qed.

Lemma find_stops_seq scale d found (i n a : nat) :
  (a <= i < a + n)%nat ->
  (forall j, (a <= j < i)%nat -> stop_test scale d j = false) ->
  stop_test scale d i = true ->
  find_stops scale d (seq a n) found = (scale !!! i, scale !!! S i).
Proof.
  revert a. induction n as [|n IH]; intros a Hi Hbefore Hat; [lia|].
  cbn [seq find_stops]. fold (stop_test scale d a).
  destruct (Nat.eq_dec a i) as [->|Hne].
  - rewrite Hat. reflexivity.
  - rewrite Hbefore by lia. apply IH; [lia| |assumption].
    intros j Hj. apply Hbefore. lia.
Qed.

Lemma getColorForDbz_unfold d :
  getColorForDbz d =
  if Num.lt d (Num.of_Z (-900)) || Num.isNaN d then transparent
  else
    let first := COLOR_SCALE !!! 0%nat in
    let last := COLOR_SCALE !!! 16%nat in
    let '(lower, upper) := find_stops COLOR_SCALE d (seq 0 16) (first, last) in
    if Num.lt d (dbz first) then color first
    else if Num.ge d (dbz last) then color last
    else
      let range := Num.sub (dbz upper) (dbz lower) in
      let t :=
        if Num.eqb range (Num.of_Z 0) then Num.of_Z 0
        else Num.div (Num.sub d (dbz lower)) range in
      RGBA (interpolate t (red (color lower)) (red (color upper)))
           (interpolate t (green (color lower)) (green (color upper)))
           (interpolate t (blue (color lower)) (blue (color upper)))
           (interpolate t (alpha (color lower)) (alpha (color upper))).
Proof. reflexivity. Qed.

(** Replace the level of a stop at a known index by its value. *)
Ltac eval_stops :=
  repeat match goal with
  | |- context [dbz (COLOR_SCALE !!! ?j)] =>
      let v := eval vm_compute in (dbz (COLOR_SCALE !!! j)) in
      change (dbz (COLOR_SCALE !!! j)) with v
  end.

(** Decide a comparison of [q] with a constant from the bounds in the
    context. *)
Ltac decide_Qle :=
  repeat match goal with
  | |- context [Qle_bool ?a ?b] =>
      first
        [ replace (Qle_bool a b) with true
            by (symmetry; apply Qle_bool_iff; cbv [inject_Z] in *; lra)
        | replace (Qle_bool a b) with false
            by (symmetry; apply Qle_bool_false; cbv [inject_Z] in *; lra) ]
  end.

Lemma stop_test_between (i : nat) (q : Q) lo hi :
  COLOR_SCALE !! i = Some lo -> COLOR_SCALE !! S i = Some hi ->
  Num.le (dbz lo) (Num q) = true -> Num.lt (Num q) (dbz hi) = true ->
  (forall j, (0 <= j < i)%nat -> stop_test COLOR_SCALE (Num q) j = false) /\
  stop_test COLOR_SCALE (Num q) i = true /\
  Num.lt (Num q) (Num.of_Z (-900)) = false /\
  Num.lt (Num q) (dbz (COLOR_SCALE !!! 0%nat)) = false /\
  Num.ge (Num q) (dbz (COLOR_SCALE !!! 16%nat)) = false /\
  Num.eqb (Num.sub (dbz hi) (dbz lo)) (Num.of_Z 0) = false /\
  lo = COLOR_SCALE !!! i /\ hi = COLOR_SCALE !!! S i.
Proof.
  intros Hlo Hhi Hle Hlt.
  do 16 (destruct i as [|i];
    [ injection Hlo as <-; injection Hhi as <-;
      cbn [dbz stop] in Hle, Hlt; unfold Num.le, Num.lt, Num.of_Z in Hle, Hlt;
      apply Qle_bool_iff in Hle; apply negb_true_iff, Qle_bool_false in Hlt;
      cbv [inject_Z] in Hle, Hlt;
      repeat split;
      [ intros j Hj; unfold stop_test;
        do 16 (destruct j as [|j]; [ try lia; eval_stops; unfold Num.ge, Num.le, Num.lt; decide_Qle; reflexivity |]); lia
      | unfold stop_test; eval_stops; unfold Num.ge, Num.le, Num.lt; decide_Qle; reflexivity
      | unfold Num.lt, Num.of_Z; decide_Qle; reflexivity
      | eval_stops; unfold Num.lt; decide_Qle; reflexivity
      | eval_stops; unfold Num.ge, Num.le; decide_Qle; reflexivity ]
    | ]).
  cbn in Hhi. discriminate Hhi.
Qed.

Lemma COLOR_SCALE_finite s :
  s ∈ COLOR_SCALE -> exists q, dbz s = Num q.
Proof.
  revert s. apply Forall_forall.
  repeat constructor; eexists; reflexivity.
Qed.

Lemma getColorForDbz_missing d :
  Num.lt d (Num.of_Z (-900)) = true \/ Num.isNaN d = true ->
  getColorForDbz d = transparent.
Proof.
  intros H. rewrite getColorForDbz_unfold.
  destruct H as [-> | ->]; [reflexivity | rewrite orb_true_r; reflexivity].
Qed.

Lemma getColorForDbz_below d :
  Num.lt d (dbz (COLOR_SCALE !!! 0%nat)) = true ->
  getColorForDbz d = color (COLOR_SCALE !!! 0%nat).
Proof.
  intros H. rewrite getColorForDbz_unfold.
  destruct (Num.lt d (Num.of_Z (-900)) || Num.isNaN d); [reflexivity|].
  cbv zeta. destruct (find_stops _ _ _ _) as [lower upper]. rewrite H. reflexivity.
Qed.

Lemma getColorForDbz_above d :
  Num.ge d (dbz (COLOR_SCALE !!! 16%nat)) = true ->
  getColorForDbz d = color (COLOR_SCALE !!! 16%nat).
Proof.
  intros H. rewrite getColorForDbz_unfold.
  assert (Num.lt d (Num.of_Z (-900)) || Num.isNaN d = false) as ->.
  { destruct d as [q| [|] |]; try discriminate H; [|reflexivity].
    revert H. eval_stops. unfold Num.ge, Num.le, Num.lt, Num.of_Z. cbn [Num.isNaN].
    intros H%Qle_bool_iff. rewrite orb_false_r. decide_Qle. reflexivity. }
  cbv zeta. destruct (find_stops _ _ _ _) as [lower upper].
  assert (Num.lt d (dbz (COLOR_SCALE !!! 0%nat)) = false) as ->.
  { destruct d as [q| [|] |]; try discriminate H; [|reflexivity].
    revert H. eval_stops. unfold Num.ge, Num.le, Num.lt, Num.of_Z.
    intros H%Qle_bool_iff. decide_Qle. reflexivity. }
  rewrite H. reflexivity.
Qed.

Lemma getColorForDbz_between d (i : nat) lo hi :
  COLOR_SCALE !! i = Some lo -> COLOR_SCALE !! S i = Some hi ->
  Num.le (dbz lo) d = true -> Num.lt d (dbz hi) = true ->
  getColorForDbz d = stop_interpolate lo hi d.
Proof.
  intros Hlo Hhi Hle Hlt.
  destruct (COLOR_SCALE_finite lo) as [a Ha]; [eapply list_elem_of_lookup_2; eassumption|].
  destruct (COLOR_SCALE_finite hi) as [b Hb]; [eapply list_elem_of_lookup_2; eassumption|].
  destruct d as [q|s|].
  - destruct (stop_test_between i q lo hi Hlo Hhi Hle Hlt)
      as (Hbefore & Hat & Hmiss & Hfirst & Hlast & Hrange & Elo & Ehi).
    rewrite getColorForDbz_unfold, Hmiss. cbn [Num.isNaN orb]. cbv zeta.
    rewrite (find_stops_seq COLOR_SCALE (Num q) _ i 16 0); try assumption.
    + rewrite Hfirst, Hlast, <- Elo, <- Ehi, Hrange. reflexivity.
    + apply lookup_lt_Some in Hhi. cbn in Hhi. lia.
  - rewrite Ha, Hb in *. destruct s; cbn in Hle, Hlt; discriminate.
  - rewrite Ha in Hle. discriminate Hle.
Qed.


(** *** The channels of a colour *)

Lemma ToUint8_byte a z : a = Num.of_Z z -> 0 <= z <= 255 -> ToUint8 a = z.
Proof.
  intros -> Hz. unfold ToUint8, Num.of_Z. cbn. rewrite Z.quot_1_r.
  apply Z.mod_small. lia.
Qed.

Lemma COLOR_SCALE_bytes s : s ∈ COLOR_SCALE -> byte_color (color s).
Proof.
  revert s. apply Forall_forall.
  repeat constructor; eexists; (split; [reflexivity | lia]).
Qed.

Lemma round_between (x : Q) :
  (0 <= x <= 255)%Q -> 0 <= Qfloor (x + (1 # 2)) <= 255.
Proof.
  intros [Hlo Hhi]. split.
  - change 0 with (Qfloor 0). apply Qfloor_resp_le. lra.
  - change 255 with (Qfloor (255 + (1 # 2))). apply Qfloor_resp_le. lra.
Qed.

Lemma mix_between (t lo hi : Q) :
  (0 <= t <= 1)%Q -> (0 <= lo <= 255)%Q -> (0 <= hi <= 255)%Q ->
  (0 <= lo + t * (hi - lo) <= 255)%Q.
Proof.
  intros Ht Hlo Hhi. nra.
Qed.

Lemma ratio_between (q a b : Q) :
  (a <= q)%Q -> (q < b)%Q -> (0 <= (q - a) / (b - a) <= 1)%Q.
Proof.
  intros Hle Hlt. split.
  - apply Qle_shift_div_l; lra.
  - apply Qle_shift_div_r; lra.
Qed.

Lemma interpolate_byte (t : Q) lower upper :
  (0 <= t <= 1)%Q -> is_byte lower -> is_byte upper ->
  is_byte (interpolate (Num t) lower upper).
Proof.
  intros Ht (l & -> & Hl) (u & -> & Hu).
  unfold interpolate, Num.sub, Num.add, Num.neg, Num.mul, Num.round, Num.of_Z.
  eexists. split; [reflexivity|].
  apply round_between, mix_between; [exact Ht | |];
    (split; [change 0%Q with (inject_Z 0) | change 255%Q with (inject_Z 255)];
     rewrite <- Zle_Qle; lia).
Qed.

(** The stops around a level inside the scale. *)
Ltac try_stop i :=
  exists i; do 2 eexists; split; [reflexivity|]; split; [reflexivity|];
  cbn [dbz stop]; unfold Num.le, Num.lt, Num.of_Z;
  split; [apply Qle_bool_iff | apply negb_true_iff, Qle_bool_false];
  cbv [inject_Z]; lra.

Lemma COLOR_SCALE_cover (q : Q) :
  (-30 <= q)%Q -> (q < 75)%Q ->
  exists (i : nat) lo hi,
    COLOR_SCALE !! i = Some lo /\ COLOR_SCALE !! S i = Some hi /\
    Num.le (dbz lo) (Num q) = true /\ Num.lt (Num q) (dbz hi) = true.
Proof.
  intros Hlo Hhi.
  destruct (Qlt_le_dec q 0); [try_stop 0%nat|].
  destruct (Qlt_le_dec q 5); [try_stop 1%nat|].
  destruct (Qlt_le_dec q 10); [try_stop 2%nat|].
  destruct (Qlt_le_dec q 15); [try_stop 3%nat|].
  destruct (Qlt_le_dec q 20); [try_stop 4%nat|].
  destruct (Qlt_le_dec q 25); [try_stop 5%nat|].
  destruct (Qlt_le_dec q 30); [try_stop 6%nat|].
  destruct (Qlt_le_dec q 35); [try_stop 7%nat|].
  destruct (Qlt_le_dec q 40); [try_stop 8%nat|].
  destruct (Qlt_le_dec q 45); [try_stop 9%nat|].
  destruct (Qlt_le_dec q 50); [try_stop 10%nat|].
  destruct (Qlt_le_dec q 55); [try_stop 11%nat|].
  destruct (Qlt_le_dec q 60); [try_stop 12%nat|].
  destruct (Qlt_le_dec q 65); [try_stop 13%nat|].
  destruct (Qlt_le_dec q 70); [try_stop 14%nat|].
  try_stop 15%nat.
Qed.

Lemma stop_interpolate_byte lo hi (q : Q) :
  lo ∈ COLOR_SCALE -> hi ∈ COLOR_SCALE ->
  Num.le (dbz lo) (Num q) = true -> Num.lt (Num q) (dbz hi) = true ->
  byte_color (stop_interpolate lo hi (Num q)).
Proof.
  intros Hlo Hhi Hle Hlt.
  destruct (COLOR_SCALE_finite lo Hlo) as [a Ha].
  destruct (COLOR_SCALE_finite hi Hhi) as [b Hb].
  destruct (COLOR_SCALE_bytes lo Hlo) as (Lr & Lg & Lb & La).
  destruct (COLOR_SCALE_bytes hi Hhi) as (Hr & Hg & Hb' & Ha').
  rewrite Ha, Hb in *. unfold Num.le, Num.lt in Hle, Hlt.
  apply Qle_bool_iff in Hle. apply negb_true_iff, Qle_bool_false in Hlt.
  assert (Num.div (Num.sub (Num q) (Num a)) (Num.sub (Num b) (Num a))
          = Num ((q - a) / (b - a))) as Ht.
  { unfold Num.sub, Num.add, Num.neg, Num.div.
    destruct (Qeq_bool (b + - a) 0) eqn:E; [|reflexivity].
    apply Qeq_bool_iff in E. lra. }
  pose proof (ratio_between q a b Hle ltac:(lra)) as Hratio.
  unfold stop_interpolate, channel_interpolate. rewrite Ha, Hb, Ht.
  repeat split; apply (interpolate_byte _ _ _ Hratio); assumption.
Qed.

Lemma getColorForDbz_byte_color d : byte_color (getColorForDbz d).
Proof.
  assert (byte_color transparent) as Htransparent
    by (repeat split; exists 0; (split; [reflexivity | lia])).
  assert (byte_color (color (COLOR_SCALE !!! 0%nat))) as Hfirst
    by (apply COLOR_SCALE_bytes; repeat constructor).
  assert (byte_color (color (COLOR_SCALE !!! 16%nat))) as Hlast
    by (apply COLOR_SCALE_bytes; apply list_elem_of_lookup_total_2; cbn; lia).
  destruct d as [q|[|]|].
  - destruct (Qlt_le_dec q (-30)) as [Hbelow|Hge].
    { rewrite getColorForDbz_below; [exact Hfirst|].
      cbn [dbz stop]. unfold Num.lt, Num.of_Z.
      apply negb_true_iff, Qle_bool_false. cbv [inject_Z]. lra. }
    destruct (Qlt_le_dec q 75) as [Hlt|Habove].
    + destruct (COLOR_SCALE_cover q Hge Hlt) as (i & lo & hi & Hlo & Hhi & Hle & Hlt').
      rewrite (getColorForDbz_between (Num q) i lo hi Hlo Hhi Hle Hlt').
      apply stop_interpolate_byte; try assumption;
        eapply list_elem_of_lookup_2; eassumption.
    + rewrite getColorForDbz_above; [exact Hlast|].
      cbn [dbz stop]. unfold Num.ge, Num.le, Num.of_Z.
      apply Qle_bool_iff. cbv [inject_Z]. lra.
  - rewrite getColorForDbz_missing; [exact Htransparent | left; reflexivity].
  - rewrite getColorForDbz_above; [exact Hlast | reflexivity].
  - rewrite getColorForDbz_missing; [exact Htransparent | right; reflexivity].
Qed.

(** Every colour that the mapper returns has four integral channels between
    0 and 255: the renderer stores them as they are, a store into the
    [Uint8Array] wraps nothing. *)
Theorem cell_pixel_color (v : option jsnum) :
  exists r g b a : Z,
    getColorForDbz (or_missing v)
      = RGBA (Num.of_Z r) (Num.of_Z g) (Num.of_Z b) (Num.of_Z a) /\
    cell_pixel v = [r; g; b; a] /\
    0 <= r <= 255 /\ 0 <= g <= 255 /\ 0 <= b <= 255 /\ 0 <= a <= 255.
Proof.
  destruct (getColorForDbz_byte_color (or_missing v))
    as ((r & Er & Hr) & (g & Eg & Hg) & (b & Eb & Hb) & (a & Ea & Ha)).
  exists r, g, b, a. unfold cell_pixel.
  rewrite (ToUint8_byte _ r Er Hr), (ToUint8_byte _ g Eg Hg),
    (ToUint8_byte _ b Eb Hb), (ToUint8_byte _ a Ea Ha).
  destruct (getColorForDbz (or_missing v)) as [cr cg cb ca]. cbn in *. subst.
  repeat split; lia.
Qed.

(** ** Raster renderer *)

Section Render.

Variable values : list jsnum.
Variables W H : nat.
Variable scanningMode : option Z.

Let width : Z := Z.of_nat W.
Let height : Z := Z.of_nat H.

(** The bytes of the output pixel [(i, j)]. *)
Let cell (i j : nat) : list Z :=
  cell_pixel (values_at values (srcIdx width height scanningMode (Z.of_nat i) (Z.of_nat j))).

Lemma render_pixel_length j pixels i :
  length (render_pixel values width height scanningMode j pixels i) = length pixels.
Proof. unfold render_pixel. rewrite !length_insert. reflexivity. Qed.

Lemma render_pixel_frame j pixels i k :
  (k < 4 * (j * W + i) \/ 4 * (j * W + i) + 4 <= k)%nat ->
  render_pixel values width height scanningMode j pixels i !! k = pixels !! k.
Proof.
  intros Hk. unfold render_pixel.
  replace (Z.to_nat ((Z.of_nat j * width + Z.of_nat i) * 4)) with (4 * (j * W + i))%nat
    by (subst width; lia).
  rewrite !list_lookup_insert_ne by lia. reflexivity.
Qed.

Lemma render_pixel_at j pixels i (c : nat) :
  (4 * (j * W + i) + 4 <= length pixels)%nat -> (c < 4)%nat ->
  render_pixel values width height scanningMode j pixels i !! (4 * (j * W + i) + c)%nat
    = cell i j !! c.
Proof.
  intros Hlen Hc. unfold render_pixel.
  replace (Z.to_nat ((Z.of_nat j * width + Z.of_nat i) * 4)) with (4 * (j * W + i))%nat
    by (subst width; lia).
  set (p := (4 * (j * W + i))%nat) in *.
  destruct c as [|[|[|[|c]]]]; [| | | |lia].
  - rewrite Nat.add_0_r, !list_lookup_insert_ne, list_lookup_insert_eq by lia. reflexivity.
  - rewrite !list_lookup_insert_ne by lia.
    rewrite list_lookup_insert_eq by (rewrite length_insert; lia). reflexivity.
  - rewrite list_lookup_insert_ne by lia.
    rewrite list_lookup_insert_eq by (rewrite !length_insert; lia). reflexivity.
  - rewrite list_lookup_insert_eq by (rewrite !length_insert; lia). reflexivity.
Qed.

(** The row [j] after its first [n] pixels. *)
Lemma render_row_prefix j pixels (n : nat) :
  (n <= W)%nat -> (4 * (j * W + W) <= length pixels)%nat ->
  let pixels' :=
    fold_left (render_pixel values width height scanningMode j) (seq 0 n) pixels in
  length pixels' = length pixels /\
  (forall i c, (i < n)%nat -> (c < 4)%nat ->
     pixels' !! (4 * (j * W + i) + c)%nat = cell i j !! c) /\
  (forall k, (k < 4 * (j * W) \/ 4 * (j * W + n) <= k)%nat -> pixels' !! k = pixels !! k).
Proof.
  intros Hn Hlen. induction n as [|n IH]; cbn zeta.
  - cbn. repeat split; intros; lia || reflexivity.
  - rewrite seq_S, fold_left_app. cbn [fold_left Nat.add].
    destruct IH as (IHlen & IHat & IHframe); [lia|].
    set (px := fold_left _ (seq 0 n) pixels) in *.
    split; [rewrite render_pixel_length; exact IHlen|]. split.
    + intros i c Hi Hc. destruct (Nat.eq_dec i n) as [->|Hne].
      * apply render_pixel_at; lia.
      * rewrite render_pixel_frame by lia. apply IHat; lia.
    + intros k Hk. rewrite render_pixel_frame by lia. apply IHframe. lia.
Qed.

Lemma render_row_spec j pixels :
  (4 * (j * W + W) <= length pixels)%nat ->
  let pixels' := render_row values width height scanningMode pixels j in
  length pixels' = length pixels /\
  (forall i c, (i < W)%nat -> (c < 4)%nat ->
     pixels' !! (4 * (j * W + i) + c)%nat = cell i j !! c) /\
  (forall k, (k < 4 * (j * W) \/ 4 * (j * W + W) <= k)%nat -> pixels' !! k = pixels !! k).
Proof.
  intros Hlen. unfold render_row.
  replace (Z.to_nat width) with W by (subst width; lia).
  apply render_row_prefix; [lia | assumption].
Qed.

(** The image after its first [m] rows. *)
Lemma render_rows_prefix pixels (m : nat) :
  (m <= H)%nat -> length pixels = (4 * (H * W))%nat ->
  let pixels' :=
    fold_left (render_row values width height scanningMode) (seq 0 m) pixels in
  length pixels' = length pixels /\
  (forall j i c, (j < m)%nat -> (i < W)%nat -> (c < 4)%nat ->
     pixels' !! (4 * (j * W + i) + c)%nat = cell i j !! c).
Proof.
  intros Hm Hlen. induction m as [|m IH]; cbn zeta.
  - cbn. split; [reflexivity | intros; lia].
  - rewrite seq_S, fold_left_app. cbn [fold_left Nat.add].
    destruct IH as (IHlen & IHat); [lia|].
    set (px := fold_left _ (seq 0 m) pixels) in *.
    assert (m * W + W <= H * W)%nat as Hrow by nia.
    destruct (render_row_spec m px) as (Rlen & Rat & Rframe); [lia|].
    split; [lia|].
    intros j i c Hj Hi Hc. destruct (Nat.eq_dec j m) as [->|Hne].
    + apply Rat; assumption.
    + assert (j * W + W <= m * W)%nat by nia.
      rewrite Rframe by lia. apply IHat; lia.
Qed.

(** Every pixel of the buffer holds the colour of its source cell. *)
Lemma radar_pixels_at :
  exists pixels,
    radar_pixels values width height scanningMode = Ok pixels /\
    length pixels = (4 * (H * W))%nat /\
    forall j i c, (j < H)%nat -> (i < W)%nat -> (c < 4)%nat ->
      pixels !! (4 * (j * W + i) + c)%nat = cell i j !! c.
Proof.
  unfold radar_pixels, Uint8Array_new.
  destruct (Z.ltb_spec (width * height * 4) 0) as [Hneg|_]; [subst width height; lia|].
  cbn [mbind result_bind]. eexists. split; [reflexivity|].
  assert (length (replicate (Z.to_nat (width * height * 4)) 0) = (4 * (H * W))%nat) as Hlen
    by (rewrite length_replicate; subst width height; lia).
  replace (Z.to_nat height) with H by (subst height; lia).
  destruct (render_rows_prefix (replicate (Z.to_nat (width * height * 4)) 0) H)
    as (Flen & Fat); [lia | assumption |].
  split; [lia | exact Fat].
Qed.

End Render.

Lemma scan_bit_byte sm mask :
  0 <= sm < 256 -> 0 <= mask < 256 ->
  JS.and (JS.int_of (Some sm)) mask = Z.land sm mask.
Proof.
  intros Hsm Hmask. unfold JS.and, JS.int_of. cbn [default]. unfold id.
  rewrite !ToInt32_small by (change (2 ^ 31) with 2147483648; lia). reflexivity.
Qed.

(** The buffer in terms of the coordinates of the claim: the four bytes of
    the output pixel [(i, j)] stand at [(j * width + i) * 4]. *)
Lemma radar_pixels_pixel values (width height : Z) scanningMode :
  0 <= width -> 0 <= height ->
  exists pixels,
    radar_pixels values width height scanningMode = Ok pixels /\
    length pixels = Z.to_nat (width * height * 4) /\
    forall i j, 0 <= i < width -> 0 <= j < height ->
      take 4 (drop (Z.to_nat ((j * width + i) * 4)) pixels)
        = cell_pixel (values_at values (srcIdx width height scanningMode i j)).
Proof.
  intros Hw Hh.
  destruct (radar_pixels_at values (Z.to_nat width) (Z.to_nat height) scanningMode)
    as (pixels & Hrun & Hlen & Hat).
  rewrite !Z2Nat.id in Hrun by lia.
  exists pixels. split; [exact Hrun|].
  split; [rewrite Hlen, !Z2Nat.inj_mul by nia; cbn; lia|].
  intros i j Hi Hj.
  specialize (Hat (Z.to_nat j) (Z.to_nat i)).
  rewrite !Z2Nat.id in Hat by lia.
  replace (Z.to_nat ((j * width + i) * 4))
    with (4 * (Z.to_nat j * Z.to_nat width + Z.to_nat i))%nat
    by (rewrite Z2Nat.inj_mul, Z2Nat.inj_add, Z2Nat.inj_mul by nia; cbn; lia).
  set (p := (4 * (Z.to_nat j * Z.to_nat width + Z.to_nat i))%nat) in *.
  apply list_eq. intros c. rewrite lookup_take, lookup_drop.
  destruct (decide (c < 4)%nat) as [Hc|Hc].
  - apply Hat; lia.
  - symmetry. apply lookup_ge_None_2. cbn. lia.
Qed.

(** The values that [values[srcIdx] || -999] replaces by -999. *)
Lemma or_missing_falsy v :
  v = None \/ v = Some NaN \/ (exists q, v = Some (Num q) /\ (q == 0)%Q) ->
  or_missing v = Num.of_Z (-999).
Proof.
  intros [-> | [-> | (q & -> & Hq)]]; [reflexivity | reflexivity |].
  cbn. apply Qeq_bool_iff in Hq. rewrite Hq. reflexivity.
Qed.

(** C4: the renderer fills a row-major buffer of [width * height] pixels
    of four bytes, and the output pixel [(i, j)], whose bytes stand at
    [(j * width + i) * 4], is painted from the source cell
    [src_y * width + src_x], where [src_x] is [i] when bit 0x80 of the
    scanning mode is clear and [width - 1 - i] otherwise, and [src_y] is
    [j] when bit 0x40 is clear and [height - 1 - j] otherwise.  For the
    mode 0xC0 and the 2x2 field [A, B, C, D] the pixels are those of
    D, C, B, A in this order. *)
Theorem radar_pixels_orientation (values : list jsnum) (width height sm : Z)
    (Hsm : 0 <= sm < 256) (Hw : 0 <= width) (Hh : 0 <= height) :
  (exists pixels,
     radar_pixels values width height (Some sm) = Ok pixels /\
     length pixels = Z.to_nat (width * height * 4) /\
     forall i j, 0 <= i < width -> 0 <= j < height ->
       let src_x := if Z.land sm 128 =? 0 then i else width - 1 - i in
       let src_y := if Z.land sm 64 =? 0 then j else height - 1 - j in
       take 4 (drop (Z.to_nat ((j * width + i) * 4)) pixels)
         = cell_pixel (values_at values (src_y * width + src_x))) /\
  (forall A B C D : jsnum,
     radar_pixels [A; B; C; D] 2 2 (Some 192)
       = Ok (cell_pixel (Some D) ++ cell_pixel (Some C) ++
             cell_pixel (Some B) ++ cell_pixel (Some A))).
Proof.
  split.
  - destruct (radar_pixels_pixel values width height (Some sm) Hw Hh)
      as (pixels & Hrun & Hlen & Hat).
    exists pixels. split; [exact Hrun|]. split; [exact Hlen|].
    intros i j Hi Hj src_x src_y.
    rewrite (Hat i j Hi Hj). unfold srcIdx. rewrite !scan_bit_byte by lia. reflexivity.
  - intros A B C D. reflexivity.
Qed.

Lemma radar_pixels_orientation_witness :
  exists pixels,
    radar_pixels [Num.of_Z 5; Num.of_Z 10; Num.of_Z 15; Num.of_Z 20] 2 2 (Some 128)
      = Ok pixels /\
    length pixels = 16%nat /\
    take 4 (drop 8 pixels) = cell_pixel (Some (Num.of_Z 20)).
Proof.
  destruct (proj1 (radar_pixels_orientation
                     [Num.of_Z 5; Num.of_Z 10; Num.of_Z 15; Num.of_Z 20] 2 2 128
                     ltac:(lia) ltac:(lia) ltac:(lia)))
    as (pixels & Hrun & Hlen & Hat).
  exists pixels. split; [exact Hrun|]. split; [exact Hlen|].
  exact (Hat 0 1 ltac:(lia) ltac:(lia)).
Defined.



(** ** Grid template 0 *)

Lemma angleDivisor_nonzero basicAngle subdivisions :
  angleDivisor basicAngle subdivisions <> 0.
Proof.
  unfold angleDivisor.
  destruct (Z.eqb_spec basicAngle 0), (Z.eqb_spec subdivisions 0); cbn; nia.
Qed.

Lemma div_of_Z z d :
  d <> 0 -> Num.div (Num.of_Z z) (Num.of_Z d) = Num (inject_Z z / inject_Z d).
Proof.
  intros Hd. unfold Num.div, Num.of_Z.
  destruct (Qeq_bool (inject_Z d) 0) eqn:E; [|reflexivity].
  apply Qeq_bool_iff in E. unfold Qeq in E. cbn in E. lia.
Qed.

(** Case analysis on the comparisons that a goal or a hypothesis holds. *)
Ltac case_Qle :=
  repeat match goal with
  | |- context [Qle_bool ?a ?b] =>
      let E := fresh "E" in
      destruct (Qle_bool a b) eqn:E;
      [apply Qle_bool_iff in E | apply Qle_bool_false in E]
  | H : context [Qle_bool ?a ?b] |- _ =>
      let E := fresh "E" in
      destruct (Qle_bool a b) eqn:E;
      [apply Qle_bool_iff in E | apply Qle_bool_false in E]
  end.

Lemma normalize_lon_finite x :
  exists y, normalize_lon (Num x) = Num y /\
    ((-180 <= x <= 540)%Q -> (-180 <= y <= 180)%Q).
Proof.
  unfold normalize_lon, Num.gt, Num.lt, Num.sub, Num.add, Num.neg, Num.of_Z.
  case_Qle; cbn [negb]; eexists; (split; [reflexivity|]);
    cbv [inject_Z] in *; intros; lra.
Qed.

Lemma Math_min_max_finite a b :
  exists lo hi,
    Math_min (Num a) (Num b) = Num lo /\ Math_max (Num a) (Num b) = Num hi /\
    (lo <= hi)%Q /\
    forall l u, (l <= a <= u)%Q -> (l <= b <= u)%Q -> (l <= lo)%Q /\ (hi <= u)%Q.
Proof.
  unfold Math_min, Math_max, Num.lt. cbn [Num.isNaN orb].
  case_Qle; cbn [negb]; do 2 eexists;
    (split; [reflexivity|]); (split; [reflexivity|]); (split; [lra|]);
    intros; lra.
Qed.

(** C8, with the range of the longitudes that the code normalizes: the
    decoder maps each corner longitude above 180 to [lon - 360], once, and
    takes the bounds as the minimum and the maximum of the two corners.  So
    [west <= east] and [south <= north] for every header, and
    [-180 <= west] and [east <= 180] when both longitudes of the header lie
    between -180 and 540 degrees. *)
Theorem parseGridTemplate0_bounds (buffer : list byte) (offset numPoints : Z) :
  let g := parseGridTemplate0 buffer offset numPoints in
  let divisor :=
    Num.of_Z (angleDivisor (readUint buffer (offset + 24) 4)
                           (readUint buffer (offset + 28) 4)) in
  let La1 := Num.div (Num.of_Z (readInt buffer (offset + 32) 4)) divisor in
  let Lo1 := Num.div (Num.of_Z (readInt buffer (offset + 36) 4)) divisor in
  let La2 := Num.div (Num.of_Z (readInt buffer (offset + 41) 4)) divisor in
  let Lo2 := Num.div (Num.of_Z (readInt buffer (offset + 45) 4)) divisor in
  (forall lon, Num.gt lon (Num.of_Z 180) = true ->
               normalize_lon lon = Num.sub lon (Num.of_Z 360)) /\
  lon1 g = Some (normalize_lon Lo1) /\
  lon2 g = Some (normalize_lon Lo2) /\
  exists b,
    grid_bounds g = Some b /\
    west b = Math_min (normalize_lon Lo1) (normalize_lon Lo2) /\
    east b = Math_max (normalize_lon Lo1) (normalize_lon Lo2) /\
    south b = Math_min La1 La2 /\
    north b = Math_max La1 La2 /\
    Num.le (west b) (east b) = true /\
    Num.le (south b) (north b) = true /\
    (Num.le (Num.of_Z (-180)) Lo1 = true -> Num.le Lo1 (Num.of_Z 540) = true ->
     Num.le (Num.of_Z (-180)) Lo2 = true -> Num.le Lo2 (Num.of_Z 540) = true ->
     Num.le (Num.of_Z (-180)) (west b) = true /\
     Num.le (east b) (Num.of_Z 180) = true).
Proof.
  intros g divisor La1 Lo1 La2 Lo2.
  split; [intros lon Hgt; unfold normalize_lon; rewrite Hgt; reflexivity|].
  split; [reflexivity|]. split; [reflexivity|].
  eexists. split; [reflexivity|]. cbn [west east south north].
  do 4 (split; [reflexivity|]).
  subst La1 Lo1 La2 Lo2 divisor.
  pose proof (angleDivisor_nonzero (readUint buffer (offset + 24) 4)
                (readUint buffer (offset + 28) 4)) as Hd.
  rewrite !div_of_Z by exact Hd.
  set (d := inject_Z (angleDivisor _ _)).
  set (a1 := (inject_Z (readInt buffer (offset + 32) 4) / d)%Q).
  set (o1 := (inject_Z (readInt buffer (offset + 36) 4) / d)%Q).
  set (a2 := (inject_Z (readInt buffer (offset + 41) 4) / d)%Q).
  set (o2 := (inject_Z (readInt buffer (offset + 45) 4) / d)%Q).
  destruct (normalize_lon_finite o1) as (n1 & -> & Hn1).
  destruct (normalize_lon_finite o2) as (n2 & -> & Hn2).
  destruct (Math_min_max_finite n1 n2) as (w & e & -> & -> & Hwe & Hlon).
  destruct (Math_min_max_finite a1 a2) as (s & n & -> & -> & Hsn & _).
  unfold Num.le, Num.of_Z.
  split; [apply Qle_bool_iff; exact Hwe|].
  split; [apply Qle_bool_iff; exact Hsn|].
  intros H1 H2 H3 H4.
  apply Qle_bool_iff in H1, H2, H3, H4. cbv [inject_Z] in H1, H2, H3, H4.
  destruct (Hlon (-180)%Q 180%Q) as [Hw He]; [apply Hn1; lra | apply Hn2; lra |].
  split; apply Qle_bool_iff; cbv [inject_Z]; lra.
Qed.

(** C8 as stated fails: for this header the bounds do not satisfy
    [east <= 180]. *)
Lemma parseGridTemplate0_east_above_180 :
  exists b,
    grid_bounds (parseGridTemplate0 header_lon_600 0 1) = Some b /\
    Num.eq (east b) (Num.of_Z 240) /\
    Num.le (east b) (Num.of_Z 180) = false.
Proof.
  eexists. split; [reflexivity|]. split; vm_compute; reflexivity.
Qed.

(** ** PNG packing *)

Lemma fold_insert_const_frame {A} (x : A) (a m : nat) (values : list A) :
  let r := fold_left (fun values i => <[i := x]> values) (seq a m) values in
  length r = length values /\
  forall k, (k < a)%nat -> r !! k = values !! k.
Proof.
  revert a values. induction m as [|m IH]; intros a values; cbn zeta.
  - cbn. split; [reflexivity | intros; reflexivity].
  - cbn [seq fold_left]. destruct (IH (S a) (<[a := x]> values)) as [IHlen IHframe].
    split; [rewrite IHlen, length_insert; reflexivity|].
    intros k Hk. rewrite IHframe by lia. apply list_lookup_insert_ne. lia.
Qed.

(** A loop that stores [f i] in cell [i] for every [i] below [n]. *)
Lemma fold_insert_cells {A} (step : list A -> nat -> list A) (f : nat -> A)
    (n : nat) (values : list A) :
  (forall values i, step values i = <[i := f i]> values) ->
  (n <= length values)%nat ->
  let r := fold_left step (seq 0 n) values in
  length r = length values /\
  (forall k, (k < n)%nat -> r !! k = Some (f k)) /\
  (forall k, (n <= k)%nat -> r !! k = values !! k).
Proof.
  intros Hstep. induction n as [|n IH]; intros Hlen; cbn zeta.
  - cbn. repeat split; intros; lia || reflexivity.
  - rewrite seq_S, fold_left_app. cbn [fold_left Nat.add].
    destruct IH as (IHlen & IHat & IHframe); [lia|].
    rewrite Hstep. split; [rewrite length_insert; exact IHlen|]. split.
    + intros k Hk. destruct (Nat.eq_dec k n) as [->|Hne].
      * apply list_lookup_insert_eq. lia.
      * rewrite list_lookup_insert_ne by lia. apply IHat. lia.
    + intros k Hk. rewrite list_lookup_insert_ne by lia. apply IHframe. lia.
Qed.

Lemma pixel_count_lt (img : raw_image) (k : Z) :
  Num.lt (Num.of_Z k) (pixel_count img)
    = (k * Zpos (channels img) <? buffer_length (data img)).
Proof.
  unfold pixel_count. rewrite div_of_Z by lia. unfold Num.lt, Num.of_Z.
  set (len := buffer_length (data img)). set (ch := channels img).
  destruct (Z.ltb_spec (k * Z.pos ch) len) as [Hlt|Hge].
  - apply negb_true_iff, Qle_bool_false. unfold Qle. cbn. lia.
  - apply negb_false_iff, Qle_bool_iff. unfold Qle. cbn. lia.
Qed.

Lemma png_loop_spec fuel img s5 (n : Z) values (i0 : Z) :
  0 <= i0 -> length values = Z.to_nat n -> (Z.to_nat (n - i0) <= fuel)%nat ->
  let r := png_loop fuel img s5 n values i0 in
  length r = length values /\
  (forall k, 0 <= k < i0 -> r !! Z.to_nat k = values !! Z.to_nat k) /\
  (forall k, i0 <= k < n -> k * Zpos (channels img) < buffer_length (data img) ->
     r !! Z.to_nat k = Some (png_cell s5 (png_packedValue img (bitsPerValue s5) k))).
Proof.
  revert values i0. induction fuel as [|fuel IH]; intros values i0 Hi0 Hlen Hfuel; cbn zeta.
  - cbn. repeat split; intros; lia || reflexivity.
  - cbn [png_loop]. rewrite pixel_count_lt.
    destruct (Z.ltb_spec i0 n) as [Hin|Hout]; cbn [andb].
    + destruct (Z.ltb_spec (i0 * Z.pos (channels img)) (buffer_length (data img)))
        as [Hpix|Hnopix].
      * set (cell := png_cell s5 _).
        destruct (IH (<[Z.to_nat i0 := cell]> values) (i0 + 1)) as (IHlen & IHframe & IHat);
          [lia | rewrite length_insert; exact Hlen | lia |].
        split; [rewrite IHlen, length_insert; reflexivity|]. split.
        -- intros k Hk. rewrite IHframe by lia. apply list_lookup_insert_ne. lia.
        -- intros k Hk Hkpix. destruct (Z.eq_dec k i0) as [->|Hne].
           ++ rewrite IHframe by lia. apply list_lookup_insert_eq. lia.
           ++ apply IHat; lia.
      * repeat split; intros; try reflexivity. nia.
    + repeat split; intros; try reflexivity. lia.
Qed.

Lemma png_rest_frame img (n : Z) values :
  let r := png_rest img n values in
  length r = length values /\
  forall k, 0 <= k -> k * Zpos (channels img) < buffer_length (data img) ->
    r !! Z.to_nat k = values !! Z.to_nat k.
Proof.
  unfold png_rest. cbn zeta.
  set (len := buffer_length (data img)). set (ch := Z.pos (channels img)).
  destruct (Z.eqb_spec (Z.rem len ch) 0) as [Hdiv|Hndiv].
  - destruct (fold_insert_const_frame (Num.of_Z (-999)) (Z.to_nat (len / ch))
                (Z.to_nat n - Z.to_nat (len / ch)) values) as [Hlen Hframe].
    split; [exact Hlen|]. intros k Hk Hpix. apply Hframe.
    assert (0 <= len) by (subst len; unfold buffer_length; lia).
    assert (len mod ch = 0) as Hmod by (rewrite <- Z.rem_mod_nonneg; subst ch; lia).
    assert (len = ch * (len / ch)) as Hexact by (apply Z.div_exact; subst ch; lia).
    assert (k < len / ch) by (subst ch; nia).
    lia.
  - split; reflexivity.
Qed.

(** The cells of the fallback: the byte at [8 + i], scaled, or -999 past
    the end of the data section. *)
Lemma unpackPngFallback_cells dataBuffer s5 (numPoints : Z) :
  0 <= numPoints ->
  exists values,
    unpackPngFallback dataBuffer s5 numPoints = Ok values /\
    length values = Z.to_nat numPoints /\
    forall i, 0 <= i < numPoints ->
      values !! Z.to_nat i =
        Some (if 8 + i <? buffer_length dataBuffer
              then scale s5 (Num.of_undef (buffer_at dataBuffer (8 + i)))
              else Num.of_Z (-999)).
Proof.
  intros Hn. unfold unpackPngFallback, Float32Array_new.
  destruct (Z.ltb_spec numPoints 0); [lia|]. cbn [mbind result_bind].
  rewrite length_replicate. eexists. split; [reflexivity|].
  set (f := fun i : nat =>
              if 8 + Z.of_nat i <? buffer_length dataBuffer
              then scale s5 (Num.of_undef (buffer_at dataBuffer (8 + Z.of_nat i)))
              else Num.of_Z (-999)).
  edestruct (fold_insert_cells
               (fun values (i : nat) =>
                  if 8 + Z.of_nat i <? buffer_length dataBuffer
                  then <[i := scale s5 (Num.of_undef (buffer_at dataBuffer (8 + Z.of_nat i)))]> values
                  else <[i := Num.of_Z (-999)]> values)
               f (Z.to_nat numPoints) (replicate (Z.to_nat numPoints) (Num.of_Z 0)))
    as (Hlen & Hat & _).
  { intros values i. subst f. cbn beta. destruct (_ <? _); reflexivity. }
  { rewrite length_replicate. lia. }
  split; [rewrite Hlen, length_replicate; reflexivity|].
  intros i Hi. rewrite Hat by lia. subst f. cbn beta. rewrite Z2Nat.id by lia. reflexivity.
Qed.



(** ** Simple packing *)

Lemma pow2_pos k : 0 <= k -> 0 < 2 ^ k.
Proof. intros. apply Z.pow_pos_nonneg; lia. Qed.

Lemma be_value_app bs cs :
  be_value (bs ++ cs) = be_value bs * 2 ^ (8 * Z.of_nat (length cs)) + be_value cs.
Proof.
  induction cs as [|c cs IH] using rev_ind.
  - rewrite app_nil_r. cbn. lia.
  - rewrite app_assoc, !be_value_snoc, IH, length_app. cbn [length].
    replace (8 * Z.of_nat (length cs + 1)) with (8 * Z.of_nat (length cs) + 8) by lia.
    rewrite Z.pow_add_r by lia. change (2 ^ 8) with 256. lia.
Qed.

(** The byte at index [k] of a buffer, out of its big-endian value. *)
Lemma byte_of_be_value (dataBuffer : list byte) (k : nat) b :
  dataBuffer !! k = Some b ->
  byte_val b =
    (be_value (map byte_val dataBuffer)
       / 2 ^ (8 * (Z.of_nat (length dataBuffer) - 1 - Z.of_nat k))) mod 2 ^ 8.
Proof.
  intros Hk. pose proof (lookup_lt_Some _ _ _ Hk) as Hlt.
  rewrite <- (take_drop_middle dataBuffer k b Hk) at 1.
  rewrite map_app, map_cons, be_value_app.
  change (byte_val b :: map byte_val (drop (S k) dataBuffer))
    with ([byte_val b] ++ map byte_val (drop (S k) dataBuffer)).
  rewrite be_value_app. cbn [length].
  rewrite !length_app, !length_map, length_drop. cbn [length].
  set (hi := be_value (map byte_val (take k dataBuffer))).
  set (lo := be_value (map byte_val (drop (S k) dataBuffer))).
  assert (0 <= lo < 2 ^ (8 * Z.of_nat (length dataBuffer - S k))) as Hlo.
  { pose proof (be_value_range (map byte_val (drop (S k) dataBuffer))) as Hr.
    rewrite length_map, length_drop in Hr.
    replace (256 ^ Z.of_nat (length dataBuffer - S k))
      with (2 ^ (8 * Z.of_nat (length dataBuffer - S k))) in Hr
      by (rewrite Z.pow_mul_r by lia; reflexivity).
    apply Hr. apply Forall_map, Forall_forall. intros ? _. apply byte_val_range. }
  replace (8 * (Z.of_nat (length dataBuffer) - 1 - Z.of_nat k))
    with (8 * Z.of_nat (length dataBuffer - S k)) by lia.
  set (m := 8 * Z.of_nat (length dataBuffer - S k)) in *.
  assert (be_value [byte_val b] = byte_val b) as -> by (unfold be_value; cbn; lia).
  replace (8 * Z.of_nat (1 + (length dataBuffer - S k))) with (8 + m) by lia.
  rewrite Z.pow_add_r by lia.
  pose proof (byte_val_range b). pose proof (pow2_pos m ltac:(lia)).
  replace (hi * (2 ^ 8 * 2 ^ m) + (byte_val b * 2 ^ m + lo))
    with ((hi * 2 ^ 8 + byte_val b) * 2 ^ m + lo) by lia.
  rewrite Z.div_add_l by lia. rewrite (Z.div_small lo) by lia.
  rewrite Z.add_0_r, Z.add_comm, Z.mod_add by lia.
  symmetry. apply Z.mod_small. change (2 ^ 8) with 256. lia.
Qed.

Lemma mod_pow2_split U c t :
  0 <= c -> 0 <= t ->
  U mod 2 ^ (c + t) = ((U / 2 ^ t) mod 2 ^ c) * 2 ^ t + U mod 2 ^ t.
Proof.
  intros Hc Ht. pose proof (pow2_pos c Hc). pose proof (pow2_pos t Ht).
  rewrite (Z.add_comm c t), Z.pow_add_r, Z.rem_mul_r by lia. lia.
Qed.

Lemma sub_byte_bits X sh t :
  0 <= sh -> 0 <= t -> sh + t <= 8 ->
  ((X mod 2 ^ 8) / 2 ^ sh) mod 2 ^ t = (X / 2 ^ sh) mod 2 ^ t.
Proof.
  intros Hsh Ht Hle.
  rewrite <- !Z.land_ones, <- !Z.shiftr_div_pow2 by lia.
  Z.bitblast.
Qed.

(** Appending to a field the next [t] bits, which lie in one byte. *)
Lemma bit_field_step (dataBuffer : list byte) (off c t pos : Z) (k : nat) b :
  0 <= off -> 0 <= c -> 1 <= t -> 0 <= pos -> pos + t <= 8 ->
  8 * Z.of_nat k + pos = off + c ->
  dataBuffer !! k = Some b ->
  bit_field dataBuffer off (c + t) =
    bit_field dataBuffer off c * 2 ^ t + (byte_val b / 2 ^ (8 - pos - t)) mod 2 ^ t.
Proof.
  intros Hoff Hc Ht Hpos Hfit Hat Hk.
  pose proof (lookup_lt_Some _ _ _ Hk) as Hlt.
  unfold bit_field, buffer_length.
  set (V := be_value (map byte_val dataBuffer)).
  set (N := 8 * Z.of_nat (length dataBuffer)).
  rewrite (byte_of_be_value dataBuffer k b Hk). fold V.
  set (M := 8 * (Z.of_nat (length dataBuffer) - 1 - Z.of_nat k)).
  set (sh := 8 - pos - t).
  assert (0 <= M) by (subst M; lia).
  assert (0 <= sh) by (subst sh; lia).
  rewrite sub_byte_bits by (subst sh; lia).
  rewrite Z.div_div, <- Z.pow_add_r by (try apply pow2_pos; lia).
  replace (N - off - (c + t)) with (M + sh) by (subst N M sh; lia).
  replace (N - off - c) with ((M + sh) + t) by (subst N M sh; lia).
  rewrite (Z.pow_add_r 2 (M + sh) t), <- Z.div_div by (try apply pow2_pos; lia).
  apply mod_pow2_split; lia.
Qed.

Lemma lor_low_bits w r t :
  0 <= t -> w mod 2 ^ t = 0 -> 0 <= r < 2 ^ t -> Z.lor w r = w + r.
Proof.
  intros Ht Hw Hr. rewrite <- (Z.add_lor_land w r).
  assert (Z.land w r = 0) as ->; [|lia].
  replace r with (r mod 2 ^ t) by (apply Z.mod_small; lia).
  rewrite (Z.div_mod w (2 ^ t)), Hw, Z.add_0_r, Z.mul_comm by lia.
  Z.bitblast. rewrite Z.mul_pow2_bits_low by lia. reflexivity.
Qed.

Lemma bit_field_range dataBuffer off c :
  0 <= c -> 0 <= bit_field dataBuffer off c < 2 ^ c.
Proof. intros Hc. unfold bit_field. apply Z.mod_pos_bound, pow2_pos, Hc. Qed.

Lemma pow2_le_31 k : 0 <= k <= 31 -> 2 ^ k <= 2 ^ 31.
Proof. intros. apply Z.pow_le_mono_r; lia. Qed.

Lemma readBits_step_inv dataBuffer off bits s :
  0 <= off -> bits <= 31 -> off + bits <= 8 * buffer_length dataBuffer ->
  bits_inv dataBuffer off bits s -> 0 < bitsRemaining s ->
  bits_inv dataBuffer off bits (readBits_step dataBuffer s) /\
  bitsRemaining (readBits_step dataBuffer s) < bitsRemaining s.
Proof.
  intros Hoff Hbits Hfit (Hrem & Hpos & Hbyte & Hat & Hpacked) Hgo.
  destruct s as [packed remaining byte pos]. cbn [packedValue bitsRemaining currentByte currentBitPos] in *.
  set (c := bits - remaining) in *.
  set (t := Z.min remaining (8 - pos)).
  assert (1 <= t <= 8 /\ t <= remaining /\ pos + t <= 8) as (Ht & Htrem & Htpos) by (subst t; lia).
  assert (byte < buffer_length dataBuffer) as Hin by lia.
  assert (exists b, dataBuffer !! Z.to_nat byte = Some b) as [b Hb].
  { apply lookup_lt_is_Some_2. unfold buffer_length in Hin. lia. }
  assert (buffer_at dataBuffer byte = Some (byte_val b)) as Hread.
  { unfold buffer_at. destruct (Z.ltb_spec byte 0); [lia|]. rewrite Hb. reflexivity. }
  pose proof (byte_val_range b) as HB.
  pose proof (bit_field_range dataBuffer off c ltac:(lia)) as Hfield.
  pose proof (pow2_pos t ltac:(lia)) as Hpt.
  assert (2 ^ t <= 2 ^ 8) as Hpt8 by (apply Z.pow_le_mono_r; lia).
  change (2 ^ 8) with 256 in Hpt8.
  assert (2 ^ (c + t) <= 2 ^ 31) as Hct by (apply pow2_le_31; lia).
  rewrite Z.pow_add_r in Hct by lia. change (2 ^ 31) with 2147483648 in Hct.
  (* the new packed value *)
  assert (JS.or (JS.shl packed t)
            (JS.and (JS.shr (JS.int_of (buffer_at dataBuffer byte)) (8 - pos - t))
                    (JS.shl 1 t - 1))
          = bit_field dataBuffer off (c + t)) as Hnew.
  { rewrite Hread. cbn [JS.int_of default]. unfold id.
    rewrite (bit_field_step dataBuffer off c t pos (Z.to_nat byte) b) by (lia || exact Hb).
    rewrite <- Hpacked.
    set (sh := 8 - pos - t).
    assert (0 <= byte_val b / 2 ^ sh < 256) as Hq.
    { pose proof (pow2_pos sh ltac:(subst sh; lia)).
      split; [apply Z.div_pos; lia|].
      apply Z.div_lt_upper_bound; nia. }
    assert (JS.shr (byte_val b) sh = byte_val b / 2 ^ sh) as ->.
    { unfold JS.shr. rewrite ToInt32_small by (change (2 ^ 31) with 2147483648; lia).
      rewrite Z.mod_small by (subst sh; lia).
      apply Z.shiftr_div_pow2. subst sh; lia. }
    assert (JS.shl 1 t = 2 ^ t) as ->.
    { unfold JS.shl. rewrite (ToInt32_small 1) by (change (2 ^ 31) with 2147483648; lia).
      rewrite Z.mod_small by lia. rewrite Z.shiftl_mul_pow2, Z.mul_1_l by lia.
      apply ToInt32_small. change (2 ^ 31) with 2147483648. lia. }
    assert (JS.and (byte_val b / 2 ^ sh) (2 ^ t - 1) = (byte_val b / 2 ^ sh) mod 2 ^ t) as ->.
    { unfold JS.and. rewrite !ToInt32_small by (change (2 ^ 31) with 2147483648; lia).
      apply land_mask. lia. }
    assert (JS.shl packed t = packed * 2 ^ t) as ->.
    { unfold JS.shl. rewrite (ToInt32_small packed) by (change (2 ^ 31) with 2147483648; nia).
      rewrite Z.mod_small by lia. rewrite Z.shiftl_mul_pow2 by lia.
      apply ToInt32_small. change (2 ^ 31) with 2147483648. nia. }
    pose proof (Z.mod_pos_bound (byte_val b / 2 ^ sh) (2 ^ t) Hpt) as Hr.
    unfold JS.or. rewrite !ToInt32_small by (change (2 ^ 31) with 2147483648; nia).
    apply (lor_low_bits _ _ t); [lia | apply Z.mod_mul; lia | exact Hr]. }
  unfold readBits_step, bits_inv.
  cbn [packedValue bitsRemaining currentByte currentBitPos]. fold t.
  destruct (Z.ltb_spec byte (buffer_length dataBuffer)) as [_|?]; [|lia].
  rewrite Hnew.
  replace (bits - (remaining - t)) with (c + t) by (subst c; lia).
  destruct (Z.geb_spec (pos + t) 8); cbn [packedValue bitsRemaining currentByte currentBitPos];
    (split; [|lia]); repeat split; try lia; f_equal; subst c; lia.
Qed.

Lemma readBits_loop_inv fuel dataBuffer off bits s :
  0 <= off -> bits <= 31 -> off + bits <= 8 * buffer_length dataBuffer ->
  bits_inv dataBuffer off bits s -> (Z.to_nat (bitsRemaining s) <= fuel)%nat ->
  packedValue (readBits_loop fuel dataBuffer s) = bit_field dataBuffer off bits.
Proof.
  intros Hoff Hbits Hfit. revert s.
  induction fuel as [|fuel IH]; intros s Hinv Hfuel.
  - cbn. destruct Hinv as (Hrem & _ & _ & _ & ->). f_equal. lia.
  - cbn [readBits_loop]. destruct (Z.gtb_spec (bitsRemaining s) 0) as [Hgo|Hend].
    + destruct (readBits_step_inv dataBuffer off bits s Hoff Hbits Hfit Hinv ltac:(lia))
        as [Hinv' Hless].
      apply IH; [exact Hinv'|].
      destruct Hinv' as (Hrem' & _). lia.
    + destruct Hinv as (Hrem & _ & _ & _ & ->). f_equal. lia.
Qed.

(** The bit loop ends within the turns that [readPacked] gives it, for
    every width: a turn takes at least one bit. *)
Lemma readBits_loop_complete fuel dataBuffer s :
  0 <= currentBitPos s < 8 -> bitsRemaining s <= Z.of_nat fuel ->
  bitsRemaining (readBits_loop fuel dataBuffer s) <= 0.
Proof.
  revert s. induction fuel as [|fuel IH]; intros s Hpos Hrem; cbn [readBits_loop].
  - lia.
  - destruct (Z.gtb_spec (bitsRemaining s) 0) as [Hgt|Hle]; [|exact Hle].
    apply IH; unfold readBits_step;
      destruct (Z.geb_spec (currentBitPos s
                            + Z.min (bitsRemaining s) (8 - currentBitPos s)) 8);
      cbn [currentBitPos bitsRemaining]; lia.
Qed.

(** For a width of 1 to 31 bits and a field that lies inside the data
    section, the loop reads the field. *)
Lemma readPacked_bit_field dataBuffer bits off :
  1 <= bits <= 31 -> 0 <= off -> off + bits <= 8 * buffer_length dataBuffer ->
  readPacked dataBuffer bits off = bit_field dataBuffer off bits.
Proof.
  intros Hbits Hoff Hfit. unfold readPacked.
  apply readBits_loop_inv; try lia.
  unfold bits_inv. cbn [packedValue bitsRemaining currentByte currentBitPos].
  rewrite Z.rem_mod_nonneg by lia.
  replace (bits - bits) with 0 by lia.
  repeat split; try lia.
  - apply Z.mod_pos_bound; lia.
  - apply Z.mod_pos_bound; lia.
  - apply Z.div_pos; lia.
  - rewrite Z.add_0_r. symmetry. apply Z.div_mod. lia.
  - unfold bit_field. rewrite Z.mod_1_r. reflexivity.
  - cbn. lia.
Qed.

(** The loop over the cells after its first [m] turns. *)
Lemma unpackSimple_loop_prefix dataBuffer s5 bits (values : list jsnum) (m : nat) :
  (m <= length values)%nat ->
  let r := fold_left (unpackSimple_step dataBuffer s5 bits) (seq 0 m) (values, 0) in
  snd r = Z.of_nat m * bits /\
  length (fst r) = length values /\
  forall i, (i < m)%nat ->
    fst r !! i = Some (scale s5 (Num.of_Z (readPacked dataBuffer bits (Z.of_nat i * bits)))).
Proof.
  induction m as [|m IH]; intros Hm; cbn zeta.
  - cbn. repeat split; intros; lia.
  - rewrite seq_S, fold_left_app. cbn [fold_left Nat.add].
    destruct IH as (IHoff & IHlen & IHat); [lia|].
    destruct (fold_left _ (seq 0 m) (values, 0)) as [vs bitOffset].
    cbn [fst snd] in *. unfold unpackSimple_step. cbn [fst snd].
    split; [lia|]. split; [rewrite length_insert; exact IHlen|].
    intros i Hi. destruct (Nat.eq_dec i m) as [->|Hne].
    + rewrite list_lookup_insert_eq by lia. rewrite IHoff. reflexivity.
    + rewrite list_lookup_insert_ne by lia. apply IHat. lia.
Qed.



(** ** Simple packing at the width 32 *)

(** C3, at the width 32 with the top bit of the field set: the four bytes
    FF FF FF FF hold the 32-bit field 4294967295, and with R = 0, E = 0,
    D = 0 the cell should be that value; the code stores -1. *)
Theorem unpackSimple_width_32_negative :
  exists field,
    unpackSimple [xff; xff; xff; xff] (packing_unit 0 32) 1 = Ok field /\
    field_eq field [Num.of_Z (-1)] /\
    readPacked [xff; xff; xff; xff] 32 0 = -1 /\
    bit_field [xff; xff; xff; xff] 0 32 = 4294967295.
Proof.
  eexists. split; [vm_compute; reflexivity|].
  split; [repeat constructor|]. split; vm_compute; reflexivity.
Qed.

(** ** The parser *)

(** Run a stage of a parse whose result is known. *)
Ltac run_stage H := rewrite H; cbn [mbind result_bind].

Lemma throws_later_bind {A B} (m : result A) (f : A -> result B) :
  throws_later m -> (forall a, m = Ok a -> throws_later (f a)) ->
  throws_later (m ≫= f).
Proof.
  intros Hm Hf e. destruct m as [a|e'|]; cbn.
  - apply Hf. reflexivity.
  - intros [= <-]. apply Hm. reflexivity.
  - discriminate.
Qed.

Lemma throws_later_Ok {A} (a : A) : throws_later (Ok a).
Proof. intros e. discriminate. Qed.

Lemma throws_later_Throw {A} e : later_error e -> throws_later (@Throw A e).
Proof. intros He e' [= <-]. exact He. Qed.

Lemma Float32Array_new_later n : throws_later (Float32Array_new n).
Proof.
  unfold Float32Array_new. destruct (n <? 0);
    [apply throws_later_Throw; exact I | apply throws_later_Ok].
Qed.

Lemma unpackSimple_later dataBuffer s5 n : throws_later (unpackSimple dataBuffer s5 n).
Proof.
  unfold unpackSimple. apply throws_later_bind; [apply Float32Array_new_later|].
  intros values _. destruct (bitsPerValue s5) as [[| |]|]; apply throws_later_Ok.
Qed.

Lemma unpackJpeg2000Fallback_later dataBuffer s5 n :
  throws_later (unpackJpeg2000Fallback dataBuffer s5 n).
Proof.
  unfold unpackJpeg2000Fallback. apply throws_later_bind; [apply Float32Array_new_later|].
  intros values _. apply throws_later_Ok.
Qed.

Lemma unpackPngFallback_later dataBuffer s5 n :
  throws_later (unpackPngFallback dataBuffer s5 n).
Proof.
  unfold unpackPngFallback. apply throws_later_bind; [apply Float32Array_new_later|].
  intros values _. apply throws_later_Ok.
Qed.

Lemma unpackPng_later sharp dataBuffer s5 n :
  throws_later (unpackPng sharp dataBuffer s5 n).
Proof.
  unfold unpackPng. destruct (sharp dataBuffer); [|apply unpackPngFallback_later].
  destruct (Float32Array_new n); [apply throws_later_Ok | apply unpackPngFallback_later..].
Qed.

Lemma unpackRunLength_later dataBuffer n : throws_later (unpackRunLength dataBuffer n).
Proof.
  unfold unpackRunLength. apply throws_later_bind; [apply Float32Array_new_later|].
  intros values _. apply throws_later_Ok.
Qed.

Lemma parseSection7_later sharp buffer offset s5 g :
  throws_later (parseSection7 sharp buffer offset s5 g).
Proof.
  unfold parseSection7. destruct (negb _); [apply throws_later_Throw; exact I|].
  apply throws_later_bind; [|intros; apply throws_later_Ok].
  repeat (destruct (_ =? _);
          [first [apply unpackSimple_later | apply unpackJpeg2000Fallback_later
                 | apply unpackPng_later | apply unpackRunLength_later]|]).
  apply throws_later_Throw. exact I.
Qed.

Lemma readFloat32_later buffer offset : throws_later (readFloat32 buffer offset).
Proof.
  unfold readFloat32. destruct (_ || _);
    [apply throws_later_Throw; exact I | apply throws_later_Ok].
Qed.

Lemma parseSection5_later buffer offset : throws_later (parseSection5 buffer offset).
Proof.
  unfold parseSection5. destruct (negb _); [apply throws_later_Throw; exact I|].
  destruct (_ || _); [|apply throws_later_Ok].
  apply throws_later_bind; [apply readFloat32_later | intros; apply throws_later_Ok].
Qed.

Lemma parseSection3_later buffer offset : throws_later (parseSection3 buffer offset).
Proof.
  unfold parseSection3. destruct (negb _);
    [apply throws_later_Throw; exact I | apply throws_later_Ok].
Qed.

Lemma parseSection1_later buffer offset : throws_later (parseSection1 buffer offset).
Proof.
  unfold parseSection1. destruct (negb _);
    [apply throws_later_Throw; exact I | apply throws_later_Ok].
Qed.

Lemma findSection_later fuel buffer offset n : throws_later (findSection fuel buffer offset n).
Proof.
  revert offset. induction fuel as [|fuel IH]; intros offset; cbn [findSection].
  - intros e. discriminate.
  - destruct (_ <? _); [|apply throws_later_Ok].
    destruct (bool_decide _); [apply throws_later_Ok|].
    destruct (_ || _); [apply throws_later_Ok | apply IH].
Qed.

Lemma findSection_no_throw fuel buffer offset n e :
  findSection fuel buffer offset n <> Throw e.
Proof.
  revert offset. induction fuel as [|fuel IH]; intros offset; cbn [findSection].
  - discriminate.
  - destruct (_ <? _); [|discriminate].
    destruct (bool_decide _); [discriminate|].
    destruct (_ || _); [discriminate | apply IH].
Qed.

(** A scan that has returned returns the same with more fuel. *)
Lemma findSection_more_fuel fuel (k : nat) buffer offset n r :
  findSection fuel buffer offset n = Ok r ->
  findSection (fuel + k) buffer offset n = Ok r.
Proof.
  revert offset. induction fuel as [|fuel IH]; intros offset; cbn [findSection Nat.add].
  - discriminate.
  - destruct (_ <? _); [|trivial].
    destruct (bool_decide _); [trivial|].
    destruct (_ || _); [trivial | apply IH].
Qed.

(** A parse that has ended ends the same with more fuel. *)
Lemma parseGrib2_more_fuel fuel (k : nat) sharp buffer :
  parseGrib2 fuel sharp buffer <> OutOfFuel ->
  parseGrib2 (fuel + k) sharp buffer = parseGrib2 fuel sharp buffer.
Proof.
  intros Hne. unfold parseGrib2 in *.
  destruct (parseSection0 buffer) as [s0| |]; cbn [mbind result_bind] in *; [|reflexivity..].
  destruct (parseSection1 buffer 16) as [s1| |]; cbn [mbind result_bind] in *; [|reflexivity..].
  destruct (timestamp s1) as [t|]; cbn [mbind result_bind] in *; [|reflexivity].
  set (start := if bool_decide _ then _ else _) in *.
  destruct (findSection fuel buffer start 3) as [o3|e|] eqn:H3;
    cbn [mbind result_bind] in *;
    [| destruct (findSection_no_throw _ _ _ _ _ H3) | exfalso; apply Hne; reflexivity].
  rewrite (findSection_more_fuel _ k _ _ _ _ H3). cbn [mbind result_bind].
  destruct (o3 =? -1); [reflexivity|].
  destruct (parseSection3 buffer o3) as [s3| |]; cbn [mbind result_bind] in *; [|reflexivity..].
  destruct (findSection fuel buffer (o3 + s3_length s3) 5) as [o5|e|] eqn:H5;
    cbn [mbind result_bind] in *;
    [| destruct (findSection_no_throw _ _ _ _ _ H5) | exfalso; apply Hne; reflexivity].
  rewrite (findSection_more_fuel _ k _ _ _ _ H5). cbn [mbind result_bind].
  destruct (o5 =? -1); [reflexivity|].
  destruct (parseSection5 buffer o5) as [s5| |]; cbn [mbind result_bind] in *; [|reflexivity..].
  destruct (findSection fuel buffer (o5 + s5_length s5) 7) as [o7|e|] eqn:H7;
    cbn [mbind result_bind] in *;
    [| destruct (findSection_no_throw _ _ _ _ _ H7) | exfalso; apply Hne; reflexivity].
  rewrite (findSection_more_fuel _ k _ _ _ _ H7). cbn [mbind result_bind].
  reflexivity.
Qed.

(** What follows section 0 in [parseGrib2]. *)
Lemma parseGrib2_after_section0 fuel sharp buffer s0 :
  parseSection0 buffer = Ok s0 -> throws_later (parseGrib2 fuel sharp buffer).
Proof.
  intros H0. unfold parseGrib2. rewrite H0. cbn [mbind result_bind].
  apply throws_later_bind; [apply parseSection1_later|]. intros s1 _.
  apply throws_later_bind.
  { destruct (timestamp s1); [apply throws_later_Ok | apply throws_later_Throw; exact I]. }
  intros t _.
  apply throws_later_bind; [apply findSection_later|]. intros o3 _.
  destruct (o3 =? -1); [apply throws_later_Throw; exact I|].
  apply throws_later_bind; [apply parseSection3_later|]. intros s3 _.
  apply throws_later_bind; [apply findSection_later|]. intros o5 _.
  destruct (o5 =? -1); [apply throws_later_Throw; exact I|].
  apply throws_later_bind; [apply parseSection5_later|]. intros s5 _.
  apply throws_later_bind; [apply findSection_later|]. intros o7 _.
  destruct (o7 =? -1); [apply throws_later_Throw; exact I|].
  apply throws_later_bind; [apply parseSection7_later|]. intros s7 _.
  apply throws_later_Ok.
Qed.

Lemma parseGrib2_section0 fuel sharp buffer e :
  parseSection0 buffer = Throw e -> parseGrib2 fuel sharp buffer = Throw e.
Proof. intros H0. unfold parseGrib2. rewrite H0. reflexivity. Qed.

Lemma parseGrib2_InvalidFormat fuel sharp buffer :
  parseGrib2 fuel sharp buffer = Throw InvalidFormat <-> ~ magic_accepted buffer.
Proof.
  unfold magic_accepted. split.
  - intros Hthrow Hmagic.
    destruct (parseSection0 buffer) as [s0|e|] eqn:H0.
    + apply (parseGrib2_after_section0 fuel sharp buffer s0 H0) in Hthrow. exact Hthrow.
    + rewrite (parseGrib2_section0 fuel sharp buffer e H0) in Hthrow.
      injection Hthrow as ->. unfold parseSection0 in H0.
      rewrite Hmagic in H0. cbn in H0.
      destruct (negb _); [discriminate|]. destruct (_ <? _); discriminate.
    + unfold parseSection0 in H0. destruct (negb _); [discriminate|].
      destruct (negb _); [discriminate|]. destruct (_ <? _); discriminate.
  - intros Hmagic. apply parseGrib2_section0. unfold parseSection0.
    destruct (String.eqb_spec (toString_ascii (buffer_slice buffer 0 4)) "GRIB") as [E|E];
      [contradiction | reflexivity].
Qed.

Lemma parseGrib2_UnsupportedEdition fuel sharp buffer (edition : option Z) :
  magic_accepted buffer ->
  parseGrib2 fuel sharp buffer = Throw (UnsupportedEdition edition) <->
  edition = buffer_at buffer 7 /\ buffer_at buffer 7 <> Some 2.
Proof.
  unfold magic_accepted. intros Hmagic.
  assert (parseSection0 buffer =
            if negb (bool_decide (buffer_at buffer 7 = Some 2))
            then Throw (UnsupportedEdition (buffer_at buffer 7))
            else if buffer_length buffer <? 16 then Throw RangeError
            else Ok {| discipline := buffer_at buffer 6; edition := buffer_at buffer 7;
                       totalLength := be_value (octets buffer 8 8) |}) as H0.
  { unfold parseSection0. rewrite Hmagic. reflexivity. }
  split.
  - intros Hthrow. destruct (parseSection0 buffer) as [s0|e|] eqn:E0.
    + apply (parseGrib2_after_section0 fuel sharp buffer s0 E0) in Hthrow. contradiction.
    + rewrite (parseGrib2_section0 fuel sharp buffer e E0) in Hthrow.
      injection Hthrow as ->.
      destruct (bool_decide (buffer_at buffer 7 = Some 2)) eqn:Ed; cbn in H0.
      * destruct (_ <? _); discriminate.
      * injection H0 as ->. apply bool_decide_eq_false in Ed. split; [reflexivity | exact Ed].
    + destruct (negb _); [discriminate|]. destruct (_ <? _); discriminate.
  - intros [-> Hed]. apply parseGrib2_section0. rewrite H0.
    rewrite bool_decide_eq_false_2 by exact Hed. reflexivity.
Qed.

(** The two errors of section 0.  The parse fails with InvalidFormat
    exactly when the first four bytes, their top bits cleared, are not
    "GRIB"; and, when they are, with UnsupportedEdition exactly when byte 7
    is not 2. *)
Theorem parseGrib2_section0_errors (fuel : nat)
    (sharp : list byte -> option raw_image) (buffer : list byte) :
  (parseGrib2 fuel sharp buffer = Throw InvalidFormat <->
   toString_ascii (buffer_slice buffer 0 4) <> "GRIB"%string) /\
  (toString_ascii (buffer_slice buffer 0 4) = "GRIB"%string ->
   forall edition,
     parseGrib2 fuel sharp buffer = Throw (UnsupportedEdition edition) <->
     edition = buffer_at buffer 7 /\ buffer_at buffer 7 <> Some 2).
Proof.
  split.
  - apply parseGrib2_InvalidFormat.
  - intros Hmagic edition. apply parseGrib2_UnsupportedEdition. exact Hmagic.
Qed.

Lemma getRadarData_error fuel sharp encode buffer e :
  parseGrib2 fuel sharp buffer = Throw e ->
  getRadarData fuel sharp encode buffer = Throw e.
Proof. intros H. unfold getRadarData. rewrite H. reflexivity. Qed.

(** A required section that the scan does not find: the parse fails with
    MissingSection, and the pipeline returns neither image nor metadata.
    The message with the sections 0, 1, 5, 7 fails with MissingSection(3),
    whatever fuel the scans get from 8 on. *)
Theorem parseGrib2_MissingSection (fuel : nat) (sharp : list byte -> option raw_image)
    (encode : png_encoder) (buffer : list byte) (s0 : section0) (s1 : section1)
    (t : datetime)
    (H0 : parseSection0 buffer = Ok s0)
    (H1 : parseSection1 buffer 16 = Ok s1)
    (Ht : timestamp s1 = Some t) :
  (findSection fuel buffer (scan_start buffer s1) 3 = Ok (-1) ->
   parseGrib2 fuel sharp buffer = Throw (MissingSection 3) /\
   getRadarData fuel sharp encode buffer = Throw (MissingSection 3)) /\
  (forall o3 s3,
     findSection fuel buffer (scan_start buffer s1) 3 = Ok o3 -> o3 <> -1 ->
     parseSection3 buffer o3 = Ok s3 ->
     (findSection fuel buffer (o3 + s3_length s3) 5 = Ok (-1) ->
      parseGrib2 fuel sharp buffer = Throw (MissingSection 5) /\
      getRadarData fuel sharp encode buffer = Throw (MissingSection 5)) /\
     (forall o5 s5,
        findSection fuel buffer (o3 + s3_length s3) 5 = Ok o5 -> o5 <> -1 ->
        parseSection5 buffer o5 = Ok s5 ->
        findSection fuel buffer (o5 + s5_length s5) 7 = Ok (-1) ->
        parseGrib2 fuel sharp buffer = Throw (MissingSection 7) /\
        getRadarData fuel sharp encode buffer = Throw (MissingSection 7))) /\
  (forall k : nat,
     parseGrib2 (8 + k) sharp message_without_section3 = Throw (MissingSection 3) /\
     getRadarData (8 + k) sharp encode message_without_section3
       = Throw (MissingSection 3)).
Proof.
  assert (forall e, parseGrib2 fuel sharp buffer = Throw e ->
            parseGrib2 fuel sharp buffer = Throw e /\
            getRadarData fuel sharp encode buffer = Throw e) as Hboth
    by (intros e He; split; [exact He | apply getRadarData_error; exact He]).
  split; [|split].
  - intros H3. apply Hboth. unfold parseGrib2.
    run_stage H0. run_stage H1. run_stage Ht.
    fold (scan_start buffer s1). run_stage H3. reflexivity.
  - intros o3 s3 H3 Hne3 Hs3. apply Z.eqb_neq in Hne3. split.
    + intros H5. apply Hboth. unfold parseGrib2.
      run_stage H0. run_stage H1. run_stage Ht.
      fold (scan_start buffer s1). run_stage H3. rewrite Hne3.
      run_stage Hs3. run_stage H5. reflexivity.
    + intros o5 s5 H5 Hne5 Hs5 H7. apply Z.eqb_neq in Hne5.
      apply Hboth. unfold parseGrib2.
      run_stage H0. run_stage H1. run_stage Ht.
      fold (scan_start buffer s1). run_stage H3. rewrite Hne3.
      run_stage Hs3. run_stage H5. rewrite Hne5.
      run_stage Hs5. run_stage H7. reflexivity.
  - intros k. split; [|apply getRadarData_error]; vm_compute; reflexivity.
Qed.

Lemma parseGrib2_MissingSection_witness :
  parseGrib2 8 sharp_fails message_without_section3 = Throw (MissingSection 3) /\
  getRadarData 8 sharp_fails encode_nothing message_without_section3
    = Throw (MissingSection 3).
Proof.
  exact (proj2 (proj2 (parseGrib2_MissingSection 8 sharp_fails encode_nothing
                         message_without_section3 _ _ _ eq_refl eq_refl eq_refl))
           0%nat).
Defined.

(** C7, at a message whose first byte has its top bit set: the first four
    bytes are not "GRIB", and the message is parsed and rendered, its one
    pixel (0, 144, 0, 255) reaching the encoder; no InvalidFormat error is
    raised. *)
Theorem parseGrib2_top_bit_magic_accepted
    (sharp : list byte -> option raw_image) (encode : png_encoder) (k : nat) :
  take 4 message_top_bit_magic <> [x47; x52; x49; x42] /\
  exists radarData,
    parseGrib2 (8 + k) sharp message_top_bit_magic = Ok radarData /\
    getRadarData (8 + k) sharp encode message_top_bit_magic
      = (pngBuffer ← encode [0; 144; 0; 255] (Some 1) (Some 1);
         Ok (pngBuffer,
             {| md_timestamp := rd_timestamp radarData;
                md_bounds := rd_bounds radarData;
                md_width := rd_width radarData;
                md_height := rd_height radarData |})).
Proof.
  split; [vm_compute; discriminate|].
  eexists. split; vm_compute; reflexivity.
Qed.

(** The 1x1 message from end to end: a grid of one cell at latitude 40 and
    longitude 260, that is -100 after normalization, whose value 30 dBZ is
    painted (0, 144, 0, 255). *)
Theorem getRadarData_1x1
    (sharp : list byte -> option raw_image) (encode : png_encoder) (k : nat) :
  exists radarData b,
    parseGrib2 (8 + k) sharp message_1x1 = Ok radarData /\
    rd_width radarData = Some 1 /\ rd_height radarData = Some 1 /\
    rd_bounds radarData = Some b /\
    Num.eq (north b) (Num.of_Z 40) /\ Num.eq (south b) (Num.of_Z 40) /\
    Num.eq (east b) (Num.of_Z (-100)) /\ Num.eq (west b) (Num.of_Z (-100)) /\
    field_eq (rd_values radarData) [Num.of_Z 30] /\
    getRadarData (8 + k) sharp encode message_1x1
      = (pngBuffer ← encode [0; 144; 0; 255] (Some 1) (Some 1);
         Ok (pngBuffer,
             {| md_timestamp := rd_timestamp radarData;
                md_bounds := rd_bounds radarData;
                md_width := rd_width radarData;
                md_height := rd_height radarData |})).
Proof.
  do 2 eexists. split; [vm_compute; reflexivity|].
  do 3 (split; [reflexivity|]).
  do 4 (split; [vm_compute; reflexivity|]).
  split; [repeat constructor | vm_compute; reflexivity].
Qed.

Lemma parseGrib2_more_fuel_witness :
  parseGrib2 (8 + 5) sharp_fails message_1x1 = parseGrib2 8 sharp_fails message_1x1.
Proof.
  apply parseGrib2_more_fuel. vm_compute. discriminate.
Defined.

(** ** The forward scan *)

(** The scan steps over the sections that stand before the first one with
    the number it looks for, and returns the offset of that one. *)
Lemma findSection_steps buffer n skipped :
  forall offset rest,
    sections_at buffer offset (skipped ++ rest) ->
    Forall (stepped_over n) skipped ->
    forall fuel,
      findSection (length skipped + fuel) buffer offset n
        = findSection fuel buffer (offset + sections_length skipped) n.
Proof.
  induction skipped as [|[num len] skipped IH]; intros offset rest Hat Hskip fuel.
  - cbn. rewrite Z.add_0_r. reflexivity.
  - cbn [app sections_at] in Hat. destruct Hat as (Hin & Hlen & Hnum & Hrest).
    apply Forall_cons_1 in Hskip as [(Hne & Hlt & Hnz) Hskip]. cbn [fst snd] in *.
    cbn [length Nat.add findSection].
    destruct (Z.ltb_spec offset (buffer_length buffer - 4)); [|lia].
    rewrite Hnum, Hlen.
    rewrite bool_decide_eq_false_2 by (intros [= ?]; contradiction).
    rewrite bool_decide_eq_false_2 by (intros [= ?]; lia).
    destruct (Z.eqb_spec len 0); [contradiction|].
    destruct (Z.gtb_spec num 8); [lia|]. cbn [orb].
    rewrite (IH (offset + len) rest Hrest Hskip).
    cbn [sections_length fold_right snd]. f_equal. fold (sections_length skipped). lia.
Qed.

Lemma findSection_match buffer offset n len skipped rest (k : nat) :
  sections_at buffer offset (skipped ++ (n, len) :: rest) ->
  Forall (stepped_over n) skipped ->
  findSection (S (length skipped) + k) buffer offset n
    = Ok (offset + sections_length skipped).
Proof.
  intros Hat Hskip.
  replace (S (length skipped) + k)%nat with (length skipped + S k)%nat by lia.
  rewrite (findSection_steps buffer n skipped offset _ Hat Hskip).
  induction skipped as [|[num l] skipped IH] in offset, Hat, Hskip |- *.
  - cbn [app sections_at] in Hat. destruct Hat as (Hin & _ & Hnum & _).
    cbn [findSection sections_length fold_right].
    destruct (Z.ltb_spec (offset + 0) (buffer_length buffer - 4)); [|lia].
    rewrite Z.add_0_r, Hnum, bool_decide_eq_true_2 by reflexivity. reflexivity.
  - cbn [app sections_at] in Hat. destruct Hat as (_ & Hlen & _ & Hrest).
    apply Forall_cons_1 in Hskip as [_ Hskip].
    specialize (IH (offset + l) Hrest Hskip).
    cbn [sections_length fold_right snd]. fold (sections_length skipped).
    rewrite Z.add_assoc. exact IH.
Qed.

Lemma sections_at_app buffer offset front back :
  sections_at buffer offset (front ++ back) ->
  sections_at buffer (offset + sections_length front) back.
Proof.
  revert offset. induction front as [|[num len] front IH]; intros offset Hat.
  - cbn. rewrite Z.add_0_r. exact Hat.
  - cbn [app sections_at] in Hat. destruct Hat as (_ & _ & _ & Hrest).
    cbn [sections_length fold_right snd]. fold (sections_length front).
    rewrite Z.add_assoc. apply IH. exact Hrest.
Qed.

(** The forward scan walks the sections by their lengths: when the sections
    that stand before the first section [n] have other numbers below 8 and
    lengths other than 0, [findSection] returns the offset of that section,
    with any fuel from the number of sections it steps over on; the byte
    at that offset plus 4 is [n]. *)
Theorem findSection_first_match (buffer : list byte) (offset n len : Z)
    (skipped rest : list (Z * Z))
    (Hat : sections_at buffer offset (skipped ++ (n, len) :: rest))
    (Hskip : Forall (stepped_over n) skipped) :
  let found := offset + sections_length skipped in
  (forall k : nat, findSection (S (length skipped) + k) buffer offset n = Ok found) /\
  buffer_at buffer (found + 4) = Some n /\
  readUint buffer found 4 = len.
Proof.
  cbv zeta. split.
  - intros k. apply (findSection_match buffer offset n len skipped rest k Hat Hskip).
  - apply sections_at_app in Hat. cbn [sections_at] in Hat.
    destruct Hat as (_ & Hlen & Hnum & _). split; assumption.
Qed.

Lemma findSection_first_match_witness :
  findSection 4 message_1x1 16 7 = Ok 130.
Proof.
  exact (proj1 (findSection_first_match message_1x1 16 7 6 [(1, 21); (3, 72); (5, 21)] []
                  ltac:(cbn; repeat split; lia)
                  ltac:(repeat constructor; cbn; lia)) 0%nat).
Defined.

(** The forward scan gives up, returning -1, when the sections it steps
    over lead to the last four bytes of the buffer or past them, and when
    they lead to a section with another number whose length is 0 or whose
    number is 8 or more: what stands after the end section is not
    found. *)
Theorem findSection_gives_up (buffer : list byte) (offset n : Z)
    (skipped : list (Z * Z))
    (Hat : sections_at buffer offset skipped)
    (Hskip : Forall (stepped_over n) skipped) :
  let stop := offset + sections_length skipped in
  (buffer_length buffer - 4 <= stop ->
   forall k : nat, findSection (S (length skipped) + k) buffer offset n = Ok (-1)) /\
  (forall num,
     stop < buffer_length buffer - 4 -> buffer_at buffer (stop + 4) = Some num ->
     num <> n -> readUint buffer stop 4 = 0 \/ 8 <= num ->
     forall k : nat, findSection (S (length skipped) + k) buffer offset n = Ok (-1)).
Proof.
  intros stop.
  assert (forall k : nat,
            findSection (S (length skipped) + k) buffer offset n
              = findSection (S k) buffer stop n) as Hsteps.
  { intros k.
    replace (S (length skipped) + k)%nat with (length skipped + S k)%nat by lia.
    apply (findSection_steps buffer n skipped offset []); [|exact Hskip].
    rewrite app_nil_r. exact Hat. }
  split.
  - intros Hend k. rewrite Hsteps. cbn [findSection].
    destruct (Z.ltb_spec stop (buffer_length buffer - 4)); [lia | reflexivity].
  - intros num Hin Hnum Hne Hstop k. rewrite Hsteps. cbn [findSection].
    destruct (Z.ltb_spec stop (buffer_length buffer - 4)); [|lia].
    rewrite Hnum, bool_decide_eq_false_2 by (intros [= ?]; contradiction).
    destruct Hstop as [-> | Hnum8]; [reflexivity|].
    destruct (Z.eqb_spec (readUint buffer stop 4) 0); [reflexivity|]. cbn [orb].
    destruct (decide (num = 8)) as [-> | Hne8].
    + rewrite bool_decide_eq_true_2 by reflexivity. reflexivity.
    + rewrite bool_decide_eq_false_2 by (intros [= ?]; contradiction).
      destruct (Z.gtb_spec num 8); [reflexivity | lia].
Qed.

Lemma findSection_gives_up_witness :
  findSection 4 message_without_section3 16 3 = Ok (-1).
Proof.
  refine (proj1 (findSection_gives_up message_without_section3 16 3
                   [(1, 21); (5, 21); (7, 6)]
                   ltac:(cbn; repeat split; lia)
                   ltac:(repeat constructor; cbn; lia)) _ 0%nat).
  vm_compute. discriminate.
Defined.

(** As long as no length that the scan reads is negative, the scan returns:
    it moves forward by at least one byte a turn. *)
Lemma findSection_progress buffer n fuel :
  forall offset,
    (forall o, offset <= o < buffer_length buffer - 4 -> 0 <= readUint buffer o 4) ->
    (Z.to_nat (buffer_length buffer - 4 - offset) < fuel)%nat ->
    exists r, findSection fuel buffer offset n = Ok r.
Proof.
  induction fuel as [|fuel IH]; intros offset Hpos Hfuel; [lia|].
  cbn [findSection].
  destruct (Z.ltb_spec offset (buffer_length buffer - 4)) as [Hin|Hout];
    [|eexists; reflexivity].
  destruct (bool_decide _); [eexists; reflexivity|].
  destruct (Z.eqb_spec (readUint buffer offset 4) 0) as [Hz|Hnz];
    [eexists; reflexivity|]. cbn [orb].
  destruct (_ || _); [eexists; reflexivity|].
  pose proof (Hpos offset ltac:(lia)) as Hlen.
  apply IH; [intros o Ho; apply Hpos; lia | lia].
Qed.



(** A round of sections whose lengths sum to 0 leads the scan back to
    where it started. *)
Lemma findSection_rounds buffer offset n sections (m fuel : nat) :
  sections_at buffer offset sections -> Forall (stepped_over n) sections ->
  sections_length sections = 0 ->
  findSection (m * length sections + fuel) buffer offset n
    = findSection fuel buffer offset n.
Proof.
  intros Hat Hskip Hsum. induction m as [|m IH]; [reflexivity|].
  replace (S m * length sections + fuel)%nat
    with (length sections + (m * length sections + fuel))%nat by lia.
  rewrite (findSection_steps buffer n sections offset []);
    [| rewrite app_nil_r; exact Hat | exact Hskip].
  rewrite Hsum, Z.add_0_r. exact IH.
Qed.

Lemma findSection_cycle_OutOfFuel buffer offset n sections :
  sections <> [] ->
  sections_at buffer offset sections -> Forall (stepped_over n) sections ->
  sections_length sections = 0 ->
  forall fuel, findSection fuel buffer offset n = OutOfFuel.
Proof.
  intros Hne Hat Hskip Hsum fuel.
  destruct (findSection fuel buffer offset n) as [r|e|] eqn:Hrun; [| |reflexivity].
  - assert (0 < length sections)%nat as Hlen
      by (destruct sections; [contradiction | cbn; lia]).
    pose proof (findSection_more_fuel fuel (fuel * length sections - fuel) buffer offset n r Hrun)
      as Hmore.
    replace (fuel + (fuel * length sections - fuel))%nat
      with (fuel * length sections + 0)%nat in Hmore by nia.
    rewrite (findSection_rounds buffer offset n sections fuel 0 Hat Hskip Hsum) in Hmore.
    discriminate Hmore.
  - destruct (findSection_no_throw _ _ _ _ _ Hrun).
Qed.

(** A message whose sections 0 and 1 parse and in which the sections
    after section 1 lead back to the first of them (their lengths, all
    other than 0, sum to 0, their numbers are below 8 and none is 3) is
    never parsed to an end: the scan for section 3 runs out of every
    fuel, and so does [parseGrib2]. *)
Theorem parseGrib2_scan_cycle (sharp : list byte -> option raw_image)
    (buffer : list byte) (s0 : section0) (s1 : section1) (t : datetime)
    (sections : list (Z * Z))
    (H0 : parseSection0 buffer = Ok s0)
    (H1 : parseSection1 buffer 16 = Ok s1)
    (Ht : timestamp s1 = Some t)
    (Hne : sections <> [])
    (Hat : sections_at buffer (scan_start buffer s1) sections)
    (Hskip : Forall (stepped_over 3) sections)
    (Hsum : sections_length sections = 0) :
  forall fuel,
    findSection fuel buffer (scan_start buffer s1) 3 = OutOfFuel /\
    parseGrib2 fuel sharp buffer = OutOfFuel.
Proof.
  intros fuel.
  pose proof (findSection_cycle_OutOfFuel buffer _ 3 sections Hne Hat Hskip Hsum fuel)
    as Hscan.
  split; [exact Hscan|]. unfold parseGrib2.
  run_stage H0. run_stage H1. run_stage Ht.
  fold (scan_start buffer s1). run_stage Hscan. reflexivity.
Qed.

Lemma parseGrib2_scan_cycle_witness :
  findSection 100 message_with_cycle 37 3 = OutOfFuel /\
  parseGrib2 100 sharp_fails message_with_cycle = OutOfFuel.
Proof.
  refine (parseGrib2_scan_cycle sharp_fails message_with_cycle _ _ _
            [(4, 6); (4, -6)] eq_refl eq_refl eq_refl _ _ _ _ 100%nat).
  - discriminate.
  - vm_compute. repeat split; reflexivity.
  - repeat constructor; cbn; lia.
  - reflexivity.
Defined.

(** ** The size of the decoded field *)

Lemma fold_insert_length {A} (step : list A -> nat -> list A) (l : list nat)
    (values : list A) :
  (forall values i, length (step values i) = length values) ->
  length (fold_left step l values) = length values.
Proof.
  intros Hstep. revert values. induction l as [|i l IH]; intros values; [reflexivity|].
  cbn [fold_left]. rewrite IH. apply Hstep.
Qed.

Lemma Float32Array_new_cases n :
  (n < 0 /\ Float32Array_new n = Throw RangeError) \/
  (0 <= n /\ Float32Array_new n = Ok (replicate (Z.to_nat n) (Num.of_Z 0))).
Proof.
  unfold Float32Array_new. destruct (Z.ltb_spec n 0); [left | right]; split; trivial.
Qed.

Lemma unpackSimple_sized dataBuffer s5 n : sized n (unpackSimple dataBuffer s5 n).
Proof.
  unfold sized, unpackSimple.
  destruct (Float32Array_new_cases n) as [[Hn ->] | [Hn ->]];
    destruct (Z.ltb_spec n 0); try lia; [reflexivity|].
  cbn [mbind result_bind]. rewrite length_replicate.
  destruct (bitsPerValue s5) as [[|p|p]|]; eexists; (split; [reflexivity|]);
    try apply length_replicate.
  - destruct (unpackSimple_loop_prefix dataBuffer s5 (Z.pos p)
                (replicate (Z.to_nat n) (Num.of_Z 0)) (Z.to_nat n)) as (_ & -> & _);
      [rewrite length_replicate; lia | apply length_replicate].
  - destruct (unpackSimple_loop_prefix dataBuffer s5 (Z.neg p)
                (replicate (Z.to_nat n) (Num.of_Z 0)) (Z.to_nat n)) as (_ & -> & _);
      [rewrite length_replicate; lia | apply length_replicate].
Qed.

Lemma unpackJpeg2000Fallback_sized dataBuffer s5 n :
  sized n (unpackJpeg2000Fallback dataBuffer s5 n).
Proof.
  unfold sized, unpackJpeg2000Fallback.
  destruct (Float32Array_new_cases n) as [[Hn ->] | [Hn ->]];
    destruct (Z.ltb_spec n 0); try lia; [reflexivity|].
  cbn [mbind result_bind]. eexists. split; [reflexivity|].
  rewrite fold_insert_length; [apply length_replicate|].
  intros values i. destruct (_ <? _); apply length_insert.
Qed.

Lemma unpackPngFallback_sized dataBuffer s5 n :
  sized n (unpackPngFallback dataBuffer s5 n).
Proof.
  unfold sized, unpackPngFallback.
  destruct (Float32Array_new_cases n) as [[Hn ->] | [Hn ->]];
    destruct (Z.ltb_spec n 0); try lia; [reflexivity|].
  cbn [mbind result_bind]. eexists. split; [reflexivity|].
  rewrite fold_insert_length; [apply length_replicate|].
  intros values i. cbv zeta. destruct (_ <? _); apply length_insert.
Qed.

Lemma unpackPng_sized sharp dataBuffer s5 n :
  sized n (unpackPng sharp dataBuffer s5 n).
Proof.
  unfold unpackPng. destruct (sharp dataBuffer) as [img|];
    [|apply unpackPngFallback_sized].
  destruct (Float32Array_new_cases n) as [[Hn E] | [Hn E]]; rewrite E.
  - apply unpackPngFallback_sized.
  - unfold sized. destruct (Z.ltb_spec n 0); [lia|].
    eexists. split; [reflexivity|].
    destruct (png_rest_frame img n
                (png_loop (Z.to_nat n) img s5 n (replicate (Z.to_nat n) (Num.of_Z 0)) 0))
      as [-> _].
    destruct (png_loop_spec (Z.to_nat n) img s5 n (replicate (Z.to_nat n) (Num.of_Z 0)) 0)
      as (-> & _); [lia | apply length_replicate | lia | apply length_replicate].
Qed.

Lemma unpackRunLength_sized dataBuffer n : sized n (unpackRunLength dataBuffer n).
Proof.
  unfold sized. destruct (Z.ltb_spec n 0) as [Hn|Hn].
  - unfold unpackRunLength, Float32Array_new.
    destruct (Z.ltb_spec n 0); [reflexivity | lia].
  - unfold unpackRunLength, Float32Array_new.
    destruct (Z.ltb_spec n 0); [lia|]. cbn [mbind result_bind].
    eexists. split; [reflexivity|].
    rewrite length_replicate.
    pose proof (runLength_loop_spec (length dataBuffer) dataBuffer (Z.to_nat n) [] 0) as Hloop.
    cbn [length app] in Hloop. change (Z.of_nat 0) with 0 in Hloop.
    rewrite drop_0, Nat.sub_0_r, Z2Nat.id in Hloop by lia.
    rewrite Hloop by lia. unfold runLength_field.
    rewrite length_take, length_app, length_replicate. lia.
Qed.

Lemma parseSection7_unpack sharp buffer offset s5 g :
  buffer_at buffer (offset + 4) = Some 7 ->
  parseSection7 sharp buffer offset s5 g =
    (values ←
       (let dataBuffer := buffer_slice buffer (offset + 5)
                            (offset + 5 + (readUint buffer offset 4 - 5)) in
        if s5_templateNum s5 =? 0 then unpackSimple dataBuffer s5 (numPoints g)
        else if s5_templateNum s5 =? 40 then
          unpackJpeg2000Fallback dataBuffer s5 (numPoints g)
        else if s5_templateNum s5 =? 41 then unpackPng sharp dataBuffer s5 (numPoints g)
        else if s5_templateNum s5 =? 200 then unpackRunLength dataBuffer (numPoints g)
        else Throw (UnsupportedPacking (s5_templateNum s5)));
     Ok {| s7_length := readUint buffer offset 4; s7_values := values |}).
Proof.
  intros H7. unfold parseSection7. rewrite H7.
  rewrite bool_decide_eq_true_2 by reflexivity. reflexivity.
Qed.

Lemma parseSection7_cases sharp buffer offset s5 g :
  buffer_at buffer (offset + 4) = Some 7 ->
  let r := parseSection7 sharp buffer offset s5 g in
  (supported_packing (s5_templateNum s5) = false /\
   r = Throw (UnsupportedPacking (s5_templateNum s5))) \/
  (supported_packing (s5_templateNum s5) = true /\ numPoints g < 0 /\
   r = Throw RangeError) \/
  (supported_packing (s5_templateNum s5) = true /\ 0 <= numPoints g /\
   exists s7, r = Ok s7 /\ s7_length s7 = readUint buffer offset 4 /\
              length (s7_values s7) = Z.to_nat (numPoints g)).
Proof.
  intros H7. cbv zeta. rewrite (parseSection7_unpack sharp buffer offset s5 g H7).
  cbv zeta. set (dataBuffer := buffer_slice _ _ _).
  unfold supported_packing.
  assert (forall u, sized (numPoints g) u ->
            (numPoints g < 0 /\
             u ≫= (fun values =>
                     Ok {| s7_length := readUint buffer offset 4; s7_values := values |})
               = Throw RangeError) \/
            (0 <= numPoints g /\
             exists s7,
               u ≫= (fun values =>
                       Ok {| s7_length := readUint buffer offset 4; s7_values := values |})
                 = Ok s7 /\
               s7_length s7 = readUint buffer offset 4 /\
               length (s7_values s7) = Z.to_nat (numPoints g))) as Hsized.
  { intros u Hu. unfold sized in Hu. destruct (Z.ltb_spec (numPoints g) 0).
    - left. rewrite Hu. split; [assumption | reflexivity].
    - right. destruct Hu as (values & -> & Hlen). split; [assumption|].
      eexists. split; [reflexivity|]. split; [reflexivity | exact Hlen]. }
  destruct (s5_templateNum s5 =? 0);
    [right; destruct (Hsized _ (unpackSimple_sized dataBuffer s5 (numPoints g)))
       as [[? ?] | [? ?]]; [left | right]; auto|].
  destruct (s5_templateNum s5 =? 40);
    [right; destruct (Hsized _ (unpackJpeg2000Fallback_sized dataBuffer s5 (numPoints g)))
       as [[? ?] | [? ?]]; [left | right]; auto|].
  destruct (s5_templateNum s5 =? 41);
    [right; destruct (Hsized _ (unpackPng_sized sharp dataBuffer s5 (numPoints g)))
       as [[? ?] | [? ?]]; [left | right]; auto|].
  destruct (s5_templateNum s5 =? 200);
    [right; destruct (Hsized _ (unpackRunLength_sized dataBuffer (numPoints g)))
       as [[? ?] | [? ?]]; [left | right]; auto|].
  left. split; reflexivity.
Qed.

(** The decoding of a data section whose section number is 7.  For the
    packing templates 0, 40, 41 and 200 it returns the length of the
    section and a field of exactly [numPoints] cells, or throws a
    RangeError when [numPoints] is negative; for every other template it
    throws the error of the unsupported template. *)
Theorem parseSection7_field_size (sharp : list byte -> option raw_image)
    (buffer : list byte) (offset : Z) (s5 : section5) (g : gridInfo)
    (H7 : buffer_at buffer (offset + 4) = Some 7) :
  let r := parseSection7 sharp buffer offset s5 g in
  if supported_packing (s5_templateNum s5) then
    if numPoints g <? 0 then r = Throw RangeError
    else exists s7,
           r = Ok s7 /\ s7_length s7 = readUint buffer offset 4 /\
           length (s7_values s7) = Z.to_nat (numPoints g)
  else r = Throw (UnsupportedPacking (s5_templateNum s5)).
Proof.
  cbv zeta.
  destruct (parseSection7_cases sharp buffer offset s5 g H7)
    as [[-> Hr] | [(-> & Hn & Hr) | (-> & Hn & Hr)]]; cbv zeta in Hr.
  - exact Hr.
  - destruct (Z.ltb_spec (numPoints g) 0); [exact Hr | lia].
  - destruct (Z.ltb_spec (numPoints g) 0); [lia | exact Hr].
Qed.

Lemma parseSection7_field_size_witness :
  exists s7,
    parseSection7 sharp_fails message_1x1 130 (packing_unit 200 0)
      (parseGridTemplate0 [] 0 3) = Ok s7 /\
    s7_length s7 = 6 /\ length (s7_values s7) = 3%nat.
Proof.
  exact (parseSection7_field_size sharp_fails message_1x1 130 (packing_unit 200 0)
           (parseGridTemplate0 [] 0 3) eq_refl).
Defined.

(** ** The outcomes of a parse *)

(** An offset that the scan returns carries the section number, unless it
    is -1. *)
Lemma findSection_found fuel buffer offset n o :
  findSection fuel buffer offset n = Ok o ->
  o = -1 \/ buffer_at buffer (o + 4) = Some n.
Proof.
  revert offset. induction fuel as [|fuel IH]; intros offset; cbn [findSection].
  - discriminate.
  - destruct (_ <? _); [|intros [= <-]; left; reflexivity].
    destruct (bool_decide (buffer_at buffer (offset + 4) = Some n)) eqn:E.
    + apply bool_decide_eq_true in E. intros [= <-]. right. exact E.
    + destruct (_ || _); [intros [= <-]; left; reflexivity | apply IH].
Qed.

Lemma parseSection3_at buffer offset :
  buffer_at buffer (offset + 4) = Some 3 ->
  exists s3, parseSection3 buffer offset = Ok s3 /\
    s3_length s3 = readUint buffer offset 4 /\
    numPoints (grid s3) = readUint buffer (offset + 6) 4.
Proof.
  intros H3. unfold parseSection3. rewrite H3.
  rewrite bool_decide_eq_true_2 by reflexivity. cbn [negb].
  eexists. split; [reflexivity|]. split; [reflexivity|]. cbn [grid].
  destruct (_ =? 0); [reflexivity|]. destruct (_ =? 30); reflexivity.
Qed.

Lemma parseSection5_at buffer offset :
  buffer_at buffer (offset + 4) = Some 5 ->
  (buffer_length buffer < offset + 15 /\ parseSection5 buffer offset = Throw RangeError) \/
  exists s5, parseSection5 buffer offset = Ok s5 /\
    s5_length s5 = readUint buffer offset 4 /\
    s5_templateNum s5 = readUint buffer (offset + 9) 2.
Proof.
  intros H5. unfold parseSection5. rewrite H5.
  rewrite bool_decide_eq_true_2 by reflexivity. cbn [negb].
  assert (0 <= offset + 4) as Hoff.
  { unfold buffer_at in H5. destruct (Z.ltb_spec (offset + 4) 0); [discriminate | lia]. }
  destruct (_ || _).
  - unfold readFloat32.
    destruct (Z.ltb_spec (offset + 11) 0); [lia|].
    destruct (Z.ltb_spec (buffer_length buffer) (offset + 11 + 4)); cbn [orb].
    + left. split; [lia | reflexivity].
    + right. eexists. split; [reflexivity|]. split; reflexivity.
  - right. eexists. split; [reflexivity|]. split; reflexivity.
Qed.

(** The reference time is a date when the five bytes after the year are
    in the buffer. *)
Lemma parseSection1_timestamp buffer s1 :
  parseSection1 buffer 16 = Ok s1 ->
  (timestamp s1 = None -> buffer_length buffer < 35) /\
  (forall t, timestamp s1 = Some t -> 35 <= buffer_length buffer).
Proof.
  unfold parseSection1. destruct (negb _); [discriminate|]. intros [= <-].
  cbn [timestamp].
  assert (forall k, 0 <= k ->
            (buffer_at buffer k = None <-> buffer_length buffer <= k)) as Hnone.
  { intros k Hk. unfold buffer_at, buffer_length.
    destruct (Z.ltb_spec k 0); [lia|].
    destruct (buffer !! Z.to_nat k) eqn:E; cbn.
    - apply lookup_lt_Some in E. split; [discriminate | lia].
    - apply lookup_ge_None_1 in E. split; [lia | reflexivity]. }
  destruct (buffer_at buffer (16 + 14)) eqn:E14; cbn;
    [|split; [intros _; apply Hnone in E14; lia | discriminate]].
  destruct (buffer_at buffer (16 + 15)) eqn:E15; cbn;
    [|split; [intros _; apply Hnone in E15; lia | discriminate]].
  destruct (buffer_at buffer (16 + 16)) eqn:E16; cbn;
    [|split; [intros _; apply Hnone in E16; lia | discriminate]].
  destruct (buffer_at buffer (16 + 17)) eqn:E17; cbn;
    [|split; [intros _; apply Hnone in E17; lia | discriminate]].
  destruct (buffer_at buffer (16 + 18)) eqn:E18; cbn;
    [|split; [intros _; apply Hnone in E18; lia | discriminate]].
  split; [discriminate|]. intros t _.
  destruct (Z.le_gt_cases (buffer_length buffer) 34) as [Hle|Hgt]; [|lia].
  apply Hnone in Hle; [|lia]. change (16 + 18) with 34 in E18. congruence.
Qed.

Lemma parseGrib2_course fuel sharp buffer :
  parse_course sharp buffer (parseGrib2 fuel sharp buffer).
Proof.
  unfold parseGrib2, parseSection0.
  destruct (String.eqb_spec (toString_ascii (buffer_slice buffer 0 4)) "GRIB")
    as [Hmagic|Hmagic]; cbn [negb];
    [|apply course_error; exact Hmagic].
  destruct (bool_decide (buffer_at buffer 7 = Some 2)) eqn:Hed; cbn [negb];
    [apply bool_decide_eq_true in Hed
    | apply bool_decide_eq_false in Hed; apply course_error; split; [reflexivity | exact Hed]].
  destruct (Z.ltb_spec (buffer_length buffer) 16) as [Hshort|Hlong];
    [apply course_error; left; lia|].
  cbn [mbind result_bind].
  destruct (parseSection1 buffer 16) as [s1|e|] eqn:H1; cbn [mbind result_bind].
  2: { apply course_error. unfold parseSection1 in H1.
       destruct (bool_decide (buffer_at buffer (16 + 4) = Some 1)) eqn:E1;
         cbn [negb] in H1; [discriminate H1|].
       injection H1 as <-. apply bool_decide_eq_false in E1.
       split; [reflexivity|]. split; [reflexivity | exact E1]. }
  2: { unfold parseSection1 in H1. destruct (negb _); discriminate H1. }
  destruct (parseSection1_timestamp buffer s1 H1) as [Hnodate Hdate].
  destruct (timestamp s1) as [t|] eqn:Ht; cbn [mbind result_bind];
    [|apply course_error; left; apply Hnodate; reflexivity].
  specialize (Hdate t eq_refl).
  set (start := if bool_decide _ then _ else _).
  destruct (findSection fuel buffer start 3) as [o3|e|] eqn:F3; cbn [mbind result_bind];
    [| destruct (findSection_no_throw _ _ _ _ _ F3) | apply course_fuel].
  destruct (Z.eqb_spec o3 (-1)) as [|Hne3];
    [apply course_error; left; reflexivity|].
  destruct (findSection_found _ _ _ _ _ F3) as [|H3]; [contradiction|].
  destruct (parseSection3_at buffer o3 H3) as (s3 & Hs3 & _ & Hpoints).
  rewrite Hs3. cbn [mbind result_bind].
  destruct (findSection fuel buffer (o3 + s3_length s3) 5) as [o5|e|] eqn:F5;
    cbn [mbind result_bind];
    [| destruct (findSection_no_throw _ _ _ _ _ F5) | apply course_fuel].
  destruct (Z.eqb_spec o5 (-1)) as [|Hne5];
    [apply course_error; right; left; reflexivity|].
  destruct (findSection_found _ _ _ _ _ F5) as [|H5]; [contradiction|].
  destruct (parseSection5_at buffer o5 H5) as [[Hout Hs5] | (s5 & Hs5 & _)];
    rewrite Hs5; cbn [mbind result_bind];
    [apply course_error; right; left; exists o5; split; assumption|].
  destruct (findSection fuel buffer (o5 + s5_length s5) 7) as [o7|e|] eqn:F7;
    cbn [mbind result_bind];
    [| destruct (findSection_no_throw _ _ _ _ _ F7) | apply course_fuel].
  destruct (Z.eqb_spec o7 (-1)) as [|Hne7];
    [apply course_error; right; right; reflexivity|].
  destruct (findSection_found _ _ _ _ _ F7) as [|H7]; [contradiction|].
  destruct (parseSection7_cases sharp buffer o7 s5 (grid s3) H7)
    as [[Hpack Hr] | [(Hpack & Hn & Hr) | (Hpack & Hn & s7 & Hr & _)]];
    cbv zeta in Hr; rewrite Hr; cbn [mbind result_bind].
  - apply course_error. exact Hpack.
  - apply course_error. right. right. exists o3. split; [exact H3 | lia].
  - eapply course_done; eassumption.
Qed.

(** The errors that [parseGrib2] throws, and when.  InvalidFormat: the
    magic is not accepted.  UnsupportedEdition: byte 7 is not 2.
    ExpectedSection: only for section 1, when byte 20 is not 1; the checks
    of the sections 3, 5 and 7 never fail, the scan has found their
    numbers.  MissingSection: only for 3, 5 and 7.  UnsupportedPacking:
    only for a template other than 0, 40, 41 and 200.  RangeError: the
    buffer is shorter than 35 bytes, or the reference value of a section 5
    lies outside of the buffer, or the number of data points of a
    section 3 is negative. *)
Theorem parseGrib2_error_causes (fuel : nat) (sharp : list byte -> option raw_image)
    (buffer : list byte) (e : error)
    (Hthrow : parseGrib2 fuel sharp buffer = Throw e) :
  match e with
  | InvalidFormat => toString_ascii (buffer_slice buffer 0 4) <> "GRIB"%string
  | UnsupportedEdition edition =>
      edition = buffer_at buffer 7 /\ edition <> Some 2
  | ExpectedSection expected got =>
      expected = 1 /\ got = buffer_at buffer 20 /\ got <> Some 1
  | MissingSection n => n = 3 \/ n = 5 \/ n = 7
  | UnsupportedPacking templateNum =>
      templateNum <> 0 /\ templateNum <> 40 /\ templateNum <> 41 /\ templateNum <> 200
  | RangeError =>
      buffer_length buffer < 35 \/
      (exists o5, buffer_at buffer (o5 + 4) = Some 5 /\
                  buffer_length buffer < o5 + 15) \/
      (exists o3, buffer_at buffer (o3 + 4) = Some 3 /\
                  readUint buffer (o3 + 6) 4 < 0)
  end.
Proof.
  pose proof (parseGrib2_course fuel sharp buffer) as Hcourse.
  rewrite Hthrow in Hcourse. inversion Hcourse as [e' Hcause | |]; subst.
  destruct e; try exact Hcause.
  cbn in Hcause. unfold supported_packing in Hcause.
  repeat split; intros ->; discriminate Hcause.
Qed.

Lemma parseGrib2_error_causes_witness :
  1 = 1 /\
  Some 9 = buffer_at (message_section0 ++ [x00; x00; x00; x15; x09]) 20 /\
  Some 9 <> Some 1.
Proof.
  exact (parseGrib2_error_causes 0 sharp_fails
           (message_section0 ++ [x00; x00; x00; x15; x09])
           (ExpectedSection 1 (Some 9)) eq_refl).
Defined.

(** What a parse that returns has read: the accepted magic, the edition
    2, the section number 1 at byte 20, at least 35 bytes, and three
    offsets that carry the section numbers 3, 5 and 7, with a supported
    packing template in section 5 and a number of data points in section
    3 that is not negative.  The field has that number of cells, whatever
    the width and the height of the grid are. *)
Theorem parseGrib2_returns (fuel : nat) (sharp : list byte -> option raw_image)
    (buffer : list byte) (radarData : radarData)
    (Hrun : parseGrib2 fuel sharp buffer = Ok radarData) :
  toString_ascii (buffer_slice buffer 0 4) = "GRIB"%string /\
  buffer_at buffer 7 = Some 2 /\
  buffer_at buffer 20 = Some 1 /\
  35 <= buffer_length buffer /\
  exists o3 o5 o7,
    buffer_at buffer (o3 + 4) = Some 3 /\
    buffer_at buffer (o5 + 4) = Some 5 /\
    buffer_at buffer (o7 + 4) = Some 7 /\
    supported_packing (readUint buffer (o5 + 9) 2) = true /\
    0 <= readUint buffer (o3 + 6) 4 /\
    length (rd_values radarData) = Z.to_nat (readUint buffer (o3 + 6) 4).
Proof.
  pose proof (parseGrib2_course fuel sharp buffer) as Hcourse.
  rewrite Hrun in Hcourse.
  inversion Hcourse
    as [| | s1 t o3 s3 o5 s5 o7 s7 Hmagic Hed Hlen H1 Ht H3 Hs3 H5 Hs5 H7 Hs7]; subst.
  split; [exact Hmagic|]. split; [exact Hed|]. split.
  { unfold parseSection1 in H1.
    destruct (bool_decide (buffer_at buffer (16 + 4) = Some 1)) eqn:E1;
      [apply bool_decide_eq_true in E1; exact E1 | discriminate H1]. }
  split; [exact Hlen|].
  exists o3, o5, o7. do 3 (split; [assumption|]).
  destruct (parseSection3_at buffer o3 H3) as (s3' & Hs3' & _ & Hpoints).
  rewrite Hs3 in Hs3'. injection Hs3' as <-.
  destruct (parseSection5_at buffer o5 H5) as [[_ Hs5'] | (s5' & Hs5' & _ & Htemplate)];
    rewrite Hs5 in Hs5'; [discriminate Hs5'|]. injection Hs5' as <-.
  destruct (parseSection7_cases sharp buffer o7 s5 (grid s3) H7)
    as [[_ Hr] | [(_ & _ & Hr) | (Hpack & Hn & s7' & Hr & _ & Hsize)]];
    cbv zeta in Hr; rewrite Hs7 in Hr; try discriminate Hr.
  injection Hr as <-. cbn [rd_values].
  rewrite <- Htemplate, <- Hpoints. split; [exact Hpack|]. split; assumption.
Qed.

Lemma parseGrib2_returns_witness :
  exists radarData o3 o5 o7,
    parseGrib2 8 sharp_fails message_1x1 = Ok radarData /\
    buffer_at message_1x1 (o3 + 4) = Some 3 /\
    buffer_at message_1x1 (o5 + 4) = Some 5 /\
    buffer_at message_1x1 (o7 + 4) = Some 7 /\
    supported_packing (readUint message_1x1 (o5 + 9) 2) = true /\
    0 <= readUint message_1x1 (o3 + 6) 4 /\
    length (rd_values radarData) = Z.to_nat (readUint message_1x1 (o3 + 6) 4).
Proof.
  assert (exists radarData, parseGrib2 8 sharp_fails message_1x1 = Ok radarData)
    as [radarData Hrun] by (eexists; vm_compute; reflexivity).
  destruct (parseGrib2_returns 8 sharp_fails message_1x1 radarData Hrun)
    as (_ & _ & _ & _ & o3 & o5 & o7 & Hrest).
  exists radarData, o3, o5, o7. split; [exact Hrun | exact Hrest].
Defined.

(** ** The cells of the other packings *)

Lemma buffer_at_Some (buffer : list byte) (k : Z) :
  0 <= k < buffer_length buffer ->
  exists X, buffer_at buffer k = Some X /\ 0 <= X < 256.
Proof.
  intros Hk. unfold buffer_at, buffer_length in *.
  destruct (Z.ltb_spec k 0); [lia|].
  destruct (buffer !! Z.to_nat k) as [b|] eqn:E.
  - exists (byte_val b). split; [reflexivity | apply byte_val_range].
  - apply lookup_ge_None_1 in E. lia.
Qed.

Lemma buffer_at_None (buffer : list byte) (k : Z) :
  buffer_length buffer <= k -> buffer_at buffer k = None.
Proof.
  intros Hk. unfold buffer_at, buffer_length in *.
  destruct (Z.ltb_spec k 0); [reflexivity|].
  rewrite lookup_ge_None_2 by lia. reflexivity.
Qed.



Lemma fold_insert_const_at {A} (x : A) (a m : nat) (values : list A) :
  let r := fold_left (fun values i => <[i := x]> values) (seq a m) values in
  forall k, (a <= k < a + m)%nat -> (k < length values)%nat -> r !! k = Some x.
Proof.
  revert a values. induction m as [|m IH]; intros a values; cbn zeta; [lia|].
  intros k Hk Hlen. cbn [seq fold_left].
  destruct (Nat.eq_dec k a) as [->|Hne].
  - destruct (fold_insert_const_frame x (S a) m (<[a := x]> values)) as [_ Hframe].
    rewrite Hframe by lia. apply list_lookup_insert_eq. exact Hlen.
  - apply IH; [lia | rewrite length_insert; exact Hlen].
Qed.

(** The cells that have no pixel, when the pixels fill the image data. *)
Lemma png_rest_at img (n : Z) values (k : Z) :
  length values = Z.to_nat n ->
  0 <= k < n -> buffer_length (data img) <= k * Zpos (channels img) ->
  Z.rem (buffer_length (data img)) (Zpos (channels img)) = 0 ->
  png_rest img n values !! Z.to_nat k = Some (Num.of_Z (-999)).
Proof.
  intros Hlen Hk Hpast Hrem. unfold png_rest.
  set (len := buffer_length (data img)) in *. set (ch := Z.pos (channels img)) in *.
  rewrite Hrem. cbn [Z.eqb].
  assert (0 <= len) by (subst len; unfold buffer_length; lia).
  assert (len mod ch = 0) as Hmod by (rewrite <- Z.rem_mod_nonneg; subst ch; lia).
  assert (len = ch * (len / ch)) as Hexact by (apply Z.div_exact; subst ch; lia).
  assert (len / ch <= k) by (subst ch; nia).
  assert (0 <= len / ch) by (apply Z.div_pos; subst ch; lia).
  apply fold_insert_const_at; lia.
Qed.



(** ** The range of a run-length field *)

Lemma unpackRunLength_Ok dataBuffer (n : Z) :
  0 <= n ->
  unpackRunLength dataBuffer n = Ok (runLength_field dataBuffer (Z.to_nat n)).
Proof.
  intros Hn. unfold unpackRunLength, Float32Array_new.
  destruct (Z.ltb_spec n 0); [lia|]. cbn [mbind result_bind].
  rewrite length_replicate.
  pose proof (runLength_loop_spec (length dataBuffer) dataBuffer (Z.to_nat n) [] 0) as Hloop.
  cbn [length app] in Hloop. change (Z.of_nat 0) with 0 in Hloop.
  rewrite drop_0, Nat.sub_0_r, Z2Nat.id in Hloop by lia.
  rewrite Hloop by lia. reflexivity.
Qed.

Lemma runLength_dbz_range (value : Z) :
  0 <= value < 256 ->
  runLength_dbz value = Num.of_Z (-999) \/
  between (-65 # 2) (189 # 2) (runLength_dbz value).
Proof.
  intros Hv. unfold runLength_dbz. destruct (Z.eqb_spec value 0); [left; reflexivity|].
  right. unfold between, Num.sub, Num.add, Num.neg, Num.mul, Num.of_Z.
  eexists. split; [reflexivity|].
  assert (inject_Z 1 <= inject_Z value)%Q by (rewrite <- Zle_Qle; lia).
  assert (inject_Z value <= inject_Z 255)%Q by (rewrite <- Zle_Qle; lia).
  cbv [inject_Z] in *. split; lra.
Qed.

Lemma runLength_expand_range dataBuffer :
  Forall (fun v => v = Num.of_Z (-999) \/ between (-65 # 2) (189 # 2) v)
    (runLength_expand dataBuffer).
Proof.
  unfold runLength_expand.
  assert (Forall (fun p : Z * Z => 0 <= fst p < 256) (runLength_pairs dataBuffer)) as Hpairs.
  { enough (Forall (fun p : Z * Z => 0 <= fst p < 256) (runLength_pairs dataBuffer) /\
            forall value, Forall (fun p : Z * Z => 0 <= fst p < 256)
                            (runLength_pairs (value :: dataBuffer))) as [H _]
      by exact H.
    induction dataBuffer as [|count rest [IH1 IH2]].
    - split; [constructor | intros value; constructor].
    - split; [apply IH2|]. intros value. cbn [runLength_pairs].
      constructor; [cbn; apply byte_val_range | exact IH1]. }
  induction Hpairs as [|[value count] pairs Hvalue _ IH]; cbn [flat_map]; [constructor|].
  apply Forall_app. split; [|exact IH].
  apply Forall_replicate. apply runLength_dbz_range. exact Hvalue.
Qed.

(** A run-length field of [numPoints] cells holds nothing but -999 and
    levels between -32.5 and 94.5 dBZ: no NaN and no infinity. *)
Theorem unpackRunLength_range (dataBuffer : list byte) (numPoints : Z)
    (Hn : 0 <= numPoints) :
  exists field,
    unpackRunLength dataBuffer numPoints = Ok field /\
    length field = Z.to_nat numPoints /\
    Forall (fun v => v = Num.of_Z (-999) \/ between (-65 # 2) (189 # 2) v) field.
Proof.
  rewrite unpackRunLength_Ok by exact Hn. eexists. split; [reflexivity|].
  unfold runLength_field. split.
  - rewrite length_take, length_app, length_replicate. lia.
  - apply Forall_take, Forall_app. split; [apply runLength_expand_range|].
    apply Forall_replicate. left. reflexivity.
Qed.

Lemma unpackRunLength_range_witness :
  exists field,
    unpackRunLength [xff; x01; x01; x01] 3 = Ok field /\
    length field = 3%nat /\
    Forall (fun v => v = Num.of_Z (-999) \/ between (-65 # 2) (189 # 2) v) field.
Proof.
  exact (unpackRunLength_range [xff; x01; x01; x01] 3 ltac:(lia)).
Defined.

(** ** Simple packing at the end of the data section *)

(** Past the end of the data section the bit loop reads nothing. *)
Lemma readBits_loop_past_end fuel dataBuffer s :
  buffer_length dataBuffer <= currentByte s ->
  packedValue (readBits_loop fuel dataBuffer s) = packedValue s.
Proof.
  revert s. induction fuel as [|fuel IH]; intros s Hpast; [reflexivity|].
  cbn [readBits_loop]. destruct (bitsRemaining s >? 0); [|reflexivity].
  rewrite IH.
  - unfold readBits_step.
    destruct (Z.ltb_spec (currentByte s) (buffer_length dataBuffer)); [lia|].
    destruct (_ >=? 8); reflexivity.
  - unfold readBits_step. destruct (_ >=? 8); cbn [currentByte]; lia.
Qed.

(** A field that the end of the data section cuts: the loop reads the bits
    that are there. *)
Lemma readBits_loop_cut fuel dataBuffer off bits d :
  0 <= off -> bits <= 31 -> off + bits = 8 * buffer_length dataBuffer -> 0 <= d ->
  forall s,
    bits_inv dataBuffer off bits s -> (Z.to_nat (bitsRemaining s + d) <= fuel)%nat ->
    packedValue (readBits_loop fuel dataBuffer (more_bits d s))
      = bit_field dataBuffer off bits.
Proof.
  intros Hoff Hbits Hfit Hd.
  induction fuel as [|fuel IH]; intros s Hinv Hfuel.
  - cbn. destruct Hinv as (Hrem & _ & _ & _ & ->). f_equal. lia.
  - destruct (Z.lt_ge_cases 0 (bitsRemaining s)) as [Hgo|Hend].
    + cbn [readBits_loop more_bits bitsRemaining].
      destruct (Z.gtb_spec (bitsRemaining s + d) 0); [|lia].
      destruct (readBits_step_inv dataBuffer off bits s Hoff Hbits ltac:(lia) Hinv Hgo)
        as [Hinv' Hless].
      assert (8 - currentBitPos s <= bitsRemaining s) as Hchunk.
      { destruct Hinv as (_ & Hpos & _ & Hat & _). lia. }
      assert (readBits_step dataBuffer (more_bits d s)
              = more_bits d (readBits_step dataBuffer s)) as ->.
      { unfold readBits_step, more_bits.
        cbn [packedValue bitsRemaining currentByte currentBitPos].
        rewrite !(Z.min_r _ (8 - currentBitPos s)) by lia.
        destruct (_ >=? 8); cbn [packedValue bitsRemaining currentByte currentBitPos];
          f_equal; lia. }
      apply IH; [exact Hinv'|]. destruct Hinv' as (Hrem' & _). lia.
    + destruct Hinv as (Hrem & Hpos & Hbyte & Hat & Hval).
      rewrite readBits_loop_past_end by (cbn [more_bits currentByte]; lia).
      cbn [more_bits packedValue]. rewrite Hval. f_equal. lia.
Qed.

Lemma readPacked_past_end dataBuffer bits off :
  0 <= off -> 8 * buffer_length dataBuffer <= off ->
  readPacked dataBuffer bits off = 0.
Proof.
  intros Hoff Hpast. unfold readPacked.
  rewrite readBits_loop_past_end; [reflexivity|].
  cbn [currentByte]. apply Z.div_le_lower_bound; lia.
Qed.

Lemma readPacked_cut dataBuffer bits off :
  0 <= off -> bits <= 31 ->
  off < 8 * buffer_length dataBuffer < off + bits ->
  readPacked dataBuffer bits off
    = bit_field dataBuffer off (8 * buffer_length dataBuffer - off).
Proof.
  intros Hoff Hbits Hcut. unfold readPacked.
  set (avail := 8 * buffer_length dataBuffer - off).
  pose proof (readBits_loop_cut (Z.to_nat bits) dataBuffer off avail (bits - avail)
                Hoff ltac:(lia) ltac:(lia) ltac:(lia)
                {| packedValue := 0; bitsRemaining := avail;
                   currentByte := off / 8; currentBitPos := Z.rem off 8 |}) as Hloop.
  unfold more_bits in Hloop.
  cbn [packedValue bitsRemaining currentByte currentBitPos] in Hloop.
  replace (avail + (bits - avail)) with bits in Hloop by lia.
  apply Hloop; [|lia].
  unfold bits_inv. cbn [packedValue bitsRemaining currentByte currentBitPos].
  rewrite Z.rem_mod_nonneg by lia.
  replace (avail - avail) with 0 by lia.
  repeat split; try lia.
  - apply Z.mod_pos_bound; lia.
  - apply Z.mod_pos_bound; lia.
  - apply Z.div_pos; lia.
  - rewrite Z.add_0_r. symmetry. apply Z.div_mod. lia.
  - unfold bit_field. rewrite Z.mod_1_r. reflexivity.
Qed.



(** ** The image as a whole *)

(** Two buffers of [H] rows of [W] pixels with the same pixels are the
    same buffer. *)
Lemma pixels_ext (W H : nat) (p q : list Z) :
  length p = (4 * (H * W))%nat -> length q = (4 * (H * W))%nat ->
  (forall j i c, (j < H)%nat -> (i < W)%nat -> (c < 4)%nat ->
     p !! (4 * (j * W + i) + c)%nat = q !! (4 * (j * W + i) + c)%nat) ->
  p = q.
Proof.
  intros Hp Hq Hat. apply list_eq. intros k.
  destruct (Nat.lt_ge_cases k (4 * (H * W))) as [Hk|Hk].
  - assert (0 < W)%nat as HW by nia.
    pose proof (Nat.div_mod_eq k 4) as Ek.
    pose proof (Nat.mod_upper_bound k 4 ltac:(lia)) as Hc.
    pose proof (Nat.div_mod_eq (k / 4) W) as Eq.
    pose proof (Nat.mod_upper_bound (k / 4) W ltac:(lia)) as Hi.
    assert (k / 4 / W < H)%nat as Hj.
    { apply Nat.Div0.div_lt_upper_bound. apply Nat.Div0.div_lt_upper_bound. lia. }
    specialize (Hat (k / 4 / W) ((k / 4) mod W) (k mod 4) Hj Hi Hc)%nat.
    replace (4 * (k / 4 / W * W + (k / 4) mod W) + k mod 4)%nat with k in Hat by lia.
    exact Hat.
  - rewrite !lookup_ge_None_2 by lia. reflexivity.
Qed.

(** The images of two fields whose source cells agree. *)
Lemma radar_pixels_ext values values' (width height : Z) mode mode' :
  0 <= width -> 0 <= height ->
  (forall i j, 0 <= i < width -> 0 <= j < height ->
     cell_pixel (values_at values (srcIdx width height mode i j))
       = cell_pixel (values_at values' (srcIdx width height mode' i j))) ->
  radar_pixels values width height mode = radar_pixels values' width height mode'.
Proof.
  intros Hw Hh Hcells.
  destruct (radar_pixels_at values (Z.to_nat width) (Z.to_nat height) mode)
    as (p & Hp & Hplen & Hpat).
  destruct (radar_pixels_at values' (Z.to_nat width) (Z.to_nat height) mode')
    as (q & Hq & Hqlen & Hqat).
  rewrite !Z2Nat.id in Hp, Hq by lia. rewrite Hp, Hq. f_equal.
  apply (pixels_ext (Z.to_nat width) (Z.to_nat height)); try assumption.
  intros j i c Hj Hi Hc. rewrite Hpat, Hqat by assumption.
  rewrite !Z2Nat.id by lia. rewrite Hcells by lia. reflexivity.
Qed.

(** A field of [width * height] cells that scans east to west and south
    to north (mode 0xC0) is painted as the reversed field that scans west
    to east and north to south (mode 0), and the call returns the buffer of
    [width * height * 4] bytes. *)
Theorem radar_pixels_reversed (values : list jsnum) (width height : Z)
    (Hw : 0 <= width) (Hh : 0 <= height)
    (Hlen : Z.of_nat (length values) = width * height) :
  radar_pixels values width height (Some 192)
    = radar_pixels (reverse values) width height (Some 0) /\
  exists pixels,
    radar_pixels values width height (Some 192) = Ok pixels /\
    length pixels = Z.to_nat (width * height * 4).
Proof.
  split.
  - apply radar_pixels_ext; [assumption | assumption |].
    intros i j Hi Hj. f_equal. unfold srcIdx.
    rewrite !scan_bit_byte by lia.
    change (Z.land 192 128 =? 0) with false. change (Z.land 192 64 =? 0) with false.
    change (Z.land 0 128 =? 0) with true. change (Z.land 0 64 =? 0) with true.
    cbv iota.
    assert (0 <= j * width + i < width * height) as Hsrc by nia.
    replace ((height - 1 - j) * width + (width - 1 - i))
      with (width * height - 1 - (j * width + i)) by ring.
    set (k := j * width + i) in *. set (n := width * height) in *.
    unfold values_at.
    destruct (Z.ltb_spec (n - 1 - k) 0); [lia|].
    destruct (Z.ltb_spec k 0); [lia|].
    rewrite reverse_lookup by lia. f_equal. lia.
  - destruct (radar_pixels_pixel values width height (Some 192) Hw Hh)
      as (pixels & Hrun & Hsize & _).
    exists pixels. split; assumption.
Qed.

Lemma radar_pixels_reversed_witness :
  radar_pixels [Num.of_Z 10; Num.of_Z 20; Num.of_Z 30; Num.of_Z 40; Num.of_Z 50; Num.of_Z 60]
    3 2 (Some 192)
  = radar_pixels
      (reverse [Num.of_Z 10; Num.of_Z 20; Num.of_Z 30; Num.of_Z 40; Num.of_Z 50; Num.of_Z 60])
      3 2 (Some 0).
Proof.
  exact (proj1 (radar_pixels_reversed
                  [Num.of_Z 10; Num.of_Z 20; Num.of_Z 30; Num.of_Z 40; Num.of_Z 50; Num.of_Z 60]
                  3 2 ltac:(lia) ltac:(lia) eq_refl)).
Defined.

Lemma fold_left_pointwise {A B} (f g : A -> B -> A) (l : list B) (a : A) :
  (forall a b, f a b = g a b) -> fold_left f l a = fold_left g l a.
Proof.
  intros Hfg. revert a. induction l as [|b l IH]; intros a; [reflexivity|].
  cbn [fold_left]. rewrite Hfg. apply IH.
Qed.

Lemma radar_pixels_srcIdx values (width height : Z) mode mode' :
  (forall i j, srcIdx width height mode i j = srcIdx width height mode' i j) ->
  radar_pixels values width height mode = radar_pixels values width height mode'.
Proof.
  intros Hsrc. unfold radar_pixels.
  destruct (Uint8Array_new (width * height * 4)) as [pixels| |]; [|reflexivity..].
  cbn [mbind result_bind]. f_equal. apply fold_left_pointwise. intros p j.
  unfold render_row. apply fold_left_pointwise. intros q i.
  unfold render_pixel. rewrite Hsrc. reflexivity.
Qed.

(** Of the scanning mode the renderer reads the bits 0x80 and 0x40 and
    nothing else: the other bits of the byte change nothing.  A grid that
    has no scanning mode is painted as one that scans west to east and
    north to south. *)
Theorem radar_pixels_mode_bits (values : list jsnum) (width height sm : Z)
    (Hsm : 0 <= sm < 256) :
  radar_pixels values width height (Some sm)
    = radar_pixels values width height (Some (Z.land sm 192)) /\
  radar_pixels values width height None
    = radar_pixels values width height (Some 0).
Proof.
  split; [|reflexivity].
  apply radar_pixels_srcIdx. intros i j. unfold srcIdx.
  assert (0 <= Z.land sm 192 < 256) as Hmasked.
  { split; [apply Z.land_nonneg; lia|].
    replace (Z.land sm 192) with (Z.land (Z.land sm 192) (Z.ones 8))
      by (rewrite <- Z.land_assoc; reflexivity).
    rewrite Z.land_ones by lia. apply Z.mod_pos_bound. reflexivity. }
  rewrite !scan_bit_byte by lia.
  rewrite <- !Z.land_assoc.
  change (Z.land 192 128) with 128. change (Z.land 192 64) with 64. reflexivity.
Qed.

Lemma radar_pixels_mode_bits_witness :
  radar_pixels [Num.of_Z 10; Num.of_Z 20] 2 1 (Some 176)
    = radar_pixels [Num.of_Z 10; Num.of_Z 20] 2 1 (Some 128).
Proof.
  exact (proj1 (radar_pixels_mode_bits [Num.of_Z 10; Num.of_Z 20] 2 1 176 ltac:(lia))).
Defined.

(** ** Transparent and opaque levels *)

Lemma Qfloor_half (c : Z) : Qfloor (inject_Z c + (1 # 2)) = c.
Proof.
  unfold Qfloor, Qplus, inject_Z. cbn [Qnum Qden].
  change (Z.pos (1 * 2)) with 2. symmetry.
  apply Z.div_unique with (r := 1); lia.
Qed.

(** A channel that does not move between two stops, or a level that is
    the level of the lower stop: the channel of the lower stop. *)
Lemma channel_interpolate_const lo hi (q a b : Q) (channel : rgba -> jsnum) (c c' : Z) :
  dbz lo = Num a -> dbz hi = Num b -> (a <= q)%Q -> (q < b)%Q ->
  channel (color lo) = Num.of_Z c -> channel (color hi) = Num.of_Z c' ->
  c = c' \/ (q == a)%Q ->
  channel_interpolate lo hi (Num q) channel = Num.of_Z c.
Proof.
  intros Ha Hb Hle Hlt Hc Hc' Hconst.
  unfold channel_interpolate. rewrite Ha, Hb, Hc, Hc'.
  unfold Num.sub, Num.add, Num.neg, Num.div.
  destruct (Qeq_bool (b + - a) 0) eqn:E; [apply Qeq_bool_iff in E; lra|].
  unfold Num.mul, Num.add, Num.round, Num.of_Z. do 2 f_equal.
  transitivity (Qfloor (inject_Z c + (1 # 2))); [|apply Qfloor_half].
  apply Qfloor_comp. destruct Hconst as [<- | Hq].
  - ring.
  - assert ((q + - a) / (b + - a) == 0)%Q as ->; [|ring].
    rewrite Hq. field. lra.
Qed.

(** The stops of the scale, one by one: [tac] closes the case of each. *)
Tactic Notation "each_stop" ident(i) ident(Hlo) ident(Hhi) ident(Hle) ident(Hlt)
    tactic(tac) :=
  do 16 (destruct i as [|i];
    [ injection Hlo as <-; injection Hhi as <-;
      cbn [dbz stop] in Hle, Hlt; unfold Num.le, Num.lt, Num.of_Z in Hle, Hlt;
      apply Qle_bool_iff in Hle; apply negb_true_iff, Qle_bool_false in Hlt;
      cbv [inject_Z] in Hle, Hlt; tac
    | ]);
  cbn in Hhi; discriminate Hhi.

(** The levels that are not seen and the levels that hide the map: every
    level at or below 0 dBZ has the colour (0, 0, 0, 0), and every level
    at or above 30 dBZ has the alpha 255. *)
Theorem getColorForDbz_visibility :
  (forall q, (q <= 0)%Q ->
     getColorForDbz (Num q)
       = RGBA (Num.of_Z 0) (Num.of_Z 0) (Num.of_Z 0) (Num.of_Z 0)) /\
  (forall q, (30 <= q)%Q -> alpha (getColorForDbz (Num q)) = Num.of_Z 255).
Proof.
  split.
  - intros q Hq. destruct (Qlt_le_dec q (-30)) as [Hbelow|Hge].
    { rewrite getColorForDbz_below; [reflexivity|].
      cbn [dbz stop]. unfold Num.lt, Num.of_Z.
      apply negb_true_iff, Qle_bool_false. cbv [inject_Z]. lra. }
    destruct (COLOR_SCALE_cover q Hge ltac:(lra)) as (i & lo & hi & Hlo & Hhi & Hle & Hlt).
    rewrite (getColorForDbz_between (Num q) i lo hi Hlo Hhi Hle Hlt).
    unfold stop_interpolate.
    each_stop i Hlo Hhi Hle Hlt
      (first
         [ lra
         | rewrite !(channel_interpolate_const _ _ q (inject_Z (-30)) (inject_Z 0) _ 0 0)
             by (reflexivity || (cbv [inject_Z]; lra) || (left; reflexivity));
           reflexivity
         | rewrite (channel_interpolate_const _ _ q (inject_Z 0) (inject_Z 5) red 0 4),
             (channel_interpolate_const _ _ q (inject_Z 0) (inject_Z 5) green 0 68),
             (channel_interpolate_const _ _ q (inject_Z 0) (inject_Z 5) blue 0 94),
             (channel_interpolate_const _ _ q (inject_Z 0) (inject_Z 5) alpha 0 160)
             by (reflexivity || (cbv [inject_Z]; lra)
                 || (right; cbv [inject_Z]; apply Qle_antisym; lra));
           reflexivity ]).
  - intros q Hq. destruct (Qlt_le_dec q 75) as [Hlt75|Habove].
    2: { rewrite getColorForDbz_above; [reflexivity|].
         cbn [dbz stop]. unfold Num.ge, Num.le, Num.of_Z.
         apply Qle_bool_iff. cbv [inject_Z]. lra. }
    destruct (COLOR_SCALE_cover q ltac:(lra) Hlt75) as (i & lo & hi & Hlo & Hhi & Hle & Hlt).
    rewrite (getColorForDbz_between (Num q) i lo hi Hlo Hhi Hle Hlt).
    unfold stop_interpolate. cbn [alpha].
    each_stop i Hlo Hhi Hle Hlt
      (first
         [ lra
         | eapply (channel_interpolate_const _ _ q _ _ alpha 255 255);
             try reflexivity; try (cbv [inject_Z]; lra); left; reflexivity ]).
Qed.

(** ** The legend *)

Section Raster.

(** A raster of [H] rows of [W] pixels filled row by row: [paint j]
    stores the four bytes [cell i j] of pixel [(i, j)]. *)
Variables W H : nat.
Variable paint : nat -> list Z -> nat -> list Z.
Variable cell : nat -> nat -> list Z.

Hypothesis paint_length : forall j pixels i, length (paint j pixels i) = length pixels.
Hypothesis paint_frame : forall j pixels i k,
  (k < 4 * (j * W + i) \/ 4 * (j * W + i) + 4 <= k)%nat ->
  paint j pixels i !! k = pixels !! k.
Hypothesis paint_at : forall j pixels i c,
  (4 * (j * W + i) + 4 <= length pixels)%nat -> (c < 4)%nat ->
  paint j pixels i !! (4 * (j * W + i) + c)%nat = cell i j !! c.

Lemma raster_row j pixels (n : nat) :
  (n <= W)%nat -> (4 * (j * W + W) <= length pixels)%nat ->
  let pixels' := fold_left (paint j) (seq 0 n) pixels in
  length pixels' = length pixels /\
  (forall i c, (i < n)%nat -> (c < 4)%nat ->
     pixels' !! (4 * (j * W + i) + c)%nat = cell i j !! c) /\
  (forall k, (k < 4 * (j * W) \/ 4 * (j * W + n) <= k)%nat -> pixels' !! k = pixels !! k).
Proof.
  intros Hn Hlen. induction n as [|n IH]; cbn zeta.
  - cbn. repeat split; intros; lia || reflexivity.
  - rewrite seq_S, fold_left_app. cbn [fold_left Nat.add].
    destruct IH as (IHlen & IHat & IHframe); [lia|].
    set (px := fold_left _ (seq 0 n) pixels) in *.
    split; [rewrite paint_length; exact IHlen|]. split.
    + intros i c Hi Hc. destruct (Nat.eq_dec i n) as [->|Hne].
      * apply paint_at; lia.
      * rewrite paint_frame by lia. apply IHat; lia.
    + intros k Hk. rewrite paint_frame by lia. apply IHframe. lia.
Qed.

Lemma raster_rows pixels (m : nat) :
  (m <= H)%nat -> length pixels = (4 * (H * W))%nat ->
  let pixels' :=
    fold_left (fun pixels j => fold_left (paint j) (seq 0 W) pixels) (seq 0 m) pixels in
  length pixels' = length pixels /\
  (forall j i c, (j < m)%nat -> (i < W)%nat -> (c < 4)%nat ->
     pixels' !! (4 * (j * W + i) + c)%nat = cell i j !! c).
Proof.
  intros Hm Hlen. induction m as [|m IH]; cbn zeta.
  - cbn. split; [reflexivity | intros; lia].
  - rewrite seq_S, fold_left_app. cbn [fold_left Nat.add].
    destruct IH as (IHlen & IHat); [lia|].
    set (px := fold_left _ (seq 0 m) pixels) in *.
    assert (m * W + W <= H * W)%nat as Hrow by nia.
    destruct (raster_row m px W) as (Rlen & Rat & Rframe); [lia | lia |].
    split; [lia|].
    intros j i c Hj Hi Hc. destruct (Nat.eq_dec j m) as [->|Hne].
    + apply Rat; assumption.
    + assert (j * W + W <= m * W)%nat by nia.
      rewrite Rframe by lia. apply IHat; lia.
Qed.

End Raster.

Lemma legend_pixel_length y color pixels x :
  length (legend_pixel y color pixels x) = length pixels.
Proof. unfold legend_pixel. rewrite !length_insert. reflexivity. Qed.

Lemma legend_pixel_frame y color pixels x k :
  (k < 4 * (y * 30 + x) \/ 4 * (y * 30 + x) + 4 <= k)%nat ->
  legend_pixel y color pixels x !! k = pixels !! k.
Proof.
  intros Hk. unfold legend_pixel, legendWidth.
  replace (Z.to_nat ((Z.of_nat y * 30 + Z.of_nat x) * 4)) with (4 * (y * 30 + x))%nat by lia.
  rewrite !list_lookup_insert_ne by lia. reflexivity.
Qed.

Lemma legend_pixel_at y color pixels x (c : nat) :
  (4 * (y * 30 + x) + 4 <= length pixels)%nat -> (c < 4)%nat ->
  legend_pixel y color pixels x !! (4 * (y * 30 + x) + c)%nat = legend_cell color !! c.
Proof.
  intros Hlen Hc. unfold legend_pixel, legendWidth.
  replace (Z.to_nat ((Z.of_nat y * 30 + Z.of_nat x) * 4)) with (4 * (y * 30 + x))%nat by lia.
  set (p := (4 * (y * 30 + x))%nat) in *.
  destruct c as [|[|[|[|c]]]]; [| | | |lia].
  - rewrite Nat.add_0_r, !list_lookup_insert_ne, list_lookup_insert_eq by lia. reflexivity.
  - rewrite !list_lookup_insert_ne by lia.
    rewrite list_lookup_insert_eq by (rewrite length_insert; lia). reflexivity.
  - rewrite list_lookup_insert_ne by lia.
    rewrite list_lookup_insert_eq by (rewrite !length_insert; lia). reflexivity.
  - rewrite list_lookup_insert_eq by (rewrite !length_insert; lia). reflexivity.
Qed.

(** The level of a row: from 75 dBZ at the top down to 5 dBZ, which no row
    reaches. *)
Lemma legend_dbz_level (y : Z) :
  0 <= y < 256 ->
  exists level,
    legend_dbz y = Num level /\
    (level == 75 - (35 # 128) * inject_Z y)%Q /\ (5 < level <= 75)%Q.
Proof.
  intros Hy. unfold legend_dbz, legendHeight, minDbz, maxDbz.
  rewrite div_of_Z by lia.
  unfold Num.sub, Num.add, Num.neg, Num.mul, Num.of_Z.
  eexists. split; [reflexivity|].
  assert (inject_Z 0 <= inject_Z y)%Q by (rewrite <- Zle_Qle; lia).
  assert (inject_Z y <= inject_Z 255)%Q by (rewrite <- Zle_Qle; lia).
  assert (inject_Z 5 + (inject_Z 1 + - (inject_Z y / inject_Z 256))
                       * (inject_Z 75 + - inject_Z 5)
          == 75 - (35 # 128) * inject_Z y)%Q as Hlevel
    by (cbv [inject_Z]; field).
  split; [exact Hlevel|]. rewrite Hlevel. cbv [inject_Z] in *. split; lra.
Qed.

(** The legend that the encoder is given, with the dimensions 30 and 256,
    is a buffer of 30 * 256 * 4 bytes.  Every pixel of row [y]
    has the red, green and blue of the colour of the level
    [75 - 70 * y / 256] dBZ, and the alpha 255 whatever the alpha of that
    colour is.  The top row has the colour of the last stop,
    (200, 200, 255). *)
Theorem legend_pixels_rows :
  exists pixels,
    legend_pixels = Ok pixels /\
    (forall encode, renderLegend encode = encode pixels (Some 30) (Some 256)) /\
    length pixels = Z.to_nat (30 * 256 * 4) /\
    (forall x y, 0 <= x < 30 -> 0 <= y < 256 ->
       exists level r g b a,
         legend_dbz y = Num level /\
         (level == 75 - (35 # 128) * inject_Z y)%Q /\
         getColorForDbz (Num level)
           = RGBA (Num.of_Z r) (Num.of_Z g) (Num.of_Z b) (Num.of_Z a) /\
         take 4 (drop (Z.to_nat ((y * 30 + x) * 4)) pixels) = [r; g; b; 255]) /\
    take 4 pixels = [200; 200; 255; 255].
Proof.
  unfold legend_pixels, Uint8Array_new.
  change (legendWidth * legendHeight * 4 <? 0) with false. cbn [mbind result_bind].
  eexists. split; [reflexivity|].
  split; [intros encode; reflexivity|].
  set (zeros := replicate (Z.to_nat (legendWidth * legendHeight * 4)) 0).
  assert (length zeros = (4 * (256 * 30))%nat) as Hzeros
    by (subst zeros; rewrite length_replicate; unfold legendWidth, legendHeight; lia).
  destruct (raster_rows 30 256
              (fun y => legend_pixel y (getColorForDbz (legend_dbz (Z.of_nat y))))
              (fun _ y => legend_cell (getColorForDbz (legend_dbz (Z.of_nat y))))
              (fun y => legend_pixel_length y _)
              (fun y => legend_pixel_frame y _)
              (fun y => legend_pixel_at y _)
              zeros 256 ltac:(lia) Hzeros) as (Hlen & Hat).
  change (fold_left _ (seq 0 256) zeros)
    with (fold_left legend_row (seq 0 (Z.to_nat legendHeight)) zeros) in Hlen, Hat.
  set (pixels := fold_left legend_row _ zeros) in *.
  assert (forall x y, 0 <= x < 30 -> 0 <= y < 256 ->
            take 4 (drop (Z.to_nat ((y * 30 + x) * 4)) pixels)
              = legend_cell (getColorForDbz (legend_dbz y))) as Hcells.
  { intros x y Hx Hy.
    replace (Z.to_nat ((y * 30 + x) * 4))
      with (4 * (Z.to_nat y * 30 + Z.to_nat x))%nat by lia.
    apply list_eq. intros c. rewrite lookup_take, lookup_drop.
    destruct (decide (c < 4)%nat) as [Hc|Hc].
    - rewrite (Hat (Z.to_nat y) (Z.to_nat x) c) by lia.
      rewrite Z2Nat.id by lia. reflexivity.
    - symmetry. apply lookup_ge_None_2. cbn. lia. }
  split; [lia|]. split.
  - intros x y Hx Hy.
    destruct (legend_dbz_level y Hy) as (level & Elevel & Hlevel & _).
    destruct (getColorForDbz_byte_color (Num level))
      as ((r & Er & Hr) & (g & Eg & Hg) & (b & Eb & Hb) & (a & Ea & Ha)).
    exists level, r, g, b, a. split; [exact Elevel|]. split; [exact Hlevel|].
    rewrite (Hcells x y Hx Hy), Elevel. unfold legend_cell.
    rewrite (ToUint8_byte _ r Er Hr), (ToUint8_byte _ g Eg Hg), (ToUint8_byte _ b Eb Hb).
    split; [|reflexivity].
    destruct (getColorForDbz (Num level)) as [cr cg cb ca]. cbn in *. subst. reflexivity.
  - specialize (Hcells 0 0 ltac:(lia) ltac:(lia)). cbn [Z.to_nat drop] in Hcells.
    change (Z.to_nat ((0 * 30 + 0) * 4)) with 0%nat in Hcells. rewrite drop_0 in Hcells.
    rewrite Hcells. reflexivity.
Qed.

(** ** The server *)

(** A cache that holds an image of less than a minute ago answers. *)
Lemma getRadarData_hit fuel sharp encode gunzipSync (w : Server.world)
    (cache : Server.radarCache) pngBuffer t :
  Server.image cache = Some pngBuffer -> Server.fetchedAt cache = Some t ->
  t <> 0 -> Server.now_check w - t < 60000 ->
  Server.getRadarData fuel sharp encode gunzipSync w cache
    = (Server.Returned cache, cache).
Proof.
  intros Himage Hat Ht Hsoon. unfold Server.getRadarData, Server.isCacheValid.
  rewrite Hat, Himage. destruct (Z.eqb_spec t 0); [contradiction|].
  unfold Server.CACHE_DURATION.
  destruct (Z.ltb_spec (Server.now_check w - t) (60 * 1000)); [|lia].
  rewrite bool_decide_eq_true_2 by (eexists; reflexivity). reflexivity.
Qed.

(** What a call that does not find the cache valid returns. *)
Lemma getRadarData_refresh fuel sharp encode gunzipSync (w : Server.world)
    (cache : Server.radarCache) :
  Server.isCacheValid (Server.now_check w) cache
    && bool_decide (is_Some (Server.image cache)) = false ->
  let r := Server.getRadarData fuel sharp encode gunzipSync w cache in
  (exists pngBuffer m,
     r = (Server.Returned
            {| Server.image := Some pngBuffer; Server.cached_metadata := Some m;
               Server.cached_timestamp := Some (md_timestamp m);
               Server.fetchedAt := Some (Server.now_store w) |},
          {| Server.image := Some pngBuffer; Server.cached_metadata := Some m;
             Server.cached_timestamp := Some (md_timestamp m);
             Server.fetchedAt := Some (Server.now_store w) |})) \/
  (exists f, r = (Server.Thrown f, cache)) \/
  r = (Server.Pending, cache).
Proof.
  intros Hmiss. cbv zeta. unfold Server.getRadarData. rewrite Hmiss.
  destruct (Server.fetchLatestRadarData (Server.reply w) gunzipSync) as [gribBuffer|f|];
    [| right; left; eexists; reflexivity | right; right; reflexivity].
  destruct (parseGrib2 fuel sharp gribBuffer) as [parsedData|e|];
    [| right; left; eexists; reflexivity | right; right; reflexivity].
  destruct (renderRadarPng encode parsedData) as [pngBuffer|e|];
    [| right; left; eexists; reflexivity | right; right; reflexivity].
  left. exists pngBuffer.
  exists {| md_timestamp := rd_timestamp parsedData; md_bounds := rd_bounds parsedData;
            md_width := rd_width parsedData; md_height := rd_height parsedData |}.
  reflexivity.
Qed.



(** A request that fails while the cache is not valid.  When [fetch]
    rejects, when the upstream reply is not ok, when [gunzipSync] throws,
    and when the parse or the rendering throws, [getRadarData] throws, the
    cache stays as it was, and the two endpoints answer 500: an image that
    the cache still holds is not sent. *)
Theorem getRadarData_failure (fuel : nat) (sharp : list byte -> option raw_image)
    (encode : png_encoder) (gunzipSync : list byte -> option (list byte))
    (w : Server.world) (cache : Server.radarCache)
    (Hmiss : Server.isCacheValid (Server.now_check w) cache = false) :
  let fails f :=
    Server.getRadarData fuel sharp encode gunzipSync w cache = (Server.Thrown f, cache) /\
    Server.get_latest fuel sharp encode gunzipSync w cache
      = (Server.SendError 500 "Failed to fetch radar data", cache) /\
    Server.get_metadata fuel sharp encode gunzipSync w cache
      = (Server.SendError 500 "Failed to fetch radar metadata", cache) in
  (Server.reply w = Server.Rejected -> fails Server.FetchRejected) /\
  (forall status statusText body,
     Server.reply w = Server.Response false status statusText body ->
     fails (Server.FetchFailed status statusText)) /\
  (forall status statusText body,
     Server.reply w = Server.Response true status statusText body ->
     gunzipSync body = None -> fails Server.GunzipFailed) /\
  (forall status statusText body gribBuffer e,
     Server.reply w = Server.Response true status statusText body ->
     gunzipSync body = Some gribBuffer ->
     getRadarData fuel sharp encode gribBuffer = Throw e ->
     fails (Server.PipelineFailed e)).
Proof.
  assert (forall f,
            Server.getRadarData fuel sharp encode gunzipSync w cache
              = (Server.Thrown f, cache) ->
            Server.getRadarData fuel sharp encode gunzipSync w cache
              = (Server.Thrown f, cache) /\
            Server.get_latest fuel sharp encode gunzipSync w cache
              = (Server.SendError 500 "Failed to fetch radar data", cache) /\
            Server.get_metadata fuel sharp encode gunzipSync w cache
              = (Server.SendError 500 "Failed to fetch radar metadata", cache)) as Hfails.
  { intros f Hf. split; [exact Hf|].
    unfold Server.get_latest, Server.get_metadata. rewrite Hf. split; reflexivity. }
  cbv zeta. unfold Server.getRadarData in *. rewrite Hmiss in *. cbn [andb] in *.
  split; [|split; [|split]].
  - intros Hreply. apply Hfails. rewrite Hreply. reflexivity.
  - intros status statusText body Hreply. apply Hfails. rewrite Hreply. reflexivity.
  - intros status statusText body Hreply Hzip. apply Hfails.
    rewrite Hreply. cbn. rewrite Hzip. reflexivity.
  - intros status statusText body gribBuffer e Hreply Hzip Hpipe. apply Hfails.
    rewrite Hreply. cbn. rewrite Hzip.
    unfold getRadarData in Hpipe.
    destruct (parseGrib2 fuel sharp gribBuffer) as [parsedData|e'|];
      cbn [mbind result_bind] in Hpipe; [|injection Hpipe as ->; reflexivity | discriminate Hpipe].
    destruct (renderRadarPng encode parsedData) as [pngBuffer|e'|];
      cbn [mbind result_bind] in Hpipe;
      [discriminate Hpipe | injection Hpipe as ->; reflexivity | discriminate Hpipe].
Qed.

Lemma getRadarData_failure_witness :
  Server.getRadarData 8 sharp_fails encode_nothing gunzip_stored
    {| Server.now_check := 700000; Server.now_store := 700500;
       Server.reply := Server.Response true 200 "OK" message_without_section3 |}
    stale_cache
    = (Server.Thrown (Server.PipelineFailed (MissingSection 3)), stale_cache) /\
  Server.get_latest 8 sharp_fails encode_nothing gunzip_stored
    {| Server.now_check := 700000; Server.now_store := 700500;
       Server.reply := Server.Response true 200 "OK" message_without_section3 |}
    stale_cache
    = (Server.SendError 500 "Failed to fetch radar data", stale_cache) /\
  Server.get_metadata 8 sharp_fails encode_nothing gunzip_stored
    {| Server.now_check := 700000; Server.now_store := 700500;
       Server.reply := Server.Response true 200 "OK" message_without_section3 |}
    stale_cache
    = (Server.SendError 500 "Failed to fetch radar metadata", stale_cache).
Proof.
  exact (proj2 (proj2 (proj2
           (getRadarData_failure 8 sharp_fails encode_nothing gunzip_stored
              {| Server.now_check := 700000; Server.now_store := 700500;
                 Server.reply := Server.Response true 200 "OK" message_without_section3 |}
              stale_cache eq_refl)))
           200 "OK"%string message_without_section3 message_without_section3
           (MissingSection 3) eq_refl eq_refl eq_refl).
Defined.

(** What the two endpoints answer.  From a cache that is empty or was
    filled by [getRadarData], the image endpoint sends the image of the
    cache it leaves, or the error 500, or nothing when the parse does not
    end; the metadata endpoint likewise.  The answer 503 is never sent,
    and the cache that is left is again empty or filled. *)
Theorem endpoints_never_503 (fuel : nat) (sharp : list byte -> option raw_image)
    (encode : png_encoder) (gunzipSync : list byte -> option (list byte))
    (w : Server.world) (cache : Server.radarCache)
    (Hcache : Server.filled_or_empty cache) :
  (exists cache',
     Server.filled_or_empty cache' /\
     ((exists pngBuffer,
         Server.get_latest fuel sharp encode gunzipSync w cache
           = (Server.SendImage pngBuffer, cache') /\
         Server.image cache' = Some pngBuffer) \/
      Server.get_latest fuel sharp encode gunzipSync w cache
        = (Server.SendError 500 "Failed to fetch radar data", cache') \/
      Server.get_latest fuel sharp encode gunzipSync w cache = (Server.NoReply, cache'))) /\
  (exists cache',
     Server.filled_or_empty cache' /\
     ((exists m,
         Server.get_metadata fuel sharp encode gunzipSync w cache
           = (Server.SendMetadata m, cache') /\
         Server.cached_metadata cache' = Some m) \/
      Server.get_metadata fuel sharp encode gunzipSync w cache
        = (Server.SendError 500 "Failed to fetch radar metadata", cache') \/
      Server.get_metadata fuel sharp encode gunzipSync w cache = (Server.NoReply, cache'))).
Proof.
  unfold Server.get_latest, Server.get_metadata.
  destruct (Server.isCacheValid (Server.now_check w) cache
            && bool_decide (is_Some (Server.image cache))) eqn:Hvalid.
  - assert (Server.getRadarData fuel sharp encode gunzipSync w cache
            = (Server.Returned cache, cache)) as ->
      by (unfold Server.getRadarData; rewrite Hvalid; reflexivity).
    destruct Hcache as [-> | (pngBuffer & m & t & ->)]; [discriminate Hvalid|].
    cbn [Server.image Server.cached_metadata].
    split; eexists; (split; [right; do 3 eexists; reflexivity|]);
      left; eexists; split; reflexivity.
  - destruct (getRadarData_refresh fuel sharp encode gunzipSync w cache Hvalid)
      as [(pngBuffer & m & Hr) | [(f & Hr) | Hr]]; cbv zeta in Hr; rewrite Hr.
    + cbn [Server.image Server.cached_metadata].
      split; eexists; (split; [right; do 3 eexists; reflexivity|]);
        left; eexists; split; reflexivity.
    + split; exists cache; (split; [exact Hcache|]); right; left; reflexivity.
    + split; exists cache; (split; [exact Hcache|]); right; right; reflexivity.
Qed.

Lemma endpoints_never_503_witness :
  exists cache',
    Server.filled_or_empty cache' /\
    ((exists pngBuffer,
        Server.get_latest 8 sharp_fails encode_nothing gunzip_stored
          {| Server.now_check := 1000; Server.now_store := 1500;
             Server.reply := upstream_1x1 |} Server.empty_cache
          = (Server.SendImage pngBuffer, cache') /\
        Server.image cache' = Some pngBuffer) \/
     Server.get_latest 8 sharp_fails encode_nothing gunzip_stored
       {| Server.now_check := 1000; Server.now_store := 1500;
          Server.reply := upstream_1x1 |} Server.empty_cache
       = (Server.SendError 500 "Failed to fetch radar data", cache') \/
     Server.get_latest 8 sharp_fails encode_nothing gunzip_stored
       {| Server.now_check := 1000; Server.now_store := 1500;
          Server.reply := upstream_1x1 |} Server.empty_cache
       = (Server.NoReply, cache')).
Proof.
  exact (proj1 (endpoints_never_503 8 sharp_fails encode_nothing gunzip_stored
                  {| Server.now_check := 1000; Server.now_store := 1500;
                     Server.reply := upstream_1x1 |} Server.empty_cache
                  (or_introl eq_refl))).
Defined.

(** ** What the encoder is given *)

Lemma cell_pixel_bytes v : Forall (fun b => 0 <= b < 256) (cell_pixel v).
Proof.
  destruct (getColorForDbz_byte_color (or_missing v))
    as ((r & Er & Hr) & (g & Eg & Hg) & (b & Eb & Hb) & (a & Ea & Ha)).
  unfold cell_pixel.
  rewrite (ToUint8_byte _ r Er Hr), (ToUint8_byte _ g Eg Hg),
    (ToUint8_byte _ b Eb Hb), (ToUint8_byte _ a Ea Ha).
  repeat constructor; lia.
Qed.

Lemma radar_pixels_bytes values (width height : Z) mode pixels :
  0 <= width -> 0 <= height ->
  radar_pixels values width height mode = Ok pixels ->
  length pixels = Z.to_nat (width * height * 4) /\
  Forall (fun b => 0 <= b < 256) pixels.
Proof.
  intros Hw Hh Hrun.
  destruct (radar_pixels_at values (Z.to_nat width) (Z.to_nat height) mode)
    as (p & Hp & Hlen & Hat).
  rewrite !Z2Nat.id in Hp by lia. rewrite Hrun in Hp. injection Hp as <-.
  split; [rewrite Hlen; nia|].
  apply Forall_lookup_2. intros k b Hk.
  pose proof (lookup_lt_Some _ _ _ Hk) as Hlt. rewrite Hlen in Hlt.
  assert (0 < Z.to_nat width)%nat as HW by nia.
  pose proof (Nat.div_mod_eq k 4) as Ek.
  pose proof (Nat.mod_upper_bound k 4 ltac:(lia)) as Hc.
  pose proof (Nat.div_mod_eq (k / 4) (Z.to_nat width)) as Eq.
  pose proof (Nat.mod_upper_bound (k / 4) (Z.to_nat width) ltac:(lia)) as Hi.
  assert (k / 4 / Z.to_nat width < Z.to_nat height)%nat as Hj.
  { apply Nat.Div0.div_lt_upper_bound. apply Nat.Div0.div_lt_upper_bound. lia. }
  specialize (Hat (k / 4 / Z.to_nat width) ((k / 4) mod Z.to_nat width) (k mod 4)
                Hj Hi Hc)%nat.
  replace (4 * (k / 4 / Z.to_nat width * Z.to_nat width + (k / 4) mod Z.to_nat width)
           + k mod 4)%nat with k in Hat by lia.
  rewrite Hk in Hat. symmetry in Hat.
  exact (Forall_lookup_1 (fun b => 0 <= b < 256) _ _ _ (cell_pixel_bytes _) Hat).
Qed.

Lemma render_rows_no_width values (height : Z) mode (rows : list nat) pixels :
  fold_left (render_row values 0 height mode) rows pixels = pixels.
Proof.
  revert pixels. induction rows as [|j rows IH]; intros pixels; [reflexivity|].
  cbn [fold_left]. rewrite IH. reflexivity.
Qed.

(** What [renderRadarPng] hands to the PNG encoder.  With a width and a
    height that are not negative: a buffer of [width * height * 4] bytes,
    each between 0 and 255, and the two dimensions.  With a negative
    product: nothing, the call throws a RangeError.  With no width or no
    height (a grid template other than 0 and 30): the empty buffer and
    the dimensions as they are. *)
Theorem renderRadarPng_encoder_input (encode : png_encoder) (radarData : radarData) :
  (forall w h,
     rd_width radarData = Some w -> rd_height radarData = Some h ->
     0 <= w -> 0 <= h ->
     exists pixels,
       renderRadarPng encode radarData = encode pixels (Some w) (Some h) /\
       length pixels = Z.to_nat (w * h * 4) /\
       Forall (fun b => 0 <= b < 256) pixels) /\
  (forall w h,
     rd_width radarData = Some w -> rd_height radarData = Some h ->
     w * h < 0 -> renderRadarPng encode radarData = Throw RangeError) /\
  (rd_width radarData = None \/ rd_height radarData = None ->
   renderRadarPng encode radarData
     = encode [] (rd_width radarData) (rd_height radarData)).
Proof.
  unfold renderRadarPng. split; [|split].
  - intros w h -> -> Hw Hh. cbn [default]. unfold id.
    destruct (radar_pixels_pixel (rd_values radarData) w h (rd_scanningMode radarData) Hw Hh)
      as (pixels & Hrun & _).
    destruct (radar_pixels_bytes _ w h _ pixels Hw Hh Hrun) as [Hlen Hbytes].
    exists pixels. rewrite Hrun. split; [reflexivity|]. split; assumption.
  - intros w h -> -> Hneg. cbn [default]. unfold id.
    unfold radar_pixels, Uint8Array_new.
    destruct (Z.ltb_spec (w * h * 4) 0); [reflexivity | lia].
  - intros Hnone. unfold radar_pixels.
    assert (default 0 (rd_width radarData) * default 0 (rd_height radarData) * 4 = 0) as ->
      by (destruct Hnone as [-> | ->]; cbn [default]; lia).
    cbn [Uint8Array_new Z.ltb Z.compare mbind result_bind Z.to_nat replicate].
    destruct Hnone as [-> | ->]; cbn [default].
    + rewrite render_rows_no_width. reflexivity.
    + reflexivity.
Qed.

(** ** A message that is parsed *)

(** A message that is parsed.  When the magic is accepted, the edition is
    2, section 1 parses with a reference time, and from the start of the
    scan on the sections lead, over sections that each scan steps over,
    to a section 3, then a section 5, then a section 7, at offsets that
    are not negative; when the reference value of section 5 lies in the
    buffer, its packing template is one of 0, 40, 41, 200 and the number
    of data points of section 3 is not negative: then [parseGrib2]
    returns, with any fuel from the number of sections stepped over on,
    and the field has that number of cells. *)
Theorem parseGrib2_accepts (sharp : list byte -> option raw_image)
    (buffer : list byte) (s1 : section1) (t : datetime)
    (skipped3 skipped5 skipped7 rest : list (Z * Z)) (l3 l5 l7 : Z)
    (Hmagic : toString_ascii (buffer_slice buffer 0 4) = "GRIB"%string)
    (Hedition : buffer_at buffer 7 = Some 2)
    (H1 : parseSection1 buffer 16 = Ok s1)
    (Ht : timestamp s1 = Some t)
    (Hat : sections_at buffer (scan_start buffer s1)
             (skipped3 ++ (3, l3) :: skipped5 ++ (5, l5) :: skipped7 ++ (7, l7) :: rest))
    (Hskip3 : Forall (stepped_over 3) skipped3)
    (Hskip5 : Forall (stepped_over 5) skipped5)
    (Hskip7 : Forall (stepped_over 7) skipped7) :
  let o3 := scan_start buffer s1 + sections_length skipped3 in
  let o5 := o3 + l3 + sections_length skipped5 in
  let o7 := o5 + l5 + sections_length skipped7 in
  let fuel := S (length skipped3 + length skipped5 + length skipped7) in
  0 <= o3 -> 0 <= o5 -> 0 <= o7 ->
  o5 + 15 <= buffer_length buffer ->
  supported_packing (readUint buffer (o5 + 9) 2) = true ->
  0 <= readUint buffer (o3 + 6) 4 ->
  exists radarData,
    (forall k : nat, parseGrib2 (fuel + k) sharp buffer = Ok radarData) /\
    rd_timestamp radarData = t /\
    length (rd_values radarData) = Z.to_nat (readUint buffer (o3 + 6) 4).
Proof.
  intros o3 o5 o7 fuel Ho3 Ho5 Ho7 Hfloat Hpack Hpoints.
  pose proof (sections_at_app _ _ _ _ Hat) as Hat3. fold o3 in Hat3.
  pose proof Hat3 as Hat5. cbn [sections_at] in Hat5.
  destruct Hat5 as (_ & Hl3 & H3 & Hat5).
  pose proof (sections_at_app _ _ _ _ Hat5) as Hat5'. fold o5 in Hat5'.
  pose proof Hat5' as Hat7. cbn [sections_at] in Hat7.
  destruct Hat7 as (_ & Hl5 & H5 & Hat7).
  pose proof (sections_at_app _ _ _ _ Hat7) as Hat7'. fold o7 in Hat7'.
  cbn [sections_at] in Hat7'. destruct Hat7' as (_ & Hl7 & H7 & _).
  destruct (parseSection3_at buffer o3 H3) as (s3 & Hs3 & Hlen3 & Hn3).
  destruct (parseSection5_at buffer o5 H5) as [[Hout _] | (s5 & Hs5 & Hlen5 & Htemplate)];
    [lia|].
  destruct (parseSection7_cases sharp buffer o7 s5 (grid s3) H7)
    as [[Hno _] | [(_ & Hneg & _) | (_ & _ & s7 & Hs7 & _ & Hsize)]];
    [rewrite Htemplate in Hno; congruence | lia |]. cbv zeta in Hs7.
  eexists. split; [|split].
  - intros k. unfold parseGrib2, parseSection0.
    rewrite Hmagic, Hedition.
    rewrite bool_decide_eq_true_2 by reflexivity. cbn [negb String.eqb].
    change (String.eqb "GRIB" "GRIB") with true. cbn [negb].
    destruct (parseSection1_timestamp buffer s1 H1) as [_ Hdate].
    specialize (Hdate t Ht).
    destruct (Z.ltb_spec (buffer_length buffer) 16); [lia|]. cbn [mbind result_bind].
    run_stage H1. run_stage Ht. fold (scan_start buffer s1).
    replace (fuel + k)%nat
      with (S (length skipped3) + (length skipped5 + length skipped7 + k))%nat
      by (subst fuel; lia).
    rewrite (findSection_match buffer _ 3 l3 skipped3 _ _ Hat Hskip3). fold o3.
    cbn [mbind result_bind].
    destruct (Z.eqb_spec o3 (-1)); [lia|]. run_stage Hs3. rewrite Hlen3, Hl3.
    replace (S (length skipped3) + (length skipped5 + length skipped7 + k))%nat
      with (S (length skipped5) + (length skipped3 + length skipped7 + k))%nat by lia.
    rewrite (findSection_match buffer _ 5 l5 skipped5 _ _ Hat5 Hskip5). fold o5.
    cbn [mbind result_bind].
    destruct (Z.eqb_spec o5 (-1)); [lia|]. run_stage Hs5. rewrite Hlen5, Hl5.
    replace (S (length skipped5) + (length skipped3 + length skipped7 + k))%nat
      with (S (length skipped7) + (length skipped3 + length skipped5 + k))%nat by lia.
    rewrite (findSection_match buffer _ 7 l7 skipped7 _ _ Hat7 Hskip7). fold o7.
    cbn [mbind result_bind].
    destruct (Z.eqb_spec o7 (-1)); [lia|]. run_stage Hs7. reflexivity.
  - reflexivity.
  - cbn [rd_values]. rewrite Hsize, Hn3. reflexivity.
Qed.

Lemma parseGrib2_accepts_witness :
  exists radarData,
    (forall k : nat, parseGrib2 (1 + k) sharp_fails message_1x1 = Ok radarData) /\
    rd_timestamp radarData
      = {| year := 2024; month := 0; day := 15; hour := 18; minute := 42; second := 0 |} /\
    length (rd_values radarData) = 1%nat.
Proof.
  refine (parseGrib2_accepts sharp_fails message_1x1 _ _ [] [] [] [] 72 21 6
            eq_refl eq_refl eq_refl eq_refl _ _ _ _ _ _ _ _ _ _);
    try (constructor; fail); try (vm_compute; discriminate); try reflexivity.
  vm_compute. repeat split; reflexivity.
Defined.
